(** * Movie discovery client: persistence store and API client

    A shallow embedding of the two core modules of the application,

    - [services/idb.ts]: the IndexedDB schema ([AppDB]), [initDB] and the
      [dbHelpers] object;
    - [api/apiClient.ts]: the [APIClient] class ([fetchWithRetry],
      [parseRateLimitHeaders], [isNetworkError], [get]);

    together with their callers that carry logic of their own:
    [clearAllData] of [pages/Settings.tsx], the [useFavorites] hook,
    [handleClearAll] of the favorites page, the preferences context
    ([loadPreferences], [updatePreferences]), [handleSearch] of the search
    bar, [loadMovieDetails] of the detail modal, and the [tmdbAPI] adapter.
    A handler that writes React state takes the state it sees and returns
    the state it leaves.

    Asynchronous functions are functions in a state-and-exception monad over
    a [World]: the database, the clock read by [Date.now()], the upstream
    server (an oracle answering the n-th [fetch] of the session), the log of
    fetches and timer waits, and the fields of the client instance. *)

From Stdlib Require Import ZArith Lia Ascii.
From stdpp Require Import base option list strings gmap fin_maps pretty sorting.

Local Open Scope string_scope.
Local Open Scope list_scope.
Local Open Scope Z_scope.

(** ** JavaScript values *)

(** A value produced by [response.json()] and stored by structured clone.
    Numbers are kept as integers: the code only tests a number for
    truthiness or copies it. The fields of [JObj] are the own properties of
    the object, each name once. *)
#[warnings="-register-all"]
Inductive JSON : Type :=
  | JNull
  | JBool (b : bool)
  | JNum (n : Z)
  | JStr (s : string)
  | JArr (items : list JSON)
  | JObj (fields : list (string * JSON)).

(** [ToBoolean]: what [if (v)] and [v || w] test. *)
Definition truthy (v : JSON) : bool :=
  match v with
  | JNull => false
  | JBool b => b
  | JNum n => negb (n =? 0)
  | JStr s => negb (String.eqb s "")
  | JArr _ | JObj _ => true
  end.

Fixpoint assoc {A} (k : string) (l : list (string * A)) : option A :=
  match l with
  | [] => None
  | (k', v) :: l' => if String.eqb k k' then Some v else assoc k l'
  end.

(** The classes of error objects the code can meet; a [DOMException] carries
    its [name] ([AbortError], [ConstraintError], [QuotaExceededError], ...). *)
Inductive ErrorClass : Type :=
  | PlainError
  | TypeError
  | SyntaxError
  | DOMException (name : string).

Definition error_name (c : ErrorClass) : string :=
  match c with
  | PlainError => "Error"
  | TypeError => "TypeError"
  | SyntaxError => "SyntaxError"
  | DOMException name => name
  end.

(** [interface APIError]. The [message] is whatever
    [errorData.status_message || `HTTP ${status}`] evaluates to, so it is a
    JSON value, a string in the well-behaved case. *)
Record APIError : Type := mkAPIError {
  api_message : JSON;
  api_status : option Z;
  api_isNetworkError : bool;
}.

(** What a [throw] (or a rejected promise) carries: an [Error] instance or
    the plain [APIError] object literal thrown by [get]. *)
Inductive Thrown : Type :=
  | ErrorObject (c : ErrorClass) (msg : string)
  | APIErrorObject (e : APIError).

(** ** The five object stores ([interface AppDB]) *)

(** [vote_average] is a float in the source; the code only copies it, and
    it is kept here as an integer. *)
Record Favorite : Type := mkFavorite {
  id : Z;
  title : string;
  overview : string;
  poster_path : string;
  release_date : string;
  vote_average : Z;
  savedAt : Z;
}.

Record SearchEntry : Type := mkSearchEntry {
  query : string;
  timestamp : Z;
}.

Record CacheEntry : Type := mkCacheEntry {
  key : string;
  data : JSON;
  cache_timestamp : Z;
  ttl : Z;
}.

Record UsageEvent : Type := mkUsageEvent {
  action : string;
  event_data : JSON;
  event_timestamp : Z;
}.

Inductive StoreName : Type :=
  | favorites_store
  | search_history_store
  | api_cache_store
  | preferences_store
  | analytics_store.

(** The database created by [initDB]'s [upgrade]: [favorites] keyed by
    [id], [search-history] by [query], [api-cache] by [key], [preferences]
    with out-of-line keys, and [analytics] with [autoIncrement] keys, kept
    as the list of its records in key order (the i-th record has key i+1). *)
Record DB : Type := mkDB {
  favorites : gmap Z Favorite;
  search_history : gmap string SearchEntry;
  api_cache : gmap string CacheEntry;
  preferences : gmap string JSON;
  analytics : list UsageEvent;
}.

Definition empty_db : DB := mkDB ∅ ∅ ∅ ∅ [].

Definition set_favorites (f : gmap Z Favorite) (d : DB) : DB :=
  mkDB f (search_history d) (api_cache d) (preferences d) (analytics d).
Definition set_search_history (h : gmap string SearchEntry) (d : DB) : DB :=
  mkDB (favorites d) h (api_cache d) (preferences d) (analytics d).
Definition set_api_cache (c : gmap string CacheEntry) (d : DB) : DB :=
  mkDB (favorites d) (search_history d) c (preferences d) (analytics d).
Definition set_preferences (p : gmap string JSON) (d : DB) : DB :=
  mkDB (favorites d) (search_history d) (api_cache d) p (analytics d).
Definition set_analytics (a : list UsageEvent) (d : DB) : DB :=
  mkDB (favorites d) (search_history d) (api_cache d) (preferences d) a.

(** ** The network *)

(** A received response: [headers] maps lower-cased header names to values;
    [body] is the parsed body, [None] when the text is not JSON (then
    [response.json()] rejects with a [SyntaxError]). *)
Record Response : Type := mkResponse {
  resp_status : Z;
  headers : gmap string string;
  body : option JSON;
}.

(** What one [fetch] does: it resolves with a response or rejects with an
    error object (a [TypeError] when the transport fails, the [AbortError]
    [DOMException] when the 10 s timer aborts the request). *)
Inductive FetchOutcome : Type :=
  | Responded (r : Response)
  | Rejected (c : ErrorClass) (msg : string).

(** [interface RateLimitInfo]; [None] in a numeric field is [NaN]. *)
Record RateLimitInfo : Type := mkRateLimitInfo {
  remaining : option Z;
  resetTime : option Z;
  isNearLimit : bool;
}.

Inductive Effect : Type :=
  | Fetch (url : string)
  | Sleep (ms : Z).

(** [toast({ title, description, variant })] *)
Record Toast : Type := mkToast {
  toast_title : string;
  toast_description : string;
  destructive : bool;
}.

(** ** The world an asynchronous function runs in *)

(** [fault s = Some (c, msg)] says that requests on object store [s] reject
    with that error (quota exceeded, store unavailable, ...). [server n url]
    answers the fetch of [url] made after [n] earlier fetches. [trace] logs
    fetches and timer waits, oldest first. [clock] is [Date.now()]; it
    advances by the delay of each timer wait. [baseURL], [apiKey] and
    [rateLimitInfo] are the fields of the one [APIClient] instance;
    [localStorage] and [toasts] belong to the page. *)
Record World : Type := mkWorld {
  db : DB;
  fault : StoreName → option (ErrorClass * string);
  clock : Z;
  server : nat → string → FetchOutcome;
  trace : list Effect;
  baseURL : string;
  apiKey : string;
  rateLimitInfo : option RateLimitInfo;
  localStorage : gmap string string;
  toasts : list Toast;
}.

Definition set_db (d : DB) (w : World) : World :=
  mkWorld d (fault w) (clock w) (server w) (trace w)
          (baseURL w) (apiKey w) (rateLimitInfo w) (localStorage w) (toasts w).
Definition set_rateLimitInfo (r : option RateLimitInfo) (w : World) : World :=
  mkWorld (db w) (fault w) (clock w) (server w) (trace w)
          (baseURL w) (apiKey w) r (localStorage w) (toasts w).
Definition set_clock (t : Z) (w : World) : World :=
  mkWorld (db w) (fault w) t (server w) (trace w)
          (baseURL w) (apiKey w) (rateLimitInfo w) (localStorage w) (toasts w).
Definition set_localStorage (l : gmap string string) (w : World) : World :=
  mkWorld (db w) (fault w) (clock w) (server w) (trace w)
          (baseURL w) (apiKey w) (rateLimitInfo w) l (toasts w).
Definition log (e : Effect) (w : World) : World :=
  mkWorld (db w) (fault w) (clock w) (server w) (trace w ++ [e])
          (baseURL w) (apiKey w) (rateLimitInfo w) (localStorage w) (toasts w).
Definition show_toast (t : Toast) (w : World) : World :=
  mkWorld (db w) (fault w) (clock w) (server w) (trace w)
          (baseURL w) (apiKey w) (rateLimitInfo w) (localStorage w)
          (toasts w ++ [t]).

Inductive Outcome (A : Type) : Type :=
  | Returned (a : A)
  | Threw (t : Thrown).
Arguments Returned {A} a.
Arguments Threw {A} t.

(** An [async] function: it ends by returning or throwing, and the effects
    made before a throw stay. *)
Definition Async (A : Type) : Type := World → Outcome A * World.

Definition ret {A} (a : A) : Async A := λ w, (Returned a, w).
Definition throw {A} (t : Thrown) : Async A := λ w, (Threw t, w).
Definition bind {A B} (m : Async A) (k : A → Async B) : Async B :=
  λ w, match m w with
       | (Returned a, w') => k a w'
       | (Threw t, w') => (Threw t, w')
       end.
(** [try { m } catch (error) { handler error }] *)
Definition try_catch {A} (m : Async A) (handler : Thrown → Async A) : Async A :=
  λ w, match m w with
       | (Returned a, w') => (Returned a, w')
       | (Threw t, w') => handler t w'
       end.

Global Instance Async_ret : MRet Async := @ret.
Global Instance Async_bind : MBind Async := λ A B k m, bind m k.

Definition Date_now : Async Z := λ w, (Returned (clock w), w).

(** [const db = await initDB(); return db.op(store, ...)]: one request on
    object store [s] of the database, open at version 1 with its five
    stores. *)
Definition request {A} (s : StoreName) (f : DB → Outcome A * DB) : Async A :=
  λ w, match fault w s with
       | Some (c, msg) => (Threw (ErrorObject c msg), w)
       | None => let '(r, d) := f (db w) in (r, set_db d w)
       end.

(** ** Array helpers *)

(** [Array.prototype.sort(cmp)]: stable, a record moves behind another only
    when [cmp] puts it strictly after. *)
Fixpoint sort_insert {A} (cmp : A → A → Z) (x : A) (l : list A) : list A :=
  match l with
  | [] => [x]
  | y :: l' => if 0 <? cmp x y then y :: sort_insert cmp x l' else x :: l
  end.
Definition js_sort {A} (cmp : A → A → Z) (l : list A) : list A :=
  foldr (sort_insert cmp) [] l.

(** [arr.slice(0, limit)]; a negative [limit] counts from the end. *)
Definition slice0 {A} (limit : Z) (l : list A) : list A :=
  if limit <? 0 then take (Z.to_nat (Z.of_nat (length l) + limit)) l
  else take (Z.to_nat limit) l.

Definition compare_Z (c : comparison) : Z :=
  match c with Lt => -1 | Eq => 0 | Gt => 1 end.

(** ** [dbHelpers] *)

Module dbHelpers.

Definition ConstraintError : Thrown :=
  ErrorObject (DOMException "ConstraintError")
              "Key already exists in the object store.".

(** [db.add('favorites', movie)]: the key is [movie.id] (keyPath [id]);
    [add] rejects when the key is taken. It resolves with the key. *)
Definition addFavorite (movie : Favorite) : Async Z :=
  request favorites_store (λ d,
    match favorites d !! id movie with
    | Some _ => (Threw ConstraintError, d)
    | None => (Returned (id movie),
               set_favorites (<[id movie := movie]> (favorites d)) d)
    end).

Definition removeFavorite (k : Z) : Async unit :=
  request favorites_store (λ d,
    (Returned tt, set_favorites (delete k (favorites d)) d)).

(** [db.getAll('favorites')]: the records in key order. *)
Definition getFavorites : Async (list Favorite) :=
  request favorites_store (λ d,
    (Returned (js_sort (λ a b, a.1 - b.1) (map_to_list (favorites d))).*2, d)).

Definition isFavorite (k : Z) : Async bool :=
  request favorites_store (λ d,
    (Returned (bool_decide (is_Some (favorites d !! k))), d)).

(** [db.put('search-history', { query, timestamp: Date.now() })] *)
Definition addToSearchHistory (q : string) : Async string :=
  now ← Date_now;
  request search_history_store (λ d,
    (Returned q,
     set_search_history (<[q := mkSearchEntry q now]> (search_history d)) d)).

(** [index('by-timestamp').getAll()]: the records by ascending
    [timestamp], those of equal timestamp by ascending primary key. *)
Definition by_timestamp (a b : string * SearchEntry) : Z :=
  if timestamp a.2 =? timestamp b.2
  then compare_Z (String.compare a.1 b.1)
  else timestamp a.2 - timestamp b.2.

Definition getSearchHistory (limit : Z) : Async (list SearchEntry) :=
  request search_history_store (λ d,
    let history := (js_sort by_timestamp (map_to_list (search_history d))).*2 in
    (Returned (slice0 limit
                 (js_sort (λ a b, timestamp b - timestamp a) history)), d)).

(** [ttlMinutes] defaults to 10 at the call site. *)
Definition cacheAPIResponse (k : string) (v : JSON) (ttlMinutes : Z)
  : Async string :=
  now ← Date_now;
  request api_cache_store (λ d,
    (Returned k,
     set_api_cache
       (<[k := mkCacheEntry k v now (ttlMinutes * 60 * 1000)]> (api_cache d)) d)).

(** The result is [null] ([JNull]) or [cached.data]. *)
Definition getCachedResponse (k : string) : Async JSON :=
  cached ← request api_cache_store (λ d, (Returned (api_cache d !! k), d));
  match cached with
  | None => ret JNull
  | Some c =>
      now ← Date_now;
      let isExpired := ttl c <? now - cache_timestamp c in
      if isExpired then
        (request api_cache_store (λ d,
           (Returned tt, set_api_cache (delete k (api_cache d)) d));;
         ret JNull)
      else ret (data c)
  end.

Definition setPreference (k : string) (v : JSON) : Async string :=
  request preferences_store (λ d,
    (Returned k, set_preferences (<[k := v]> (preferences d)) d)).

(** [None] is [undefined]. *)
Definition getPreference (k : string) : Async (option JSON) :=
  request preferences_store (λ d, (Returned (preferences d !! k), d)).

(** [db.add('analytics', ...)]: the key generator gives a fresh key, so
    the record goes to the end; the call resolves with that key. *)
Definition trackEvent (act : string) (v : JSON) : Async Z :=
  now ← Date_now;
  request analytics_store (λ d,
    (Returned (Z.of_nat (length (analytics d)) + 1),
     set_analytics (analytics d ++ [mkUsageEvent act v now]) d)).

Definition getAnalytics (limit : Z) : Async (list UsageEvent) :=
  request analytics_store (λ d,
    let events :=
      js_sort (λ a b, event_timestamp a - event_timestamp b) (analytics d) in
    (Returned (slice0 limit
                 (js_sort (λ a b, event_timestamp b - event_timestamp a) events)),
     d)).

End dbHelpers.

(** ** Builtins used by the API client *)

(** [parseInt(s)] without a radix: leading white space, an optional sign,
    an optional [0x] prefix, then the longest run of digits; [None] is
    [NaN]. (Values beyond 2^53 lose precision in JavaScript; not modelled.) *)
Definition is_space (c : ascii) : bool :=
  let n := N_of_ascii c in
  bool_decide (n = 32 ∨ (9 ≤ n ∧ n ≤ 13))%N.

Fixpoint skip_spaces (s : string) : string :=
  match s with
  | String c s' => if is_space c then skip_spaces s' else s
  | EmptyString => s
  end.

Definition digit_of (radix : N) (c : ascii) : option N :=
  let n := N_of_ascii c in
  let d := if bool_decide (48 ≤ n ∧ n ≤ 57)%N then Some (n - 48)%N
           else if bool_decide (97 ≤ n ∧ n ≤ 122)%N then Some (n - 87)%N
           else if bool_decide (65 ≤ n ∧ n ≤ 90)%N then Some (n - 55)%N
           else None in
  match d with
  | Some v => if bool_decide (v < radix)%N then Some v else None
  | None => None
  end.

Fixpoint read_digits (radix : N) (acc : option N) (s : string) : option N :=
  match s with
  | String c s' =>
      match digit_of radix c with
      | Some d => read_digits radix (Some (default 0 acc * radix + d)%N) s'
      | None => acc
      end
  | EmptyString => acc
  end.

Definition parseInt (s : string) : option Z :=
  let s := skip_spaces s in
  let '(negative, s) :=
    match s with
    | String "-" r => (true, r)
    | String "+" r => (false, r)
    | _ => (false, s)
    end in
  let '(radix, s) :=
    match s with
    | String "0" (String "x" r) | String "0" (String "X" r) => (16%N, r)
    | _ => (10%N, s)
    end in
  n ← read_digits radix None s;
  Some (if negative : bool then - Z.of_N n else Z.of_N n).

(** The application/x-www-form-urlencoded byte serializer used by
    [URLSearchParams.prototype.toString]. *)
Definition hex_digit (n : N) : ascii :=
  ascii_of_N (if (n <? 10)%N then 48 + n else 55 + n).

Definition urlencode_byte (c : ascii) : string :=
  let n := N_of_ascii c in
  if bool_decide ((48 ≤ n ∧ n ≤ 57) ∨ (65 ≤ n ∧ n ≤ 90) ∨ (97 ≤ n ∧ n ≤ 122)
                  ∨ n = 42 ∨ n = 45 ∨ n = 46 ∨ n = 95)%N
  then String c ""
  else if bool_decide (n = 32)%N then "+"
  else String "%" (String (hex_digit (n / 16)) (String (hex_digit (n mod 16)) "")).

Fixpoint urlencode (s : string) : string :=
  match s with
  | String c s' => urlencode_byte c +:+ urlencode s'
  | EmptyString => ""
  end.

(** ** Plain objects used as parameter maps ([Record<string, any>]) *)

(** The values the callers pass: strings, numbers, booleans. *)
Inductive ParamValue : Type :=
  | PString (s : string)
  | PNumber (n : Z)
  | PBoolean (b : bool).

(** [String(v)] *)
Definition to_string (v : ParamValue) : string :=
  match v with
  | PString s => s
  | PNumber n => pretty n
  | PBoolean b => if b then "true" else "false"
  end.

(** An object literal as its properties in creation order. *)
Abbreviation JsObject := (list (string * ParamValue)).

(** An array index is the canonical decimal form of an integer below
    2^32 - 1: such property names come first, in numeric order, when the
    properties of an object are enumerated. *)
Definition array_index (name : string) : option N :=
  match name with
  | EmptyString => None
  | _ =>
      match read_digits 10 None name with
      | Some n => if bool_decide (pretty n = name ∧ (n < 2 ^ 32 - 1)%N)
                  then Some n else None
      | None => None
      end
  end.

Definition index_entries (o : JsObject) : list (N * (string * ParamValue)) :=
  omap (λ p, (λ n, (n, p)) <$> array_index p.1) o.

(** [OrdinaryOwnPropertyKeys]: array indices ascending, then the other
    names in creation order. *)
Definition own_entries (o : JsObject) : list (string * ParamValue) :=
  (js_sort (λ a b, Z.of_N a.1 - Z.of_N b.1) (index_entries o)).*2
  ++ filter (λ p, array_index p.1 = None) o.

(** Writing a property: an existing one keeps its place. *)
Fixpoint define_property (k : string) (v : ParamValue) (o : JsObject) : JsObject :=
  match o with
  | [] => [(k, v)]
  | (k', v') :: o' =>
      if String.eqb k k' then (k, v) :: o' else (k', v') :: define_property k v o'
  end.

(** [{ ...target, ...source }] for an already built [target]. *)
Definition spread (target source : JsObject) : JsObject :=
  foldl (λ acc p, define_property p.1 p.2 acc) target (own_entries source).

(** [new URLSearchParams(record).toString()] *)
Definition URLSearchParams_toString (o : JsObject) : string :=
  String.concat "&"
    ((λ p, urlencode p.1 +:+ "=" +:+ urlencode (to_string p.2)) <$> own_entries o).

(** ** [class APIClient] *)

Module APIClient.

Definition this_baseURL : Async string := λ w, (Returned (baseURL w), w).
Definition this_apiKey : Async string := λ w, (Returned (apiKey w), w).

(** A header value as a condition: [null] and the empty string are falsy. *)
Definition present (h : option string) : option string :=
  match h with
  | Some s => if String.eqb s "" then None else Some s
  | None => None
  end.

Definition is_fetch (e : Effect) : bool :=
  match e with Fetch _ => true | Sleep _ => false end.

(** The number of network attempts logged so far. *)
Definition attempts (t : list Effect) : nat := length (filter is_fetch t).

Definition fetch (url : string) : Async Response :=
  λ w, match server w (attempts (trace w)) url with
       | Responded r => (Returned r, log (Fetch url) w)
       | Rejected c msg => (Threw (ErrorObject c msg), log (Fetch url) w)
       end.

(** [await new Promise(resolve => setTimeout(resolve, waitTime))]; a
    [NaN] or negative delay is a delay of 0. (The timer keeps its delay
    as a 32-bit integer; a delay outside that range wraps around and is
    not modelled: the statements keep to delays within it.) *)
Definition wait (waitTime : option Z) : Async unit :=
  λ w, let ms := match waitTime with Some n => Z.max 0 n | None => 0 end in
       (Returned tt, set_clock (clock w + ms) (log (Sleep ms) w)).

Definition parseRateLimitHeaders (response : Response) : Async unit :=
  λ w, match present (headers response !! "x-ratelimit-remaining"),
             present (headers response !! "x-ratelimit-reset") with
       | Some remaining, Some reset =>
           (Returned tt,
            set_rateLimitInfo
              (Some {| remaining := parseInt remaining;
                       resetTime := (λ n, n * 1000) <$> parseInt reset;
                       isNearLimit := match parseInt remaining with
                                      | Some n => n <? 10
                                      | None => false
                                      end |}) w)
       | _, _ => (Returned tt, w)
       end.

Definition network_message (msg : string) : bool :=
  String.eqb msg "Failed to fetch" || String.eqb msg "Network request failed".

Definition isNetworkError (error : Thrown) : bool :=
  match error with
  | ErrorObject TypeError _ => true
  | ErrorObject _ msg => network_message msg
  | APIErrorObject e =>
      match api_message e with
      | JStr msg => network_message msg
      | _ => false
      end
  end.

(** [error instanceof Error && error.name === 'AbortError'] *)
Definition isAbortError (error : Thrown) : bool :=
  match error with
  | ErrorObject c _ => String.eqb (error_name c) "AbortError"
  | APIErrorObject _ => false
  end.

(** [Math.pow(2, 3 - retries) * 1000] *)
Definition backoff (retries : nat) : Z := 2 ^ (3 - Z.of_nat retries) * 1000.

(** How one activation of [fetchWithRetry] leaves its [try] statement:
    with the response, or with
    [return this.fetchWithRetry(url, options, retries - 1)], whose promise
    is returned without [await], outside the reach of the [catch]. *)
Inductive Step : Type :=
  | Return (response : Response)
  | Recur.

Definition attempt (url : string) (retries : nat) : Async Step :=
  try_catch
    (response ← fetch url;
     parseRateLimitHeaders response;;
     let server_error : Async Step :=
       if (500 <=? resp_status response) && (0 <? retries)%nat then
         wait (Some (backoff retries));; mret Recur
       else mret (Return response) in
     if resp_status response =? 429 then
       let retryAfter := headers response !! "retry-after" in
       let waitTime := match present retryAfter with
                       | Some s => (λ n, n * 1000) <$> parseInt s
                       | None => Some 1000
                       end in
       if (0 <? retries)%nat then wait waitTime;; mret Recur
       else server_error
     else server_error)
    (λ error,
       if isAbortError error then throw (ErrorObject PlainError "Request timeout")
       else if (0 <? retries)%nat && isNetworkError error then
         wait (Some (backoff retries));; mret Recur
       else throw error).

(** [options] is the empty object at the one call site and is left out;
    [retries] is 3 there and only decreases. [Recur] with no retry left
    does not occur ([attempt_0_returns]). *)
Fixpoint fetchWithRetry (url : string) (retries : nat) : Async Response :=
  step ← attempt url retries;
  match step, retries with
  | Return response, _ => mret response
  | Recur, S retries' => fetchWithRetry url retries'
  | Recur, O => throw (ErrorObject PlainError "retry budget underflow")
  end.

Definition response_ok (r : Response) : bool :=
  (200 <=? resp_status r) && (resp_status r <=? 299).

(** [response.json()]; the text of the [SyntaxError] depends on the engine. *)
Definition response_json (r : Response) : Async JSON :=
  match body r with
  | Some v => mret v
  | None => throw (ErrorObject SyntaxError "Unexpected end of JSON input")
  end.

(** [errorData.status_message]: [undefined] ([None]) on a value without
    the property, a [TypeError] on [null]. *)
Definition status_message (errorData : JSON) : Async (option JSON) :=
  match errorData with
  | JNull => throw (ErrorObject TypeError
               "Cannot read properties of null (reading 'status_message')")
  | JObj fields => mret (assoc "status_message" fields)
  | _ => mret None
  end.

(** [a || b] *)
Definition or_else (a : option JSON) (b : JSON) : JSON :=
  match a with
  | Some v => if truthy v then v else b
  | None => b
  end.

Definition urlParams (key : string) (params : JsObject) : string :=
  URLSearchParams_toString (spread [("api_key", PString key)] params).

Definition cacheKey (key endpoint : string) (params : JsObject) : string :=
  "GET:" +:+ endpoint +:+ ":" +:+ urlParams key params.

Definition networkError : Thrown :=
  APIErrorObject {| api_message := JStr "Network error. Please check your connection.";
                    api_status := None;
                    api_isNetworkError := true |}.

Definition get (endpoint : string) (params : JsObject) : Async JSON :=
  key ← this_apiKey;
  base ← this_baseURL;
  let url := base +:+ endpoint +:+ "?" +:+ urlParams key params in
  let cacheKey := cacheKey key endpoint params in
  cached ← dbHelpers.getCachedResponse cacheKey;
  if truthy cached then mret cached
  else
    try_catch
      (response ← fetchWithRetry url 3;
       if negb (response_ok response) then
         errorData ← try_catch (response_json response) (λ _, mret (JObj []));
         msg ← status_message errorData;
         throw (APIErrorObject
                  {| api_message :=
                       or_else msg (JStr ("HTTP " +:+ pretty (resp_status response)));
                     api_status := Some (resp_status response);
                     api_isNetworkError := false |})
       else
         data ← response_json response;
         dbHelpers.cacheAPIResponse cacheKey data 10;;
         dbHelpers.trackEvent "api_call"
           (JObj [("endpoint", JStr endpoint);
                  ("status", JNum (resp_status response));
                  ("cached", JBool false)]);;
         mret data)
      (λ error,
         dbHelpers.trackEvent "api_error"
           (JObj [("endpoint", JStr endpoint);
                  ("error", JStr match error with
                                 | ErrorObject _ msg => msg
                                 | APIErrorObject _ => "Unknown error"
                                 end)]);;
         if isNetworkError error then throw networkError else throw error).

Definition getRateLimitInfo : Async (option RateLimitInfo) :=
  λ w, (Returned (rateLimitInfo w), w).

Definition setApiKey (key : string) : Async unit :=
  λ w, (Returned tt,
        mkWorld (db w) (fault w) (clock w) (server w) (trace w)
                (baseURL w) key (rateLimitInfo w) (localStorage w) (toasts w)).

End APIClient.

(** ** [tmdbAPI]: the adapter over the one client instance *)

Module tmdbAPI.

Definition searchMovies (q : string) (page : Z) : Async JSON :=
  APIClient.get "/search/movie" [("query", PString q); ("page", PNumber page)].

Definition getPopularMovies (page : Z) : Async JSON :=
  APIClient.get "/movie/popular" [("page", PNumber page)].

Definition getMovieDetails (movieId : Z) : Async JSON :=
  APIClient.get ("/movie/" +:+ pretty movieId) [].

(** [path] is [None] for [null]; the empty string is falsy as well. *)
Definition getImageUrl (path : option string) (size : string) : string :=
  match APIClient.present path with
  | None => "/placeholder.svg"
  | Some p => "https://image.tmdb.org/t/p/" +:+ size +:+ p
  end.

End tmdbAPI.

(** ** Callers of [dbHelpers] *)

Definition toast (t : Toast) : Async unit := λ w, (Returned tt, show_toast t w).

(** [await Promise.all(ps)] for promises started in list order: every one
    runs to its end, and the first rejection, if any, is the result. *)
Fixpoint Promise_all {A} (ps : list (Async A)) : Async (list A) :=
  match ps with
  | [] => ret []
  | p :: ps' =>
      λ w, let '(r, w1) := p w in
           let '(rs, w2) := Promise_all ps' w1 in
           (match r, rs with
            | Returned a, Returned l => Returned (a :: l)
            | Threw t, _ => Threw t
            | Returned _, Threw t => Threw t
            end, w2)
  end.

Module Settings.

(** [clearAllData] of the settings page. The three reads of the first
    [Promise.all] change nothing, so they are taken in order. The page
    reload scheduled at the end is outside the model. *)
Definition clearAllData : Async unit :=
  try_catch
    (favs ← dbHelpers.getFavorites;
     searchHistory ← dbHelpers.getSearchHistory 1000;
     analytics ← dbHelpers.getAnalytics 1000;
     Promise_all ((λ fav, dbHelpers.removeFavorite (id fav)) <$> favs);;
     (λ w, (Returned tt, set_localStorage ∅ w));;
     toast {| toast_title := "Data Cleared";
              toast_description := "All app data has been cleared successfully";
              destructive := false |})
    (λ error,
       toast {| toast_title := "Error";
                toast_description := "Failed to clear app data. Please try again.";
                destructive := true |}).

End Settings.

(** The fields of [TMDBMovie] that the hook reads. *)
Record TMDBMovie : Type := mkTMDBMovie {
  movie_id : Z;
  movie_title : string;
  movie_overview : string;
  movie_poster_path : option string;
  movie_release_date : string;
  movie_vote_average : Z;
}.

Module useFavorites.

(** [addFavorite] of the hook; the React state [favorites] is passed in
    and the new state is the result. *)
Definition addFavorite (movie : TMDBMovie) (prev : list Favorite)
  : Async (list Favorite) :=
  try_catch
    (now ← Date_now;
     let favoriteMovie :=
       {| id := movie_id movie;
          title := movie_title movie;
          overview := movie_overview movie;
          poster_path := default "" (APIClient.present (movie_poster_path movie));
          release_date := movie_release_date movie;
          vote_average := movie_vote_average movie;
          savedAt := now |} in
     dbHelpers.addFavorite favoriteMovie;;
     let next := prev ++ [favoriteMovie] in
     try_catch
       (dbHelpers.trackEvent "favorite_added"
          (JObj [("movieId", JNum (movie_id movie));
                 ("title", JStr (movie_title movie))]);;
        toast {| toast_title := "Added to Favorites";
                 toast_description :=
                   movie_title movie +:+ " has been added to your favorites";
                 destructive := false |};;
        mret next)
       (λ error,
          toast {| toast_title := "Error";
                   toast_description := "Failed to add movie to favorites";
                   destructive := true |};;
          mret next))
    (λ error,
       toast {| toast_title := "Error";
                toast_description := "Failed to add movie to favorites";
                destructive := true |};;
       mret prev).

(** [loadFavorites], also handed out as [refreshFavorites]. [isLoading]
    is set at the start and cleared in the [finally] block, so it is false
    after every call. *)
Definition loadFavorites (prev : list Favorite) : Async (list Favorite) :=
  try_catch
    (favs ← dbHelpers.getFavorites;
     mret favs)
    (λ error,
       toast {| toast_title := "Error";
                toast_description := "Failed to load favorites from storage";
                destructive := true |};;
       mret prev).

(** A title that may be [undefined], inside a template literal. *)
Definition title_text (movieTitle : option string) : string :=
  default "undefined" movieTitle.

(** [removeFavorite] of the hook. [favorites] is the state that the
    closure saw when the component rendered, [prev] the state when the
    update is applied. A [title] that is [undefined] has no counterpart in
    [JSON]: the event is recorded without the property, which reads back
    as [undefined] as well. *)
Definition removeFavorite (movieId : Z) (favorites prev : list Favorite)
  : Async (list Favorite) :=
  try_catch
    (dbHelpers.removeFavorite movieId;;
     let movieTitle := title <$> List.find (λ f, id f =? movieId) favorites in
     let next := filter (λ fav, id fav ≠ movieId) prev in
     try_catch
       (dbHelpers.trackEvent "favorite_removed"
          (JObj (("movieId", JNum movieId)
                 :: match movieTitle with
                    | Some t => [("title", JStr t)]
                    | None => []
                    end));;
        toast {| toast_title := "Removed from Favorites";
                 toast_description :=
                   title_text movieTitle +:+ " has been removed from your favorites";
                 destructive := false |};;
        mret next)
       (λ error,
          toast {| toast_title := "Error";
                   toast_description := "Failed to remove movie from favorites";
                   destructive := true |};;
          mret next))
    (λ error,
       toast {| toast_title := "Error";
                toast_description := "Failed to remove movie from favorites";
                destructive := true |};;
       mret prev).

Definition isFavorite (movieId : Z) (favorites : list Favorite) : bool :=
  existsb (λ fav, id fav =? movieId) favorites.

Definition toggleFavorite (movie : TMDBMovie) (favorites prev : list Favorite)
  : Async (list Favorite) :=
  if isFavorite (movie_id movie) favorites
  then removeFavorite (movie_id movie) favorites prev
  else addFavorite movie prev.

End useFavorites.

(** ** The favorites page *)

Module Favorites.

(** [handleClearAll]. [favorites] is the state of the hook as the page
    rendered it and the result is that state afterwards; [refreshFavorites]
    is the hook's [loadFavorites]. *)
Definition handleClearAll (favorites : list Favorite) : Async (list Favorite) :=
  if (length favorites =? 0)%nat then mret favorites
  else
    try_catch
      (Promise_all ((λ fav, dbHelpers.removeFavorite (id fav)) <$> favorites);;
       next ← useFavorites.loadFavorites favorites;
       try_catch
         (dbHelpers.trackEvent "favorites_cleared"
            (JObj [("count", JNum (Z.of_nat (length favorites)))]);;
          toast {| toast_title := "Favorites Cleared";
                   toast_description :=
                     "Removed " +:+ pretty (length favorites)
                     +:+ " movies from your favorites";
                   destructive := false |};;
          mret next)
         (λ error,
            toast {| toast_title := "Error";
                     toast_description := "Failed to clear favorites. Please try again.";
                     destructive := true |};;
            mret next))
      (λ error,
         toast {| toast_title := "Error";
                  toast_description := "Failed to clear favorites. Please try again.";
                  destructive := true |};;
         mret favorites).

End Favorites.

(** ** Objects holding JSON values *)

(** The counterparts of [own_entries], [define_property] and [spread] for
    objects whose properties hold any JSON value. *)
Definition json_own_entries (o : list (string * JSON)) : list (string * JSON) :=
  (js_sort (λ a b, Z.of_N a.1 - Z.of_N b.1)
           (omap (λ p, (λ n, (n, p)) <$> array_index p.1) o)).*2
  ++ filter (λ p, array_index p.1 = None) o.

Fixpoint json_define_property (k : string) (v : JSON) (o : list (string * JSON))
  : list (string * JSON) :=
  match o with
  | [] => [(k, v)]
  | (k', v') :: o' =>
      if String.eqb k k' then (k, v) :: o' else (k', v') :: json_define_property k v o'
  end.

(** The own enumerable properties that [{ ...source }] copies: those of
    an object, the elements of an array, the characters of a string (its
    bytes here, so ASCII text only), none of a number, boolean or [null]. *)
Definition spread_entries (source : JSON) : list (string * JSON) :=
  match source with
  | JObj fields => json_own_entries fields
  | JArr items => imap (λ i v, (pretty i, v)) items
  | JStr s => imap (λ i c, (pretty i, JStr (String c ""))) (Strings.String.list_ascii_of_string s)
  | JNull | JBool _ | JNum _ => []
  end.

Definition json_spread (target : list (string * JSON)) (source : JSON)
  : list (string * JSON) :=
  foldl (λ acc p, json_define_property p.1 p.2 acc) target (spread_entries source).

(** [Object.keys(o)] *)
Definition Object_keys (o : list (string * JSON)) : list string :=
  (json_own_entries o).*1.

(** ** The preferences context *)

Module PreferencesContext.

Definition defaultPreferences : list (string * JSON) :=
  [("theme", JStr "dark"); ("pageSize", JNum 20); ("language", JStr "en-US");
   ("offlineMode", JBool false)].

(** The fallback of [loadPreferences]: the theme kept in [localStorage],
    written over the current state. *)
Definition storedTheme_fallback (prev : list (string * JSON))
  : Async (list (string * JSON)) :=
  λ w, match APIClient.present (localStorage w !! "theme") with
       | Some storedTheme =>
           (Returned (json_define_property "theme" (JStr storedTheme)
                        (json_spread [] (JObj prev))), w)
       | None => (Returned prev, w)
       end.

(** [loadPreferences]; the state [preferences] is passed in and the new
    state is the result. [isLoading] is false after every call. *)
Definition loadPreferences (prev : list (string * JSON))
  : Async (list (string * JSON)) :=
  try_catch
    (stored ← dbHelpers.getPreference "user-preferences";
     match stored with
     | Some v =>
         if truthy v
         then mret (json_spread (json_spread [] (JObj defaultPreferences)) v)
         else storedTheme_fallback prev
     | None => storedTheme_fallback prev
     end)
    (λ error, storedTheme_fallback prev).

(** [updatePreferences]: the new state is set at once and the old one is
    put back when saving or tracking fails. *)
Definition updatePreferences (updates preferences : list (string * JSON))
  : Async (list (string * JSON)) :=
  let newPreferences := json_spread (json_spread [] (JObj preferences)) (JObj updates) in
  try_catch
    (dbHelpers.setPreference "user-preferences" (JObj newPreferences);;
     dbHelpers.trackEvent "preferences_updated"
       (JObj [("changes", JArr (JStr <$> Object_keys updates));
              ("values", JObj updates)]);;
     mret newPreferences)
    (λ error, mret preferences).

End PreferencesContext.

(** ** The search bar *)

(** [String.prototype.trim] on UTF-8 text: the white space and line
    terminators of ECMAScript are the bytes 9 to 13 and 32, U+00A0, U+1680,
    U+2000 to U+200A, U+2028, U+2029, U+202F, U+205F, U+3000 and U+FEFF. *)
Definition white_space2 (c1 c2 : ascii) : bool :=
  bool_decide (N_of_ascii c1 = 194 ∧ N_of_ascii c2 = 160)%N.

Definition white_space3 (c1 c2 c3 : ascii) : bool :=
  let a := N_of_ascii c1 in
  let b := N_of_ascii c2 in
  let c := N_of_ascii c3 in
  bool_decide ((a = 225 ∧ b = 154 ∧ c = 128)
               ∨ (a = 226 ∧ b = 128 ∧ ((128 ≤ c ∧ c ≤ 138) ∨ c = 168 ∨ c = 169 ∨ c = 175))
               ∨ (a = 226 ∧ b = 129 ∧ c = 159)
               ∨ (a = 227 ∧ b = 128 ∧ c = 128)
               ∨ (a = 239 ∧ b = 187 ∧ c = 191))%N.

(** Dropping the white space at the front, for white space given by its
    byte sequences of length 1, 2 and 3. *)
Fixpoint strip (w2 : ascii → ascii → bool) (w3 : ascii → ascii → ascii → bool)
    (s : string) : string :=
  match s with
  | String c1 s1 =>
      if is_space c1 then strip w2 w3 s1
      else match s1 with
           | String c2 s2 =>
               if w2 c1 c2 then strip w2 w3 s2
               else match s2 with
                    | String c3 s3 => if w3 c1 c2 c3 then strip w2 w3 s3 else s
                    | EmptyString => s
                    end
           | EmptyString => s
           end
  | EmptyString => s
  end.

Definition trimStart (s : string) : string := strip white_space2 white_space3 s.

Definition trimEnd (s : string) : string :=
  String.rev (strip (λ c2 c1, white_space2 c1 c2)
                    (λ c3 c2 c1, white_space3 c1 c2 c3) (String.rev s)).

Definition trim (s : string) : string := trimEnd (trimStart s).

(** The state of the search bar that its handlers write. *)
Record SearchBarState : Type := mkSearchBarState {
  searchHistory : list string;
  showSuggestions : bool;
}.

Module SearchBar.

Definition loadSearchHistory (prev : SearchBarState) : Async SearchBarState :=
  try_catch
    (history ← dbHelpers.getSearchHistory 5;
     mret {| searchHistory := query <$> history;
             showSuggestions := showSuggestions prev |})
    (λ error, mret prev).

(** [handleSearch]: the result is the argument that [onSearch] was called
    with, if it was called, and the state afterwards; [onSearch], a
    callback of the page, is taken to return. *)
Definition handleSearch (q : string) (prev : SearchBarState)
  : Async (option string * SearchBarState) :=
  if String.eqb (trim q) "" then mret (None, prev)
  else
    try_catch
      (dbHelpers.addToSearchHistory (trim q);;
       loaded ← loadSearchHistory prev;
       try_catch
         (dbHelpers.trackEvent "movie_search" (JObj [("query", JStr (trim q))]);;
          mret (Some (trim q),
                {| searchHistory := searchHistory loaded; showSuggestions := false |}))
         (λ error, mret (None, loaded)))
      (λ error, mret (None, prev)).

End SearchBar.

(** ** The movie detail modal *)

Record ModalState : Type := mkModalState {
  movieDetails : option JSON;
  modal_isLoading : bool;
  modal_error : option string;
}.

Module MovieDetailModal.

(** [err instanceof Error ? err.message : 'Failed to load movie details']:
    the [APIError] objects thrown by [get] are object literals, not
    [Error] instances. *)
Definition error_text (err : Thrown) : string :=
  match err with
  | ErrorObject _ msg => msg
  | APIErrorObject _ => "Failed to load movie details"
  end.

Definition loadMovieDetails (movieId : Z) (prev : ModalState) : Async ModalState :=
  try_catch
    (details ← tmdbAPI.getMovieDetails movieId;
     mret {| movieDetails := Some details;
             modal_isLoading := false;
             modal_error := None |})
    (λ err,
       toast {| toast_title := "Error";
                toast_description := "Failed to load movie details. Please try again.";
                destructive := true |};;
       mret {| movieDetails := movieDetails prev;
               modal_isLoading := false;
               modal_error := Some (error_text err) |}).

End MovieDetailModal.

(** ** Running operations *)

(** The world an operation leaves behind, whether it returned or threw. *)
Definition after {A} (m : Async A) (w : World) : World := (m w).2.

(** An operation issued when the clock reads [t]. *)
Definition at_time {A} (t : Z) (m : Async A) : Async A := λ w, m (set_clock t w).

(** ** Sessions and servers used in the statements *)

(** A session with a healthy store, a silent page and a given database,
    clock and server. *)
Definition session (d : DB) (now : Z) (srv : nat → string → FetchOutcome) : World :=
  mkWorld d (λ _, None) now srv [] "https://api.themoviedb.org/3" "demo-key"
          None ∅ [].

(** The same with the faults [f] in the store. *)
Definition session_with (f : StoreName → option (ErrorClass * string)) (d : DB)
    (now : Z) (srv : nat → string → FetchOutcome) : World :=
  mkWorld d f now srv [] "https://api.themoviedb.org/3" "demo-key" None ∅ [].

(** A store whose analytics collection rejects writes. *)
Definition analytics_full : StoreName → option (ErrorClass * string) :=
  λ s, match s with
       | analytics_store =>
           Some (DOMException "QuotaExceededError", "The quota has been exceeded.")
       | _ => None
       end.

(** The transport is down: every [fetch] rejects. *)
Definition offline : nat → string → FetchOutcome :=
  λ _ _, Rejected TypeError "Failed to fetch".

(** Every [fetch] is answered 503, with the body [r]. *)
Definition unavailable (r : option JSON) : nat → string → FetchOutcome :=
  λ _ _, Responded (mkResponse 503 ∅ r).

(** Every [fetch] is answered with status [st] and the JSON body [v]. *)
Definition serving (st : Z) (v : JSON) : nat → string → FetchOutcome :=
  λ _ _, Responded (mkResponse st ∅ (Some v)).

(** A server whose n-th answer is the number n. *)
Definition counting : nat → string → FetchOutcome :=
  λ n _, Responded (mkResponse 200 ∅ (Some (JNum (Z.of_nat n)))).

(** ** Favorites and search history *)

(** A user action on the favorites collection. *)
Inductive FavoriteOp : Type :=
  | AddFavorite (movie : Favorite)
  | RemoveFavorite (k : Z).

Definition run_op (op : FavoriteOp) (w : World) : World :=
  match op with
  | AddFavorite movie => after (dbHelpers.addFavorite movie) w
  | RemoveFavorite k => after (dbHelpers.removeFavorite k) w
  end.

Definition run_ops (ops : list FavoriteOp) (w : World) : World :=
  foldl (λ w op, run_op op w) w ops.

(** In-line keys: every favorite is stored under its own [id]. *)
Definition favorites_keyed (d : DB) : Prop :=
  ∀ k f, favorites d !! k = Some f → id f = k.

(** How many of the listed favorites carry the id [k]. *)
Definition count_id (k : Z) (l : list Favorite) : nat :=
  length (filter (λ f, id f = k) l).

(** The session of the search-history scenario. *)
Definition dune_arrival_dune (t1 t2 t3 : Z) : Async (list SearchEntry) :=
  at_time t1 (dbHelpers.addToSearchHistory "dune");;
  at_time t2 (dbHelpers.addToSearchHistory "arrival");;
  at_time t3 (dbHelpers.addToSearchHistory "dune");;
  dbHelpers.getSearchHistory 2.

(** ** [get] in parts *)

(** The url and the cache key that [get] builds in a world. *)
Definition get_url (w : World) (endpoint : string) (params : JsObject) : string :=
  baseURL w +:+ endpoint +:+ "?" +:+ APIClient.urlParams (apiKey w) params.

Definition get_cacheKey (w : World) (endpoint : string) (params : JsObject) : string :=
  APIClient.cacheKey (apiKey w) endpoint params.

(** The cache lookup of [get] finds nothing to return: it ends in [w1]
    with a falsy value. *)
Definition cache_miss (w : World) (k : string) (w1 : World) : Prop :=
  ∃ v, dbHelpers.getCachedResponse k w = (Returned v, w1) ∧ truthy v = false.

(** The records that [get] hands to [trackEvent]. *)
Definition api_call_data (endpoint : string) (status : Z) : JSON :=
  JObj [("endpoint", JStr endpoint); ("status", JNum status); ("cached", JBool false)].

Definition api_error_data (endpoint : string) (error : Thrown) : JSON :=
  JObj [("endpoint", JStr endpoint);
        ("error", JStr match error with
                       | ErrorObject _ msg => msg
                       | APIErrorObject _ => "Unknown error"
                       end)].

(** The [catch] block of [get], and the part of its [try] block that
    follows the arrival of the response, under names of their own
    ([get_unfold] relates them to [get]). *)
Definition get_catch (endpoint : string) (error : Thrown) : Async JSON :=
  dbHelpers.trackEvent "api_error" (api_error_data endpoint error);;
  if APIClient.isNetworkError error then throw APIClient.networkError
  else throw error.

Definition get_respond (cacheKey endpoint : string) (response : Response) : Async JSON :=
  if negb (APIClient.response_ok response) then
    errorData ← try_catch (APIClient.response_json response) (λ _, mret (JObj []));
    msg ← APIClient.status_message errorData;
    throw (APIErrorObject
             {| api_message :=
                  APIClient.or_else msg
                    (JStr ("HTTP " +:+ pretty (resp_status response)));
                api_status := Some (resp_status response);
                api_isNetworkError := false |})
  else
    data ← APIClient.response_json response;
    dbHelpers.cacheAPIResponse cacheKey data 10;;
    dbHelpers.trackEvent "api_call" (api_call_data endpoint (resp_status response));;
    mret data.

(** The usage event appended by a call that went to the network. *)
Definition recorded (w w' : World) (ev : UsageEvent) : Prop :=
  analytics (db w') = analytics (db w) ++ [ev].

(** What the retry pipeline leaves alone: it writes the log, the clock and
    the rate-limit snapshot only. *)
Definition same_store (w w' : World) : Prop :=
  db w' = db w ∧ fault w' = fault w ∧ server w' = server w
  ∧ baseURL w' = baseURL w ∧ apiKey w' = apiKey w
  ∧ localStorage w' = localStorage w ∧ toasts w' = toasts w.

(** ** The retry budget *)

(** A server that answers every request with status 503. *)
Definition always_503 (srv : nat → string → FetchOutcome) : Prop :=
  ∀ n url, ∃ r, srv n url = Responded r ∧ resp_status r = 503.

(** The fetches and waits of a request that is retried until the budget
    [retries] is used up. *)
Fixpoint retry_schedule (url : string) (retries : nat) : list Effect :=
  match retries with
  | O => [Fetch url]
  | S k => Fetch url :: Sleep (APIClient.backoff retries) :: retry_schedule url k
  end.

(** The body of an error response from which [get] builds an [APIError]
    that it then rethrows as it is: reading [status_message] does not
    throw, and the message is not one of the two texts of
    [isNetworkError]. *)
Definition plain_error_body (b : option JSON) : Prop :=
  b ≠ Some JNull
  ∧ ∀ fields msg, b = Some (JObj fields) →
      assoc "status_message" fields = Some (JStr msg) →
      APIClient.network_message msg = false.

(** The message of the [APIError] built from an error response. *)
Definition error_message (r : Response) : JSON :=
  APIClient.or_else
    match body r with
    | Some (JObj fields) => assoc "status_message" fields
    | _ => None
    end
    (JStr ("HTTP " +:+ pretty (resp_status r))).

(** ** Other servers and schedules *)

(** A server that answers every request with status 429 and the
    [Retry-After] header [hdr] ([None]: no such header). *)
Definition always_429 (hdr : option string) (srv : nat → string → FetchOutcome) : Prop :=
  ∀ n url, ∃ r, srv n url = Responded r ∧ resp_status r = 429
                ∧ headers r !! "retry-after" = hdr.

(** The delay, in milliseconds, that a 429 with that header asks for. *)
Definition retry_after_ms (hdr : option string) : Z :=
  match APIClient.present hdr with
  | Some s => match parseInt s with
              | Some n => Z.max 0 (n * 1000)
              | None => 0
              end
  | None => 1000
  end.

Fixpoint rate_limited_schedule (url : string) (ms : Z) (retries : nat) : list Effect :=
  match retries with
  | O => [Fetch url]
  | S k => Fetch url :: Sleep ms :: rate_limited_schedule url ms k
  end.

(** A transport that fails every request with an error that
    [isNetworkError] accepts and that is not the abort of the timer. *)
Definition always_failing (srv : nat → string → FetchOutcome) : Prop :=
  ∀ n url, ∃ c msg, srv n url = Rejected c msg
                    ∧ APIClient.isAbortError (ErrorObject c msg) = false
                    ∧ APIClient.isNetworkError (ErrorObject c msg) = true.

(** The fetches and waits of a request whose first [k] answers are server
    errors and whose next answer is final. *)
Fixpoint recovery_schedule (url : string) (retries k : nat) : list Effect :=
  match k, retries with
  | S k', S retries' =>
      Fetch url :: Sleep (APIClient.backoff retries) :: recovery_schedule url retries' k'
  | _, _ => [Fetch url]
  end.

(** The snapshot that [parseRateLimitHeaders] takes from two header values. *)
Definition rate_limit_snapshot (remaining reset : string) : RateLimitInfo :=
  {| remaining := parseInt remaining;
     resetTime := (λ n, n * 1000) <$> parseInt reset;
     isNearLimit := match parseInt remaining with
                    | Some n => n <? 10
                    | None => false
                    end |}.

(** ** Query strings *)

(** One [name=value] item of the serialized query string. *)
Definition encode_pair (p : string * ParamValue) : string :=
  urlencode p.1 +:+ "=" +:+ urlencode (to_string p.2).

(** A parameter map as the callers write them: distinct names, none of
    them an array index, none of them [api_key]. *)
Definition ordinary (params : JsObject) : Prop :=
  NoDup params.*1
  ∧ Forall (λ p, array_index p.1 = None ∧ p.1 ≠ "api_key") params.

(** A parameter as the query string shows it: its name and [String(value)]. *)
Definition stringified (p : string * ParamValue) : string * string :=
  (p.1, to_string p.2).

(** Reading a query string back: what follows an encoded name or value
    (nothing, or a separator), the first encoded byte of a string, and the
    items after the first one. *)
Definition is_tail (t : string) : bool :=
  match t with
  | EmptyString => true
  | String c _ => bool_decide (c = "&"%char ∨ c = "="%char)
  end.

Definition hex_value (c : ascii) : N :=
  let n := N_of_ascii c in if (n <? 58)%N then (n - 48)%N else (n - 55)%N.

Definition decode_head (s : string) : option (ascii * string) :=
  match s with
  | String "+" r => Some (" "%char, r)
  | String "%" (String h (String l r)) =>
      Some (ascii_of_N (16 * hex_value h + hex_value l), r)
  | String c r => Some (c, r)
  | EmptyString => None
  end.

Definition query_rest (items : list string) : string :=
  match items with
  | [] => ""
  | _ => String "&" (String.concat "&" items)
  end.

(** ** The requests of [tmdbAPI] *)

Inductive Call : Type :=
  | SearchMovies (q : string) (page : Z)
  | GetPopularMovies (page : Z)
  | GetMovieDetails (movieId : Z).

Definition run_call (c : Call) : Async JSON :=
  match c with
  | SearchMovies q page => tmdbAPI.searchMovies q page
  | GetPopularMovies page => tmdbAPI.getPopularMovies page
  | GetMovieDetails movieId => tmdbAPI.getMovieDetails movieId
  end.

(** The endpoint and the parameters that a request hands to [get]. *)
Definition call_endpoint (c : Call) : string :=
  match c with
  | SearchMovies _ _ => "/search/movie"
  | GetPopularMovies _ => "/movie/popular"
  | GetMovieDetails movieId => "/movie/" +:+ pretty movieId
  end.

Definition call_params (c : Call) : JsObject :=
  match c with
  | SearchMovies q page => [("query", PString q); ("page", PNumber page)]
  | GetPopularMovies page => [("page", PNumber page)]
  | GetMovieDetails _ => []
  end.

(** A string that starts like a decimal numeral. *)
Definition numeral_head (s : string) : bool :=
  match s with
  | String c _ =>
      let n := N_of_ascii c in bool_decide ((48 ≤ n ∧ n ≤ 57) ∨ n = 45)%N
  | EmptyString => false
  end.

(** ** The state of the favorites hook *)

(** What a component can ask of the hook. *)
Inductive HookAction : Type :=
  | Load
  | Add (movie : TMDBMovie)
  | Remove (movieId : Z)
  | Toggle (movie : TMDBMovie).

(** One action on the hook whose state is [state], issued after the
    component has rendered that state. *)
Definition run_action (a : HookAction) (state : list Favorite)
  : Async (list Favorite) :=
  match a with
  | Load => useFavorites.loadFavorites state
  | Add movie => useFavorites.addFavorite movie state
  | Remove movieId => useFavorites.removeFavorite movieId state state
  | Toggle movie => useFavorites.toggleFavorite movie state state
  end.

Fixpoint run_actions (actions : list HookAction) (state : list Favorite)
  : Async (list Favorite) :=
  match actions with
  | [] => mret state
  | a :: rest => state' ← run_action a state; run_actions rest state'
  end.

(** The list shown by the hook holds exactly the stored favorites. *)
Definition in_sync (state : list Favorite) (d : DB) : Prop :=
  state ≡ₚ (map_to_list (favorites d)).*2.

(** The favorite that the hook builds from a movie at time [now]. *)
Definition favorite_of (movie : TMDBMovie) (now : Z) : Favorite :=
  {| id := movie_id movie;
     title := movie_title movie;
     overview := movie_overview movie;
     poster_path := default "" (APIClient.present (movie_poster_path movie));
     release_date := movie_release_date movie;
     vote_average := movie_vote_average movie;
     savedAt := now |}.

(** The error toasts of the hooks and pages. *)
Definition error_toast (text : string) : Toast :=
  {| toast_title := "Error"; toast_description := text; destructive := true |}.

(** ** Settings objects *)

(** An object with exactly the four settings, in the order of
    [defaultPreferences]. *)
Definition settings_object (o : list (string * JSON)) : Prop :=
  o.*1 = PreferencesContext.defaultPreferences.*1.

(** An update that writes settings only, each at most once. *)
Definition settings_update (updates : list (string * JSON)) : Prop :=
  NoDup updates.*1
  ∧ Forall (λ p, p.1 ∈ PreferencesContext.defaultPreferences.*1) updates.

(** [{ ...preferences, ...updates }] for the state [current]. *)
Definition merged (current updates : list (string * JSON)) : list (string * JSON) :=
  json_spread (json_spread [] (JObj current)) (JObj updates).

(** ** Sample data *)

Definition inception : Favorite :=
  mkFavorite 27205 "Inception" "A thief who steals corporate secrets."
             "/inception.jpg" "2010-07-15" 8 1000.

Definition inception_again : Favorite :=
  mkFavorite 27205 "Inception" "A thief who steals corporate secrets."
             "/inception.jpg" "2010-07-15" 8 2000.

Definition arrival : Favorite :=
  mkFavorite 329865 "Arrival" "A linguist works with the military."
             "/arrival.jpg" "2016-11-10" 7 1500.

Definition popular_page : JSON :=
  JObj [("page", JNum 1); ("results", JArr []); ("total_pages", JNum 1);
        ("total_results", JNum 0)].

(** A database after some use of the application. *)
Definition used_db : DB :=
  mkDB {[ 27205 := inception; 329865 := arrival ]}
       {[ "dune" := mkSearchEntry "dune" 1200 ]}
       {[ "GET:/movie/popular:api_key=demo-key&page=1" :=
            mkCacheEntry "GET:/movie/popular:api_key=demo-key&page=1"
                         popular_page 1100 600000 ]}
       {[ "user-preferences" := JObj [("theme", JStr "light")] ]}
       [mkUsageEvent "page_view" (JObj [("page", JStr "home")]) 1100].

(** The url and the cache key of [get('/movie/popular', { page: 1 })]. *)
Definition popular_url : string :=
  "https://api.themoviedb.org/3/movie/popular?api_key=demo-key&page=1".

Definition popular_key : string := "GET:/movie/popular:api_key=demo-key&page=1".

(** * Properties *)

(** ** Basic facts about worlds, the monad and sorting *)

Lemma set_db_same (w : World) : set_db (db w) w = w.
Proof. by destruct w. Qed.

Lemma set_favorites_same (d : DB) : set_favorites (favorites d) d = d.
Proof. by destruct d. Qed.

Lemma request_ok {A} (s : StoreName) (f : DB → Outcome A * DB) (w : World) :
  fault w s = None → request s f w = ((f (db w)).1, set_db (f (db w)).2 w).
Proof. unfold request. intros ->. by destruct (f (db w)). Qed.

Lemma request_fault {A} (s : StoreName) (f : DB → Outcome A * DB) (w : World) c msg :
  fault w s = Some (c, msg) → request s f w = (Threw (ErrorObject c msg), w).
Proof. unfold request. by intros ->. Qed.

Lemma sort_insert_perm {A} (cmp : A → A → Z) (x : A) (l : list A) :
  sort_insert cmp x l ≡ₚ x :: l.
Proof.
  induction l as [|y l IH]; simpl; [done|].
  destruct (0 <? cmp x y); [|done].
  rewrite IH. apply Permutation_swap.
Qed.

Lemma js_sort_perm {A} (cmp : A → A → Z) (l : list A) : js_sort cmp l ≡ₚ l.
Proof.
  induction l as [|x l IH]; simpl; [done|].
  fold (js_sort cmp l). by rewrite sort_insert_perm, IH.
Qed.

(** ** Favorites *)

Lemma keyed_ids (m : gmap Z Favorite) :
  (∀ k f, m !! k = Some f → id f = k) →
  id <$> (map_to_list m).*2 = (map_to_list m).*1.
Proof.
  intros Hk. rewrite <- list_fmap_compose.
  apply list_fmap_ext. intros i [k f] Hi. simpl.
  apply Hk. apply elem_of_map_to_list. by eapply list_elem_of_lookup_2.
Qed.

Lemma count_id_NoDup (k : Z) (l : list Favorite) :
  NoDup (id <$> l) → (count_id k l ≤ 1)%nat.
Proof.
  unfold count_id. induction l as [|f l IH]; simpl; [lia|].
  intros Hnd. apply NoDup_cons in Hnd as [Hnotin Hnd].
  rewrite filter_cons. destruct (decide (id f = k)) as [Heq|Hne]; [|by apply IH].
  simpl. assert (filter (λ f, id f = k) l = []) as ->; [|simpl; lia].
  destruct (filter (λ f, id f = k) l) as [|g l'] eqn:Hfl; [done|].
  assert (g ∈ filter (λ f, id f = k) l) as Hg by (rewrite Hfl; left).
  apply list_elem_of_filter in Hg as [Hgk Hg].
  destruct Hnotin. rewrite Heq, <- Hgk. by apply list_elem_of_fmap_2.
Qed.

Lemma count_id_elem (k : Z) (f : Favorite) (l : list Favorite) :
  f ∈ l → id f = k → (1 ≤ count_id k l)%nat.
Proof.
  intros Hin Hid. unfold count_id.
  assert (f ∈ filter (λ f, id f = k) l) as Hf by (by apply list_elem_of_filter).
  destruct (filter _ l); [by apply not_elem_of_nil in Hf | simpl; lia].
Qed.

Lemma run_op_fault (op : FavoriteOp) (w : World) :
  fault (run_op op w) = fault w.
Proof.
  destruct op; unfold run_op, after, dbHelpers.addFavorite,
    dbHelpers.removeFavorite, request; simpl;
    destruct (fault w favorites_store) as [[??]|]; simpl; try done.
  by destruct (favorites (db w) !! id movie).
Qed.

Lemma run_op_keyed (op : FavoriteOp) (w : World) :
  favorites_keyed (db w) → favorites_keyed (db (run_op op w)).
Proof.
  intros Hk.
  destruct op; unfold run_op, after, dbHelpers.addFavorite,
    dbHelpers.removeFavorite, request; simpl;
    destruct (fault w favorites_store) as [[??]|]; simpl; try done.
  - destruct (favorites (db w) !! id movie) eqn:Hl; simpl; [done|].
    intros k f. simpl. rewrite lookup_insert.
    case_decide; [naive_solver | apply Hk].
  - intros j f. simpl. rewrite lookup_delete.
    case_decide; [done | apply Hk].
Qed.

Lemma run_ops_invariant (ops : list FavoriteOp) (w : World) :
  favorites_keyed (db w) →
  favorites_keyed (db (run_ops ops w)) ∧ fault (run_ops ops w) = fault w.
Proof.
  revert w. induction ops as [|op ops IH]; intros w Hk; simpl; [done|].
  destruct (IH (run_op op w) (run_op_keyed op w Hk)) as [? ->].
  split; [done | apply run_op_fault].
Qed.

Lemma getFavorites_ok (w : World) :
  fault w favorites_store = None →
  dbHelpers.getFavorites w
  = (Returned (js_sort (λ a b, a.1 - b.1) (map_to_list (favorites (db w)))).*2, w).
Proof.
  intros Hf. unfold dbHelpers.getFavorites.
  rewrite request_ok by done. simpl. by rewrite set_db_same.
Qed.

Lemma getFavorites_unique (w : World) (k : Z) :
  favorites_keyed (db w) → fault w favorites_store = None →
  ∃ l, dbHelpers.getFavorites w = (Returned l, w) ∧ (count_id k l ≤ 1)%nat
       ∧ ∀ f, favorites (db w) !! k = Some f → (1 ≤ count_id k l)%nat.
Proof.
  intros Hk Hf. eexists. split; [by apply getFavorites_ok|].
  split.
  - apply count_id_NoDup. rewrite js_sort_perm, keyed_ids by done.
    apply NoDup_fst_map_to_list.
  - intros f Hl. apply (count_id_elem k f); [|by apply Hk].
    rewrite js_sort_perm. apply list_elem_of_fmap. exists (k, f).
    split; [done|]. by apply elem_of_map_to_list.
Qed.

Lemma addFavorite_new (movie : Favorite) (w : World) :
  fault w favorites_store = None → favorites (db w) !! id movie = None →
  dbHelpers.addFavorite movie w
  = (Returned (id movie),
     set_db (set_favorites (<[id movie := movie]> (favorites (db w))) (db w)) w).
Proof.
  intros Hf Hl. unfold dbHelpers.addFavorite.
  rewrite request_ok by done. by rewrite Hl.
Qed.

Lemma addFavorite_existing (movie old : Favorite) (w : World) :
  fault w favorites_store = None → favorites (db w) !! id movie = Some old →
  dbHelpers.addFavorite movie w = (Threw dbHelpers.ConstraintError, w).
Proof.
  intros Hf Hl. unfold dbHelpers.addFavorite.
  rewrite request_ok by done. rewrite Hl. simpl. by rewrite set_db_same.
Qed.

Lemma add_twice_stored (m1 m2 : Favorite) (w : World) :
  fault w favorites_store = None → id m1 = id m2 →
  is_Some (favorites (db (run_ops [AddFavorite m1; AddFavorite m2] w)) !! id m1).
Proof.
  intros Hf Hid.
  change (run_ops [AddFavorite m1; AddFavorite m2] w)
    with (run_op (AddFavorite m2) (run_op (AddFavorite m1) w)).
  unfold run_op, after.
  destruct (favorites (db w) !! id m1) as [old|] eqn:Hold.
  - rewrite (addFavorite_existing m1 old) by done. cbn [snd].
    rewrite (addFavorite_existing m2 old) by (done || by rewrite <- Hid).
    cbn [snd]. eauto.
  - rewrite (addFavorite_new m1) by done. cbn [snd].
    rewrite (addFavorite_existing m2 m1); cbn [snd].
    + cbn [db set_db favorites set_favorites]. rewrite lookup_insert_eq. eauto.
    + done.
    + cbn [db set_db favorites set_favorites].
      rewrite <- Hid. apply lookup_insert_eq.
Qed.

(** C10. Adding a favorite whose id is already stored is rejected: the
    call throws (the [ConstraintError] of [add] when the store is healthy)
    and the world, so the favorites collection with the stored record and
    its [savedAt], is what it was. *)
Theorem addFavorite_existing_rejected (w : World) (movie old : Favorite) :
  favorites (db w) !! id movie = Some old →
  ∃ t, dbHelpers.addFavorite movie w = (Threw t, w)
       ∧ (fault w favorites_store = None → t = dbHelpers.ConstraintError)
       ∧ favorites (db (after (dbHelpers.addFavorite movie) w)) = favorites (db w)
       ∧ savedAt <$> favorites (db (after (dbHelpers.addFavorite movie) w)) !! id movie
         = Some (savedAt old).
Proof.
  intros Hl.
  destruct (fault w favorites_store) as [[c msg]|] eqn:Hf.
  - exists (ErrorObject c msg). unfold after.
    rewrite (request_fault _ _ _ c msg Hf : dbHelpers.addFavorite movie w = _).
    simpl. by rewrite Hl.
  - exists dbHelpers.ConstraintError. unfold after.
    rewrite (addFavorite_existing movie old w Hf Hl). simpl. by rewrite Hl.
Qed.

Lemma addFavorite_existing_rejected_witness :
  ∃ t, dbHelpers.addFavorite inception_again (session used_db 2000 offline)
       = (Threw t, session used_db 2000 offline)
       ∧ (fault (session used_db 2000 offline) favorites_store = None →
          t = dbHelpers.ConstraintError)
       ∧ favorites (db (after (dbHelpers.addFavorite inception_again)
                              (session used_db 2000 offline)))
         = favorites (db (session used_db 2000 offline))
       ∧ savedAt <$> favorites (db (after (dbHelpers.addFavorite inception_again)
                                          (session used_db 2000 offline)))
                     !! id inception_again
         = Some (savedAt inception).
Proof.
  apply (addFavorite_existing_rejected (session used_db 2000 offline)
           inception_again inception).
  vm_compute. reflexivity.
Defined.

(** X4. The hook on top of it: the rejected add leaves the React state
    and the database alone and shows the error toast. *)
Lemma useFavorites_addFavorite_existing (w : World) (movie : TMDBMovie)
    (old : Favorite) (prev : list Favorite) :
  fault w favorites_store = None →
  favorites (db w) !! movie_id movie = Some old →
  useFavorites.addFavorite movie prev w
  = (Returned prev,
     show_toast {| toast_title := "Error";
                   toast_description := "Failed to add movie to favorites";
                   destructive := true |} w).
Proof.
  intros Hf Hl. unfold useFavorites.addFavorite, try_catch.
  unfold mbind at 1, Async_bind, bind at 1, Date_now.
  unfold mbind at 1, bind at 1.
  rewrite (addFavorite_existing _ old) by done.
  reflexivity.
Qed.

Lemma useFavorites_addFavorite_existing_witness :
  let movie := mkTMDBMovie 27205 "Inception" "A thief who steals corporate secrets."
                           (Some "/inception.jpg") "2010-07-15" 8 in
  let w := session used_db 2000 offline in
  useFavorites.addFavorite movie [inception; arrival] w
  = (Returned [inception; arrival],
     show_toast {| toast_title := "Error";
                   toast_description := "Failed to add movie to favorites";
                   destructive := true |} w).
Proof.
  intros movie w.
  apply (useFavorites_addFavorite_existing w movie inception [inception; arrival]).
  - reflexivity.
  - vm_compute. reflexivity.
Defined.

(** C9. After any sequence of add and remove operations the favorites
    listed by [getFavorites] hold at most one record of a given id; adding
    the same id twice leaves exactly one record of that id, and on an empty
    collection exactly that one record. *)
Theorem favorites_unique_per_id (w : World) (ops : list FavoriteOp) (k : Z) :
  favorites_keyed (db w) →
  fault w favorites_store = None →
  (∃ l, dbHelpers.getFavorites (run_ops ops w) = (Returned l, run_ops ops w)
        ∧ (count_id k l ≤ 1)%nat)
  ∧ (∀ m1 m2, id m1 = k → id m2 = k →
       let w2 := run_ops [AddFavorite m1; AddFavorite m2] (run_ops ops w) in
       ∃ l, dbHelpers.getFavorites w2 = (Returned l, w2) ∧ count_id k l = 1%nat)
  ∧ (∀ m1 m2, id m1 = k → id m2 = k → favorites (db w) = ∅ →
       let w2 := run_ops [AddFavorite m1; AddFavorite m2] w in
       dbHelpers.getFavorites w2 = (Returned [m1], w2)).
Proof.
  intros Hk Hf. split; [|split].
  - destruct (run_ops_invariant ops w Hk) as [Hk' Hf'].
    destruct (getFavorites_unique (run_ops ops w) k Hk') as (l & ? & ? & _);
      [by rewrite Hf'|]. by exists l.
  - intros m1 m2 Hm1 Hm2 w2.
    destruct (run_ops_invariant ops w Hk) as [Hk1 Hf1].
    destruct (run_ops_invariant [AddFavorite m1; AddFavorite m2] _ Hk1)
      as [Hk2 Hf2]. fold w2 in Hk2, Hf2.
    assert (fault w2 favorites_store = None) as Hfw2 by (by rewrite Hf2, Hf1).
    destruct (getFavorites_unique w2 k Hk2 Hfw2) as (l & Hl & Hle & Hge).
    exists l. split; [done|].
    assert (is_Some (favorites (db w2) !! k)) as [f Hfk]; [|specialize (Hge f Hfk); lia].
    rewrite <- Hm1.
    subst w2. set (w0 := run_ops ops w) in *.
    assert (fault w0 favorites_store = None) as Hf0 by (by rewrite Hf1).
    apply (add_twice_stored m1 m2 w0); [done | congruence].
  - intros m1 m2 Hm1 Hm2 He w2. subst w2.
    change (run_ops [AddFavorite m1; AddFavorite m2] w)
      with (run_op (AddFavorite m2) (run_op (AddFavorite m1) w)).
    unfold run_op, after.
    rewrite (addFavorite_new m1) by (done || by rewrite He).
    cbn [snd].
    rewrite (addFavorite_existing m2 m1); cbn [snd]; [|done|].
    + rewrite getFavorites_ok by done. cbn [db set_db favorites set_favorites].
      rewrite He, insert_empty, map_to_list_singleton. reflexivity.
    + cbn [db set_db favorites set_favorites].
      rewrite Hm2, <- Hm1. apply lookup_insert_eq.
Qed.

Lemma favorites_unique_per_id_witness :
  let w := session empty_db 0 offline in
  let ops := [AddFavorite inception; RemoveFavorite 27205; AddFavorite arrival;
              AddFavorite inception_again] in
  (∃ l, dbHelpers.getFavorites (run_ops ops w) = (Returned l, run_ops ops w)
        ∧ (count_id 27205 l ≤ 1)%nat)
  ∧ (∀ m1 m2, id m1 = 27205 → id m2 = 27205 →
       let w2 := run_ops [AddFavorite m1; AddFavorite m2] (run_ops ops w) in
       ∃ l, dbHelpers.getFavorites w2 = (Returned l, w2) ∧ count_id 27205 l = 1%nat)
  ∧ (∀ m1 m2, id m1 = 27205 → id m2 = 27205 → favorites (db w) = ∅ →
       let w2 := run_ops [AddFavorite m1; AddFavorite m2] w in
       dbHelpers.getFavorites w2 = (Returned [m1], w2)).
Proof.
  apply (favorites_unique_per_id (session empty_db 0 offline)).
  - intros k f H. vm_compute in H. discriminate.
  - reflexivity.
Defined.

(** ** The response cache *)

Lemma getCachedResponse_absent (w : World) (k : string) :
  fault w api_cache_store = None → api_cache (db w) !! k = None →
  dbHelpers.getCachedResponse k w = (Returned JNull, w).
Proof.
  intros Hf Hl. unfold dbHelpers.getCachedResponse.
  unfold mbind, Async_bind, bind. rewrite request_ok by done.
  simpl. rewrite Hl, set_db_same. reflexivity.
Qed.

Lemma getCachedResponse_live (w : World) (k : string) (c : CacheEntry) :
  fault w api_cache_store = None → api_cache (db w) !! k = Some c →
  clock w - cache_timestamp c ≤ ttl c →
  dbHelpers.getCachedResponse k w = (Returned (data c), w).
Proof.
  intros Hf Hl Hlive. unfold dbHelpers.getCachedResponse.
  unfold mbind, Async_bind, bind. rewrite request_ok by done.
  simpl. rewrite Hl, set_db_same. unfold Date_now.
  destruct (Z.ltb_spec (ttl c) (clock w - cache_timestamp c)); [lia|done].
Qed.

Lemma getCachedResponse_expired (w : World) (k : string) (c : CacheEntry) :
  fault w api_cache_store = None → api_cache (db w) !! k = Some c →
  ttl c < clock w - cache_timestamp c →
  dbHelpers.getCachedResponse k w
  = (Returned JNull, set_db (set_api_cache (delete k (api_cache (db w))) (db w)) w).
Proof.
  intros Hf Hl Hexp. unfold dbHelpers.getCachedResponse.
  unfold mbind at 1, Async_bind, bind at 1. rewrite request_ok by done.
  simpl. rewrite Hl, set_db_same. unfold Date_now.
  unfold mbind at 1, bind at 1.
  destruct (Z.ltb_spec (ttl c) (clock w - cache_timestamp c)); [|lia].
  unfold mbind, bind. rewrite request_ok by done. reflexivity.
Qed.

(** C6. A read of a cached entry at time [now]: when
    [now - storedAt > ttl] the entry is deleted from the cache collection
    and the result is [null]; when [now - storedAt <= ttl] the result is
    the stored payload and nothing changes. *)
Theorem getCachedResponse_expiry (w : World) (k : string) (c : CacheEntry) (now : Z) :
  fault w api_cache_store = None →
  api_cache (db w) !! k = Some c →
  (now - cache_timestamp c > ttl c →
   dbHelpers.getCachedResponse k (set_clock now w)
   = (Returned JNull,
      set_db (set_api_cache (delete k (api_cache (db w))) (db w)) (set_clock now w))
   ∧ api_cache (db (after (dbHelpers.getCachedResponse k) (set_clock now w))) !! k
     = None)
  ∧ (now - cache_timestamp c ≤ ttl c →
     dbHelpers.getCachedResponse k (set_clock now w)
     = (Returned (data c), set_clock now w)
     ∧ api_cache (db (after (dbHelpers.getCachedResponse k) (set_clock now w))) !! k
       = Some c).
Proof.
  intros Hf Hl. split; intros Hnow.
  - unfold after.
    rewrite (getCachedResponse_expired (set_clock now w) k c) by (done || simpl; lia).
    split; [done|]. simpl. apply lookup_delete_eq.
  - unfold after.
    rewrite (getCachedResponse_live (set_clock now w) k c) by done.
    done.
Qed.

Lemma getCachedResponse_expiry_witness :
  let k := "GET:/movie/popular:api_key=demo-key&page=1" in
  let c := mkCacheEntry k popular_page 1100 600000 in
  let w := session used_db 0 offline in
  (dbHelpers.getCachedResponse k (set_clock 601101 w)
   = (Returned JNull,
      set_db (set_api_cache (delete k (api_cache (db w))) (db w)) (set_clock 601101 w))
   ∧ api_cache (db (after (dbHelpers.getCachedResponse k) (set_clock 601101 w))) !! k
     = None)
  ∧ (dbHelpers.getCachedResponse k (set_clock 601100 w)
     = (Returned (data c), set_clock 601100 w)
     ∧ api_cache (db (after (dbHelpers.getCachedResponse k) (set_clock 601100 w))) !! k
       = Some c).
Proof.
  intros k c w. split.
  - apply (getCachedResponse_expiry w k c 601101); [reflexivity | reflexivity | reflexivity].
  - apply (getCachedResponse_expiry w k c 601100); [reflexivity | reflexivity |].
    vm_compute. discriminate.
Defined.

(** ** Search history *)

Lemma addToSearchHistory_ok (q : string) (w : World) :
  fault w search_history_store = None →
  dbHelpers.addToSearchHistory q w
  = (Returned q,
     set_db (set_search_history
               (<[q := mkSearchEntry q (clock w)]> (search_history (db w))) (db w)) w).
Proof.
  intros Hf. unfold dbHelpers.addToSearchHistory, mbind, Async_bind, bind, Date_now.
  by rewrite request_ok.
Qed.

Lemma getSearchHistory_ok (limit : Z) (w : World) :
  fault w search_history_store = None →
  dbHelpers.getSearchHistory limit w
  = (Returned
       (slice0 limit
          (js_sort (λ a b, timestamp b - timestamp a)
             (js_sort dbHelpers.by_timestamp (map_to_list (search_history (db w)))).*2)),
     w).
Proof.
  intros Hf. unfold dbHelpers.getSearchHistory.
  rewrite request_ok by done. simpl. by rewrite set_db_same.
Qed.

(** C7. From an empty search history, submitting "dune", "arrival",
    "dune" at strictly increasing times and then listing with limit 2
    returns the entries of "dune" and "arrival", in that order; the
    collection holds two rows, "dune" carrying the time of its second
    submission. *)
Theorem search_history_upsert_ordering (w : World) (t1 t2 t3 : Z) :
  fault w search_history_store = None →
  search_history (db w) = ∅ →
  t1 < t2 → t2 < t3 →
  ∃ l w',
    dune_arrival_dune t1 t2 t3 w = (Returned l, w')
    ∧ l = [mkSearchEntry "dune" t3; mkSearchEntry "arrival" t2]
    ∧ query <$> l = ["dune"; "arrival"]
    ∧ size (search_history (db w')) = 2%nat.
Proof.
  intros Hf He H12 H23.
  unfold dune_arrival_dune, at_time.
  unfold mbind, Async_bind, bind.
  rewrite addToSearchHistory_ok by done.
  rewrite addToSearchHistory_ok by done.
  rewrite addToSearchHistory_ok by done.
  rewrite getSearchHistory_ok by done.
  cbn [db set_db set_clock clock search_history set_search_history].
  rewrite He.
  assert (map_to_list
            (<["dune" := mkSearchEntry "dune" t3]>
               (<["arrival" := mkSearchEntry "arrival" t2]>
                  (<["dune" := mkSearchEntry "dune" t1]> (∅ : gmap string SearchEntry))))
          = [("arrival", mkSearchEntry "arrival" t2); ("dune", mkSearchEntry "dune" t3)])
    as Hlist by (vm_compute; reflexivity).
  do 2 eexists. split; [reflexivity|].
  cbn [db set_db search_history set_search_history].
  rewrite Hlist.
  assert (js_sort (λ a b, timestamp b - timestamp a)
            (js_sort dbHelpers.by_timestamp
               [("arrival", mkSearchEntry "arrival" t2);
                ("dune", mkSearchEntry "dune" t3)]).*2
          = [mkSearchEntry "dune" t3; mkSearchEntry "arrival" t2]) as ->.
  { unfold js_sort at 2, dbHelpers.by_timestamp.
    cbn [foldr sort_insert timestamp query fst snd].
    destruct (Z.eqb_spec t2 t3); [lia|].
    destruct (Z.ltb_spec 0 (t2 - t3)); [lia|].
    unfold js_sort. cbn [foldr sort_insert timestamp fmap list_fmap snd].
    destruct (Z.ltb_spec 0 (t3 - t2)); [|lia].
    reflexivity. }
  split; [reflexivity|]. split; [reflexivity|].
  vm_compute. reflexivity.
Qed.

Lemma search_history_upsert_ordering_witness :
  ∃ l w',
    dune_arrival_dune 1000 2000 3000 (session empty_db 0 offline) = (Returned l, w')
    ∧ l = [mkSearchEntry "dune" 3000; mkSearchEntry "arrival" 2000]
    ∧ query <$> l = ["dune"; "arrival"]
    ∧ size (search_history (db w')) = 2%nat.
Proof.
  apply (search_history_upsert_ordering (session empty_db 0 offline) 1000 2000 3000);
    vm_compute; reflexivity.
Defined.

(** ** Bulk reset *)

Lemma lookup_foldl_delete {V} (ks : list Z) (m : gmap Z V) (k : Z) :
  foldl (λ m k, delete k m) m ks !! k = if decide (k ∈ ks) then None else m !! k.
Proof.
  revert m. induction ks as [|j ks IH]; intros m; cbn [foldl].
  - destruct (decide (k ∈ [])) as [Hin|]; [by apply not_elem_of_nil in Hin | done].
  - rewrite IH. destruct (decide (k ∈ ks)) as [Hin|Hnin].
    + destruct (decide (k ∈ j :: ks)) as [|Hnin]; [done|].
      destruct Hnin. by right.
    + rewrite lookup_delete. destruct (decide (j = k)) as [->|Hne].
      * destruct (decide (k ∈ k :: ks)) as [|Hn]; [done|]. destruct Hn. left.
      * destruct (decide (k ∈ j :: ks)) as [Hin|]; [|done].
        apply elem_of_cons in Hin as [?|?]; congruence.
Qed.

Lemma Promise_all_removeFavorite (ks : list Z) (w : World) :
  fault w favorites_store = None →
  Promise_all (dbHelpers.removeFavorite <$> ks) w
  = (Returned ((λ _, tt) <$> ks),
     set_db (set_favorites (foldl (λ m k, delete k m) (favorites (db w)) ks) (db w)) w).
Proof.
  revert w. induction ks as [|k ks IH]; intros w Hf.
  - simpl. unfold ret. by rewrite set_favorites_same, set_db_same.
  - cbn [fmap list_fmap Promise_all]. unfold dbHelpers.removeFavorite at 1.
    rewrite request_ok by done. cbn [fst snd].
    change (list_fmap Z (Async ()) dbHelpers.removeFavorite ks)
      with (dbHelpers.removeFavorite <$> ks).
    rewrite IH by done. reflexivity.
Qed.

Lemma getAnalytics_ok (limit : Z) (w : World) :
  fault w analytics_store = None →
  ∃ l, dbHelpers.getAnalytics limit w = (Returned l, w).
Proof.
  intros Hf. unfold dbHelpers.getAnalytics. rewrite request_ok by done.
  simpl. rewrite set_db_same. eauto.
Qed.

(** X3. What [clearAllData] does on a healthy store: the favorites are deleted
    one by one, [localStorage] is cleared, the success toast is shown, and
    the other four object stores are not written. *)
Lemma clearAllData_spec (w : World) :
  fault w favorites_store = None →
  fault w search_history_store = None →
  fault w analytics_store = None →
  favorites_keyed (db w) →
  Settings.clearAllData w
  = (Returned tt,
     show_toast {| toast_title := "Data Cleared";
                   toast_description := "All app data has been cleared successfully";
                   destructive := false |}
       (set_localStorage ∅ (set_db (set_favorites ∅ (db w)) w))).
Proof.
  intros Hf Hs Ha Hk. unfold Settings.clearAllData, try_catch.
  unfold mbind at 1, Async_bind, bind at 1.
  rewrite getFavorites_ok by done.
  unfold mbind at 1, bind at 1.
  rewrite getSearchHistory_ok by done.
  unfold mbind at 1, bind at 1.
  destruct (getAnalytics_ok 1000 w Ha) as [events ->].
  unfold mbind at 1, bind at 1.
  rewrite (list_fmap_compose id dbHelpers.removeFavorite).
  rewrite Promise_all_removeFavorite by done.
  set (ks := id <$> _).
  assert (foldl (λ m k, delete k m) (favorites (db w)) ks = ∅) as ->.
  { apply map_eq. intros k. rewrite lookup_foldl_delete, lookup_empty.
    destruct (decide (k ∈ ks)) as [|Hnin]; [done|].
    destruct (favorites (db w) !! k) as [f|] eqn:Hl; [|done].
    destruct Hnin. subst ks. rewrite js_sort_perm, keyed_ids by done.
    apply list_elem_of_fmap. exists (k, f). split; [done|].
    by apply elem_of_map_to_list. }
  reflexivity.
Qed.

Lemma used_db_keyed : favorites_keyed used_db.
Proof.
  intros k f. unfold used_db. cbn [favorites].
  rewrite lookup_insert. case_decide as Hk; [intros [= <-]; by rewrite <- Hk|].
  rewrite lookup_singleton. case_decide as Hk'; [intros [= <-]; by rewrite <- Hk'|].
  done.
Qed.

Lemma clearAllData_spec_witness :
  let w := session used_db 5000 offline in
  Settings.clearAllData w
  = (Returned tt,
     show_toast {| toast_title := "Data Cleared";
                   toast_description := "All app data has been cleared successfully";
                   destructive := false |}
       (set_localStorage ∅ (set_db (set_favorites ∅ (db w)) w))).
Proof.
  intros w.
  apply (clearAllData_spec w); [reflexivity | reflexivity | reflexivity |].
  exact used_db_keyed.
Defined.

(** C8. A bulk reset on a database holding records in all five
    collections completes with the success toast and empties the
    favorites, but the search history, the response cache, the preferences
    and the usage events are all still there. *)
Theorem clearAllData_keeps_other_collections :
  let w := session used_db 5000 offline in
  let w' := after Settings.clearAllData w in
  (Settings.clearAllData w).1 = Returned tt
  ∧ toast_title <$> toasts w' = ["Data Cleared"]
  ∧ favorites (db w') = ∅
  ∧ search_history (db w') = search_history used_db
  ∧ api_cache (db w') = api_cache used_db
  ∧ preferences (db w') = preferences used_db
  ∧ analytics (db w') = analytics used_db
  ∧ search_history used_db !! "dune" = Some (mkSearchEntry "dune" 1200)
  ∧ is_Some (api_cache used_db !! "GET:/movie/popular:api_key=demo-key&page=1")
  ∧ is_Some (preferences used_db !! "user-preferences")
  ∧ length (analytics used_db) = 1%nat.
Proof.
  intros w w'. split_and!; try (vm_compute; reflexivity); vm_compute; eauto.
Qed.

(** ** The retry pipeline *)

Lemma same_store_refl (w : World) : same_store w w.
Proof. by repeat split. Qed.

Lemma same_store_trans (w1 w2 w3 : World) :
  same_store w1 w2 → same_store w2 w3 → same_store w1 w3.
Proof. unfold same_store. intuition congruence. Qed.

Lemma fetch_same_store (url : string) (w : World) : same_store w (after (APIClient.fetch url) w).
Proof.
  unfold after, APIClient.fetch.
  destruct (server w _ url); by repeat split.
Qed.

Lemma parseRateLimitHeaders_returns (r : Response) (w : World) :
  APIClient.parseRateLimitHeaders r w
  = (Returned tt, after (APIClient.parseRateLimitHeaders r) w).
Proof.
  unfold after, APIClient.parseRateLimitHeaders.
  by repeat case_match.
Qed.

Lemma parseRateLimitHeaders_frame (r : Response) (w : World) :
  let w' := after (APIClient.parseRateLimitHeaders r) w in
  same_store w w' ∧ trace w' = trace w ∧ clock w' = clock w.
Proof.
  unfold after, APIClient.parseRateLimitHeaders.
  repeat case_match; by repeat split.
Qed.

Lemma attempts_app (t1 t2 : list Effect) :
  APIClient.attempts (t1 ++ t2) = (APIClient.attempts t1 + APIClient.attempts t2)%nat.
Proof. unfold APIClient.attempts. by rewrite filter_app, length_app. Qed.

(** One activation answered with a 503: with budget left it waits
    [2^(3-retries)] seconds and recurs, without budget it returns the
    response. *)
Lemma attempt_503 (url : string) (retries : nat) (w : World) (r : Response) :
  server w (APIClient.attempts (trace w)) url = Responded r →
  resp_status r = 503 →
  ∃ w', same_store w w'
    ∧ match retries with
      | O => APIClient.attempt url retries w = (Returned (APIClient.Return r), w')
             ∧ trace w' = trace w ++ [Fetch url]
             ∧ clock w' = clock w
      | S _ => APIClient.attempt url retries w = (Returned APIClient.Recur, w')
               ∧ trace w' = trace w ++ [Fetch url; Sleep (APIClient.backoff retries)]
               ∧ clock w' = clock w + APIClient.backoff retries
      end.
Proof.
  intros Hsrv Hst.
  destruct (parseRateLimitHeaders_frame r (log (Fetch url) w)) as (Hs & Ht & Hc).
  assert (0 ≤ APIClient.backoff retries) as Hpos.
  { unfold APIClient.backoff. apply Z.mul_nonneg_nonneg; [|lia].
    destruct (Z.le_gt_cases 0 (3 - Z.of_nat retries)).
    - by apply Z.pow_nonneg.
    - by rewrite Z.pow_neg_r. }
  assert (APIClient.attempt url retries w
          = if (0 <? retries)%nat
            then (Returned APIClient.Recur,
                  after (APIClient.wait (Some (APIClient.backoff retries)))
                    (after (APIClient.parseRateLimitHeaders r) (log (Fetch url) w)))
            else (Returned (APIClient.Return r),
                  after (APIClient.parseRateLimitHeaders r) (log (Fetch url) w)))
    as Hattempt.
  { unfold APIClient.attempt, try_catch.
    unfold mbind at 1, Async_bind, bind at 1.
    unfold APIClient.fetch at 1. rewrite Hsrv.
    unfold mbind at 1, bind at 1.
    rewrite parseRateLimitHeaders_returns.
    rewrite Hst. cbn [Z.eqb Pos.eqb Z.leb Z.compare Pos.compare Pos.compare_cont andb].
    destruct (0 <? retries)%nat; reflexivity. }
  set (w1 := after (APIClient.parseRateLimitHeaders r) (log (Fetch url) w)) in *.
  destruct retries as [|k]; rewrite Hattempt; cbn [Nat.ltb Nat.leb].
  - exists w1. split; [exact Hs|]. by rewrite Ht, Hc.
  - eexists. split; [|split; [reflexivity|]].
    + unfold after at 1. cbn [fst snd APIClient.wait]. destruct Hs as (?&?&?&?&?&?&?).
      by repeat split.
    + unfold after. cbn [snd APIClient.wait trace log set_clock clock]. rewrite Ht, Hc.
      cbn [trace log clock].
      rewrite Z.max_r by done. by rewrite <- app_assoc.
Qed.

Lemma retry_schedule_attempts (url : string) (retries : nat) :
  APIClient.attempts (retry_schedule url retries) = S retries.
Proof. induction retries as [|k IH]; [done|]. simpl. by rewrite <- IH. Qed.

(** Against a server that always answers 503, [fetchWithRetry] makes
    [retries + 1] attempts, with the backoff waits between them, and
    returns the last response. *)
Lemma fetchWithRetry_503 (url : string) (retries : nat) (w : World) :
  always_503 (server w) →
  ∃ r w', APIClient.fetchWithRetry url retries w = (Returned r, w')
    ∧ resp_status r = 503
    ∧ server w (APIClient.attempts (trace w) + retries)%nat url = Responded r
    ∧ trace w' = trace w ++ retry_schedule url retries
    ∧ same_store w w'.
Proof.
  intros Hsrv. revert w Hsrv. induction retries as [|k IH]; intros w Hsrv.
  - destruct (Hsrv (APIClient.attempts (trace w)) url) as (r & Hr & Hst).
    destruct (attempt_503 url 0 w r Hr Hst) as (w' & Hs & Ha & Ht & _).
    exists r, w'. cbn [APIClient.fetchWithRetry].
    unfold mbind, Async_bind, bind. rewrite Ha.
    rewrite Nat.add_0_r. by split_and!.
  - destruct (Hsrv (APIClient.attempts (trace w)) url) as (r0 & Hr0 & Hst0).
    destruct (attempt_503 url (S k) w r0 Hr0 Hst0) as (w1 & Hs1 & Ha & Ht & _).
    assert (server w1 = server w) as Hsame by apply Hs1.
    destruct (IH w1) as (r & w' & Hf & Hst & Hr & Ht' & Hs'); [by rewrite Hsame|].
    exists r, w'. cbn [APIClient.fetchWithRetry].
    unfold mbind, Async_bind, bind. rewrite Ha.
    split; [exact Hf|]. split; [done|].
    split; [|split].
    + rewrite Hsame, Ht, attempts_app in Hr. simpl in Hr.
      by replace (APIClient.attempts (trace w) + S k)%nat
        with (APIClient.attempts (trace w) + 1 + k)%nat by lia.
    + rewrite Ht', Ht. by rewrite <- app_assoc.
    + by eapply same_store_trans.
Qed.

Lemma attempt_same_store (url : string) (retries : nat) (w : World) :
  same_store w (after (APIClient.attempt url retries) w).
Proof.
  unfold after, APIClient.attempt, try_catch, mbind, Async_bind, bind.
  unfold APIClient.fetch.
  destruct (server w (APIClient.attempts (trace w)) url) as [r|c msg].
  - rewrite parseRateLimitHeaders_returns.
    destruct (parseRateLimitHeaders_frame r (log (Fetch url) w)) as ((?&?&?&?&?&?&?) & _).
    unfold APIClient.wait, mret, Async_ret, ret, throw.
    repeat case_match; simplify_eq/=; by split_and!.
  - unfold APIClient.wait, mret, Async_ret, ret, throw.
    repeat case_match; simplify_eq/=; by split_and!.
Qed.

(** With no retry left an activation does not recur. *)
Lemma attempt_0_returns (url : string) (w w' : World) (step : APIClient.Step) :
  APIClient.attempt url 0 w = (Returned step, w') →
  ∃ r, step = APIClient.Return r.
Proof.
  unfold APIClient.attempt, try_catch, mbind, Async_bind, bind.
  unfold APIClient.fetch.
  destruct (server w (APIClient.attempts (trace w)) url) as [r|c msg].
  - rewrite parseRateLimitHeaders_returns.
    unfold APIClient.wait, mret, Async_ret, ret, throw. cbn [Nat.ltb Nat.leb andb].
    rewrite andb_false_r.
    repeat case_match; intros; simplify_eq/=; eauto.
  - unfold APIClient.wait, mret, Async_ret, ret, throw. cbn [Nat.ltb Nat.leb andb].
    repeat case_match; intros; simplify_eq/=; eauto.
Qed.

(** The retry pipeline writes neither the database nor the page. *)
Lemma fetchWithRetry_same_store (url : string) (retries : nat) (w : World) :
  same_store w (after (APIClient.fetchWithRetry url retries) w).
Proof.
  revert w. induction retries as [|k IH]; intros w.
  - pose proof (attempt_same_store url 0 w) as H0.
    unfold after in *. cbn [APIClient.fetchWithRetry].
    unfold mbind, Async_bind, bind.
    destruct (APIClient.attempt url 0 w) as [[[r|]|t] w1]; exact H0.
  - pose proof (attempt_same_store url (S k) w) as HS.
    unfold after in *. cbn [APIClient.fetchWithRetry].
    unfold mbind, Async_bind, bind.
    destruct (APIClient.attempt url (S k) w) as [[[r|]|t] w1]; try exact HS.
    eapply same_store_trans; [exact HS | apply IH].
Qed.

(** ** [get] *)

Lemma get_unfold (endpoint : string) (params : JsObject) (w : World) :
  APIClient.get endpoint params w
  = match dbHelpers.getCachedResponse (get_cacheKey w endpoint params) w with
    | (Returned cached, w1) =>
        if truthy cached then (Returned cached, w1)
        else try_catch
               (response ← APIClient.fetchWithRetry (get_url w endpoint params) 3;
                get_respond (get_cacheKey w endpoint params) endpoint response)
               (get_catch endpoint) w1
    | (Threw t, w1) => (Threw t, w1)
    end.
Proof.
  unfold APIClient.get, get_cacheKey, get_url.
  unfold mbind at 1, Async_bind, bind at 1, APIClient.this_apiKey.
  unfold mbind at 1, bind at 1, APIClient.this_baseURL.
  unfold mbind at 1, bind at 1.
  destruct (dbHelpers.getCachedResponse _ w) as [[cached|t] w1]; [|done].
  destruct (truthy cached); reflexivity.
Qed.

Lemma get_network (url cacheKey endpoint : string) (w : World) :
  try_catch (response ← APIClient.fetchWithRetry url 3;
             get_respond cacheKey endpoint response)
            (get_catch endpoint) w
  = match APIClient.fetchWithRetry url 3 w with
    | (Returned response, w2) =>
        match get_respond cacheKey endpoint response w2 with
        | (Returned v, w3) => (Returned v, w3)
        | (Threw t, w3) => get_catch endpoint t w3
        end
    | (Threw t, w2) => get_catch endpoint t w2
    end.
Proof.
  unfold try_catch, mbind, Async_bind, bind.
  by destruct (APIClient.fetchWithRetry url 3 w) as [[response|t] w2].
Qed.

Lemma trackEvent_ok (act : string) (v : JSON) (w : World) :
  fault w analytics_store = None →
  dbHelpers.trackEvent act v w
  = (Returned (Z.of_nat (length (analytics (db w))) + 1),
     set_db (set_analytics (analytics (db w) ++ [mkUsageEvent act v (clock w)]) (db w)) w).
Proof.
  intros Hf. unfold dbHelpers.trackEvent, mbind, Async_bind, bind, Date_now.
  by rewrite request_ok.
Qed.

Lemma trackEvent_fault (act : string) (v : JSON) (w : World) c msg :
  fault w analytics_store = Some (c, msg) →
  dbHelpers.trackEvent act v w = (Threw (ErrorObject c msg), w).
Proof.
  intros Hf. unfold dbHelpers.trackEvent, mbind, Async_bind, bind, Date_now.
  by rewrite (request_fault _ _ _ c msg).
Qed.

Lemma cacheAPIResponse_ok (k : string) (v : JSON) (minutes : Z) (w : World) :
  fault w api_cache_store = None →
  dbHelpers.cacheAPIResponse k v minutes w
  = (Returned k,
     set_db (set_api_cache
               (<[k := mkCacheEntry k v (clock w) (minutes * 60 * 1000)]> (api_cache (db w)))
               (db w)) w).
Proof.
  intros Hf. unfold dbHelpers.cacheAPIResponse, mbind, Async_bind, bind, Date_now.
  by rewrite request_ok.
Qed.

Lemma cacheAPIResponse_fault (k : string) (v : JSON) (minutes : Z) (w : World) c msg :
  fault w api_cache_store = Some (c, msg) →
  dbHelpers.cacheAPIResponse k v minutes w = (Threw (ErrorObject c msg), w).
Proof.
  intros Hf. unfold dbHelpers.cacheAPIResponse, mbind, Async_bind, bind, Date_now.
  by rewrite (request_fault _ _ _ c msg).
Qed.

(** The cache lookup writes the cache collection only. *)
Lemma getCachedResponse_frame (k : string) (w : World) :
  ∃ c', after (dbHelpers.getCachedResponse k) w = set_db (set_api_cache c' (db w)) w.
Proof.
  unfold after, dbHelpers.getCachedResponse, mbind, Async_bind, bind, request, Date_now.
  destruct (fault w api_cache_store) as [[c msg]|] eqn:Hf.
  - exists (api_cache (db w)). simpl. by destruct w as [[]].
  - simpl. destruct (api_cache (db w) !! k) as [e|].
    + destruct (ttl e <? clock (set_db (db w) w) - cache_timestamp e); simpl.
      * rewrite Hf. simpl. eauto.
      * exists (api_cache (db w)). by destruct w as [[]].
    + exists (api_cache (db w)). simpl. by destruct w as [[]].
Qed.

Lemma get_catch_ok (endpoint : string) (t : Thrown) (w : World) :
  fault w analytics_store = None →
  get_catch endpoint t w
  = (Threw (if APIClient.isNetworkError t then APIClient.networkError else t),
     set_db (set_analytics
               (analytics (db w)
                ++ [mkUsageEvent "api_error" (api_error_data endpoint t) (clock w)])
               (db w)) w).
Proof.
  intros Hf. unfold get_catch, mbind, Async_bind, bind.
  rewrite trackEvent_ok by done. by destruct (APIClient.isNetworkError t).
Qed.

Lemma get_catch_fault (endpoint : string) (t : Thrown) (w : World) c msg :
  fault w analytics_store = Some (c, msg) →
  get_catch endpoint t w = (Threw (ErrorObject c msg), w).
Proof.
  intros Hf. unfold get_catch, mbind, Async_bind, bind.
  by rewrite (trackEvent_fault _ _ _ c msg).
Qed.

(** An error response makes the [try] block throw before any write. *)
Lemma get_respond_not_ok (cacheKey endpoint : string) (r : Response) (w : World) :
  APIClient.response_ok r = false →
  get_respond cacheKey endpoint r w
  = (Threw match body r with
           | Some JNull =>
               ErrorObject TypeError
                 "Cannot read properties of null (reading 'status_message')"
           | _ => APIErrorObject {| api_message := error_message r;
                                    api_status := Some (resp_status r);
                                    api_isNetworkError := false |}
           end, w).
Proof.
  intros Hok. unfold get_respond, error_message. rewrite Hok. cbn [negb].
  unfold try_catch, mbind, Async_bind, bind, APIClient.response_json.
  destruct (body r) as [[| | | | |]|]; reflexivity.
Qed.

Lemma get_catch_throws (endpoint : string) (t : Thrown) (w : World) :
  ∃ t' w', get_catch endpoint t w = (Threw t', w').
Proof.
  destruct (fault w analytics_store) as [[c msg]|] eqn:Hf.
  - rewrite (get_catch_fault _ _ _ c msg) by done. eauto.
  - rewrite get_catch_ok by done. eauto.
Qed.

(** When the [try] block returns, the response was a 2xx with a JSON
    body, and both the cache entry and the [api_call] event were written. *)
Lemma get_respond_returned (cacheKey endpoint : string) (r : Response)
    (v : JSON) (w w' : World) :
  get_respond cacheKey endpoint r w = (Returned v, w') →
  APIClient.response_ok r = true ∧ body r = Some v
  ∧ fault w api_cache_store = None ∧ fault w analytics_store = None
  ∧ w' = set_db (set_analytics
                   (analytics (db w)
                    ++ [mkUsageEvent "api_call" (api_call_data endpoint (resp_status r))
                                     (clock w)])
                   (set_api_cache
                      (<[cacheKey := mkCacheEntry cacheKey v (clock w) 600000]>
                         (api_cache (db w))) (db w))) w.
Proof.
  destruct (APIClient.response_ok r) eqn:Hok.
  - unfold get_respond. rewrite Hok. cbn [negb].
    unfold mbind, Async_bind, bind, APIClient.response_json.
    destruct (body r) as [d|]; [|discriminate].
    unfold mret at 1, Async_ret, ret at 1.
    destruct (fault w api_cache_store) as [[c msg]|] eqn:Hc.
    { rewrite (cacheAPIResponse_fault _ _ _ _ c msg) by done. discriminate. }
    rewrite cacheAPIResponse_ok by done.
    destruct (fault w analytics_store) as [[c msg]|] eqn:Ha.
    { rewrite (trackEvent_fault _ _ _ c msg) by done. discriminate. }
    rewrite trackEvent_ok by done.
    intros [= <- <-]. done.
  - rewrite get_respond_not_ok by done. discriminate.
Qed.


(** C5 (amended). The analytics write is not shielded: when the fetch
    and the cache write succeed, [get] returns the payload if the
    analytics collection accepts the [api_call] event, and fails with the
    error of that write if it does not. The payload is cached either way. *)
Theorem get_tracking_failure_propagates (w w1 w2 : World) (endpoint : string)
    (params : JsObject) (response : Response) (payload : JSON) :
  cache_miss w (get_cacheKey w endpoint params) w1 →
  APIClient.fetchWithRetry (get_url w endpoint params) 3 w1 = (Returned response, w2) →
  APIClient.response_ok response = true →
  body response = Some payload →
  fault w api_cache_store = None →
  (APIClient.get endpoint params w).1
  = match fault w analytics_store with
    | None => Returned payload
    | Some (c, msg) => Threw (ErrorObject c msg)
    end
  ∧ data <$> api_cache (db (after (APIClient.get endpoint params) w))
               !! get_cacheKey w endpoint params
    = Some payload.
Proof.
  intros (v & Hc & Hv) Hfetch Hok Hbody Hcf.
  destruct (getCachedResponse_frame (get_cacheKey w endpoint params) w) as [c' Hw1].
  unfold after in Hw1. rewrite Hc in Hw1. cbn [snd] in Hw1.
  assert (fault w1 = fault w) as Hfw1 by (by rewrite Hw1). clear Hw1.
  pose proof (fetchWithRetry_same_store (get_url w endpoint params) 3 w1) as Hs.
  unfold after in Hs. rewrite Hfetch in Hs. destruct Hs as (_ & Hfault & _).
  cbn [snd] in Hfault.
  assert (fault w2 = fault w) as Hf2 by (by rewrite Hfault).
  set (w3 := set_db (set_api_cache
                       (<[get_cacheKey w endpoint params :=
                            mkCacheEntry (get_cacheKey w endpoint params) payload
                                         (clock w2) (10 * 60 * 1000)]>
                          (api_cache (db w2))) (db w2)) w2).
  assert (get_respond (get_cacheKey w endpoint params) endpoint response w2
          = match dbHelpers.trackEvent "api_call"
                    (api_call_data endpoint (resp_status response)) w3 with
            | (Returned _, w4) => (Returned payload, w4)
            | (Threw t, w4) => (Threw t, w4)
            end) as Hrespond.
  { unfold get_respond. rewrite Hok. cbn [negb].
    unfold mbind, Async_bind, bind, APIClient.response_json. rewrite Hbody.
    unfold mret at 1, Async_ret, ret at 1.
    rewrite cacheAPIResponse_ok by (by rewrite Hf2). fold w3.
    by destruct (dbHelpers.trackEvent _ _ w3) as [[?|?] ?]. }
  assert (fault w3 = fault w) as Hf3 by exact Hf2.
  assert (data <$> api_cache (db w3) !! get_cacheKey w endpoint params = Some payload)
    as Hstored.
  { unfold w3. cbn [db set_db api_cache set_api_cache].
    by rewrite lookup_insert_eq. }
  unfold after. rewrite get_unfold, Hc, Hv, get_network, Hfetch, Hrespond.
  destruct (fault w analytics_store) as [[c msg]|] eqn:Ha.
  - rewrite (trackEvent_fault _ _ _ c msg) by (by rewrite Hf3).
    rewrite (get_catch_fault _ _ _ c msg) by (by rewrite Hf3).
    done.
  - rewrite trackEvent_ok by (by rewrite Hf3). done.
Qed.

Lemma get_tracking_failure_propagates_witness :
  let w := session_with analytics_full empty_db 1000 (serving 200 popular_page) in
  (APIClient.get "/movie/popular" [("page", PNumber 1)] w).1
  = match fault w analytics_store with
    | None => Returned popular_page
    | Some (c, msg) => Threw (ErrorObject c msg)
    end
  ∧ data <$> api_cache (db (after (APIClient.get "/movie/popular" [("page", PNumber 1)]) w))
               !! get_cacheKey w "/movie/popular" [("page", PNumber 1)]
    = Some popular_page.
Proof.
  intros w.
  apply (get_tracking_failure_propagates w w
           (after (APIClient.fetchWithRetry popular_url 3) w)
           "/movie/popular" [("page", PNumber 1)]
           (mkResponse 200 ∅ (Some popular_page)) popular_page).
  - exists JNull. split; vm_compute; reflexivity.
  - vm_compute. reflexivity.
  - reflexivity.
  - reflexivity.
  - reflexivity.
Defined.

(** C5, as stated, fails when the analytics collection is full: the fetch
    answers 200 with a payload, the payload is cached, and [get] still
    rejects, with the error of the analytics write. *)
Lemma get_fails_when_tracking_fails :
  let w := session_with analytics_full empty_db 1000 (serving 200 popular_page) in
  let w' := after (APIClient.get "/movie/popular" [("page", PNumber 1)]) w in
  (APIClient.fetchWithRetry popular_url 3 w).1
  = Returned (mkResponse 200 ∅ (Some popular_page))
  ∧ data <$> api_cache (db w') !! popular_key = Some popular_page
  ∧ (APIClient.get "/movie/popular" [("page", PNumber 1)] w).1
    = Threw (ErrorObject (DOMException "QuotaExceededError")
                         "The quota has been exceeded.")
  ∧ (APIClient.get "/movie/popular" [("page", PNumber 1)] w).1
    ≠ Returned popular_page.
Proof.
  intros w w'. split_and!; try (vm_compute; reflexivity).
  vm_compute. discriminate.
Qed.

(** ** Cache idempotence *)

(** X2. What holds of the cache: a payload that went through the network and
    is truthy is served from the cache, without a fetch and without a
    write, by any later call made while [now - storedAt <= 600000]. *)
Lemma get_cache_idempotent (w w1 w' : World) (endpoint : string)
    (params : JsObject) (payload : JSON) (now : Z) :
  cache_miss w (get_cacheKey w endpoint params) w1 →
  APIClient.get endpoint params w = (Returned payload, w') →
  truthy payload = true →
  now - clock w' ≤ 600000 →
  APIClient.get endpoint params (set_clock now w')
  = (Returned payload, set_clock now w').
Proof.
  intros (v & Hc & Hv) Hget Htruthy Hnow.
  destruct (getCachedResponse_frame (get_cacheKey w endpoint params) w) as [c' Hw1].
  unfold after in Hw1. rewrite Hc in Hw1. cbn [snd] in Hw1.
  assert (apiKey w1 = apiKey w) as Hk1 by (by rewrite Hw1). clear Hw1.
  rewrite get_unfold, Hc, Hv, get_network in Hget.
  pose proof (fetchWithRetry_same_store (get_url w endpoint params) 3 w1) as Hs.
  unfold after in Hs.
  destruct (APIClient.fetchWithRetry _ 3 w1) as [[resp|t] w2]; cbn [snd] in Hs.
  - destruct (get_respond _ endpoint resp w2) as [[d|t] w3] eqn:Hr.
    + injection Hget as -> ->.
      apply get_respond_returned in Hr as (_ & _ & Hcf & _ & ->).
      destruct Hs as (_ & _ & _ & _ & Hk2 & _).
      rewrite get_unfold.
      assert (get_cacheKey (set_clock now
                (set_db (set_analytics
                   (analytics (db w2)
                    ++ [mkUsageEvent "api_call"
                          (api_call_data endpoint (resp_status resp)) (clock w2)])
                   (set_api_cache
                      (<[get_cacheKey w endpoint params :=
                           mkCacheEntry (get_cacheKey w endpoint params) payload
                                        (clock w2) 600000]> (api_cache (db w2)))
                      (db w2))) w2)) endpoint params
              = get_cacheKey w endpoint params) as ->.
      { unfold get_cacheKey. cbn [apiKey set_clock set_db]. by rewrite Hk2, Hk1. }
      rewrite (getCachedResponse_live _ _
                 (mkCacheEntry (get_cacheKey w endpoint params) payload (clock w2) 600000)).
      * cbn [data]. by rewrite Htruthy.
      * exact Hcf.
      * cbn [db set_clock set_db api_cache set_analytics set_api_cache].
        apply lookup_insert_eq.
      * cbn [clock set_clock set_db cache_timestamp ttl] in *. lia.
    + destruct (get_catch_throws endpoint t w3) as (t' & w4 & Hcatch).
      rewrite Hcatch in Hget. discriminate.
  - destruct (get_catch_throws endpoint t w2) as (t' & w4 & Hcatch).
    rewrite Hcatch in Hget. discriminate.
Qed.

Lemma get_cache_idempotent_witness :
  let w := session empty_db 1000 (serving 200 popular_page) in
  let w' := after (APIClient.get "/movie/popular" [("page", PNumber 1)]) w in
  APIClient.get "/movie/popular" [("page", PNumber 1)] (set_clock 601000 w')
  = (Returned popular_page, set_clock 601000 w').
Proof.
  intros w w'.
  apply (get_cache_idempotent w w w' "/movie/popular" [("page", PNumber 1)]).
  - exists JNull. split; vm_compute; reflexivity.
  - vm_compute. reflexivity.
  - reflexivity.
  - vm_compute. discriminate.
Defined.

(** C3. The failing case: the upstream answers 200 with the payload [0].
    The first call returns it and stores it; the second call, one
    millisecond later, reads the entry, finds its payload falsy, goes to
    the network again and returns the new answer. *)
Theorem get_falsy_payload_refetched :
  let w := session empty_db 1000 counting in
  let first := APIClient.get "/movie/popular" [("page", PNumber 1)] w in
  let second :=
    APIClient.get "/movie/popular" [("page", PNumber 1)] (set_clock 1001 first.2) in
  first.1 = Returned (JNum 0)
  ∧ api_cache (db first.2) !! popular_key
    = Some (mkCacheEntry popular_key (JNum 0) 1000 600000)
  ∧ trace first.2 = [Fetch popular_url]
  ∧ second.1 = Returned (JNum 1)
  ∧ trace second.2 = [Fetch popular_url; Fetch popular_url].
Proof. intros w first second. split_and!; vm_compute; reflexivity. Qed.

(** ** The retry budget *)

Lemma retry_schedule_default (url : string) :
  retry_schedule url 3
  = [Fetch url; Sleep 1000; Fetch url; Sleep 2000; Fetch url; Sleep 4000; Fetch url].
Proof. reflexivity. Qed.

(** An [APIError] built from a plain error body is not taken for a
    network error. *)
Lemma plain_error_not_network (r : Response) :
  plain_error_body (body r) →
  APIClient.isNetworkError
    (APIErrorObject {| api_message := error_message r;
                       api_status := Some (resp_status r);
                       api_isNetworkError := false |}) = false.
Proof.
  intros [_ Hplain]. cbn [APIClient.isNetworkError api_message].
  unfold error_message, APIClient.or_else.
  destruct (body r) as [[| | | | |fields]|]; try reflexivity.
  destruct (assoc "status_message" fields) as [v|] eqn:Hv; [|reflexivity].
  destruct (truthy v); [|reflexivity].
  destruct v; try reflexivity. by eapply Hplain.
Qed.

(** X1. What holds of the retry budget: a [get] that misses the cache and
    meets a server that always answers 503 makes exactly four attempts,
    waiting 1 s, 2 s and 4 s between them, and then fails. When the
    [api_error] event can be recorded and the body of the last response is
    a plain error body, the failure is the [APIError] with status 503. *)
Lemma get_503_retry_budget (w w1 : World) (endpoint : string) (params : JsObject) :
  cache_miss w (get_cacheKey w endpoint params) w1 →
  always_503 (server w) →
  ∃ r t w',
    server w (APIClient.attempts (trace w) + 3)%nat (get_url w endpoint params)
    = Responded r
    ∧ APIClient.get endpoint params w = (Threw t, w')
    ∧ trace w' = trace w ++ retry_schedule (get_url w endpoint params) 3
    ∧ APIClient.attempts (trace w') = (APIClient.attempts (trace w) + 4)%nat
    ∧ (fault w analytics_store = None → plain_error_body (body r) →
       t = APIErrorObject {| api_message := error_message r;
                             api_status := Some 503;
                             api_isNetworkError := false |}).
Proof.
  intros (v & Hc & Hv) Hsrv.
  destruct (getCachedResponse_frame (get_cacheKey w endpoint params) w) as [c' Hw1].
  unfold after in Hw1. rewrite Hc in Hw1. cbn [snd] in Hw1.
  assert (server w1 = server w ∧ trace w1 = trace w ∧ fault w1 = fault w)
    as (Hs1 & Ht1 & Hf1) by (by rewrite Hw1).
  clear Hw1.
  destruct (fetchWithRetry_503 (get_url w endpoint params) 3 w1)
    as (r & w2 & Hfetch & Hst & Hr & Ht2 & Hs2); [by rewrite Hs1|].
  rewrite Hs1, Ht1 in Hr. rewrite Ht1 in Ht2.
  destruct Hs2 as (_ & Hf2 & _).
  assert (APIClient.response_ok r = false) as Hok
    by (unfold APIClient.response_ok; by rewrite Hst).
  exists r.
  rewrite get_unfold, Hc, Hv, get_network, Hfetch, get_respond_not_ok by done.
  set (t0 := match body r with Some JNull => _ | _ => _ end).
  destruct (fault w analytics_store) as [[c msg]|] eqn:Ha.
  - rewrite (get_catch_fault _ _ _ c msg) by (by rewrite Hf2, Hf1).
    do 2 eexists. split_and!; [done | reflexivity | done | | done].
    by rewrite Ht2, attempts_app, retry_schedule_attempts.
  - rewrite get_catch_ok by (by rewrite Hf2, Hf1).
    do 2 eexists. split_and!; [done | reflexivity | done | | ].
    + cbn [trace set_db]. by rewrite Ht2, attempts_app, retry_schedule_attempts.
    + intros _ Hplain. pose proof (plain_error_not_network r Hplain) as Hnn.
      assert (t0 = APIErrorObject {| api_message := error_message r;
                                     api_status := Some (resp_status r);
                                     api_isNetworkError := false |}) as ->.
      { subst t0. destruct Hplain as [Hnull _].
        by destruct (body r) as [[| | | | |]|]. }
      rewrite Hnn. by rewrite Hst.
Qed.

Lemma get_503_retry_budget_witness :
  let w := session empty_db 0 (unavailable None) in
  ∃ r t w',
    server w (APIClient.attempts (trace w) + 3)%nat
           (get_url w "/movie/popular" [("page", PNumber 1)])
    = Responded r
    ∧ APIClient.get "/movie/popular" [("page", PNumber 1)] w = (Threw t, w')
    ∧ trace w'
      = trace w ++ retry_schedule (get_url w "/movie/popular" [("page", PNumber 1)]) 3
    ∧ APIClient.attempts (trace w') = (APIClient.attempts (trace w) + 4)%nat
    ∧ (fault w analytics_store = None → plain_error_body (body r) →
       t = APIErrorObject {| api_message := error_message r;
                             api_status := Some 503;
                             api_isNetworkError := false |}).
Proof.
  intros w.
  apply (get_503_retry_budget w w "/movie/popular" [("page", PNumber 1)]).
  - exists JNull. split; vm_compute; reflexivity.
  - intros n url. eexists. split; reflexivity.
Defined.

Lemma get_503_retry_budget_example :
  let w := session empty_db 0 (unavailable None) in
  let url := popular_url in
  APIClient.get "/movie/popular" [("page", PNumber 1)] w
  = (Threw (APIErrorObject {| api_message := JStr "HTTP 503";
                              api_status := Some 503;
                              api_isNetworkError := false |}),
     after (APIClient.get "/movie/popular" [("page", PNumber 1)]) w)
  ∧ trace (after (APIClient.get "/movie/popular" [("page", PNumber 1)]) w)
    = [Fetch url; Sleep 1000; Fetch url; Sleep 2000; Fetch url; Sleep 4000; Fetch url].
Proof. intros w url. split; vm_compute; reflexivity. Qed.

(** C1. The failing case: every attempt is answered 503 with the JSON
    body [null]. The client makes its four attempts with waits of 1 s, 2 s
    and 4 s, and then [get] fails with the network error, which carries no
    status, and not with the [APIError] of status 503. A 503 whose body has
    the [status_message] "Failed to fetch" ends the same way. *)
Theorem get_503_null_body_network_error :
  let w := session empty_db 0 (unavailable (Some JNull)) in
  let result := APIClient.get "/movie/popular" [("page", PNumber 1)] w in
  let w2 := session empty_db 0
              (unavailable (Some (JObj [("status_message", JStr "Failed to fetch")]))) in
  let result2 := APIClient.get "/movie/popular" [("page", PNumber 1)] w2 in
  trace result.2
  = [Fetch popular_url; Sleep 1000; Fetch popular_url; Sleep 2000;
     Fetch popular_url; Sleep 4000; Fetch popular_url]
  ∧ APIClient.attempts (trace result.2) = 4%nat
  ∧ result.1 = Threw APIClient.networkError
  ∧ (∀ e, result.1 = Threw (APIErrorObject e) → api_status e ≠ Some 503)
  ∧ APIClient.attempts (trace result2.2) = 4%nat
  ∧ result2.1 = Threw APIClient.networkError.
Proof.
  intros w result w2 result2. split_and!; try (vm_compute; reflexivity).
  assert (result.1 = Threw APIClient.networkError) as -> by (vm_compute; reflexivity).
  intros e [= <-]. discriminate.
Qed.

(** ** The cache key *)

Lemma own_entries_no_index (o : JsObject) :
  Forall (λ p, array_index p.1 = None) o → own_entries o = o.
Proof.
  intros Ho. unfold own_entries, index_entries.
  assert (omap (λ p : string * ParamValue, (λ n, (n, p)) <$> array_index p.1) o = [])
    as ->.
  { induction Ho as [|p o Hp _ IH]; [done|]. cbn [omap list_omap].
    rewrite Hp. cbn [fmap option_fmap option_map]. exact IH. }
  assert (filter (λ p : string * ParamValue, array_index p.1 = None) o = o) as ->.
  { induction Ho as [|p o Hp _ IH]; [done|].
    rewrite filter_cons_True by done. by rewrite IH. }
  reflexivity.
Qed.

Lemma define_property_fresh (k : string) (v : ParamValue) (o : JsObject) :
  k ∉ o.*1 → define_property k v o = o ++ [(k, v)].
Proof.
  induction o as [|[k' v'] o IH]; intros Hk; [done|].
  cbn [define_property]. apply not_elem_of_cons in Hk as [Hne Hk].
  destruct (String.eqb_spec k k') as [->|_]; [done|].
  by rewrite IH.
Qed.

Lemma spread_fresh (target source : JsObject) :
  NoDup (target.*1 ++ source.*1) →
  foldl (λ acc p, define_property p.1 p.2 acc) target source = target ++ source.
Proof.
  revert target. induction source as [|[k v] source IH]; intros target Hnd.
  - by rewrite app_nil_r.
  - cbn [foldl fst snd]. rewrite define_property_fresh.
    + rewrite IH; [by rewrite <- app_assoc|].
      rewrite fmap_app. cbn [fmap list_fmap fst]. by rewrite <- app_assoc.
    + cbn [fmap list_fmap fst] in Hnd. apply NoDup_app in Hnd as (_ & Hd & _).
      intros Hin. apply (Hd k Hin). left.
Qed.

(** For an ordinary parameter map the query string lists the credential
    and then the parameters in the order in which the map holds them. *)
Lemma urlParams_ordinary (key : string) (params : JsObject) :
  ordinary params →
  APIClient.urlParams key params
  = String.concat "&" (encode_pair <$> ("api_key", PString key) :: params).
Proof.
  intros [Hnd Hall]. unfold APIClient.urlParams, URLSearchParams_toString, spread.
  rewrite (own_entries_no_index params)
    by (eapply Forall_impl; [exact Hall | by intros ? [? _]]).
  rewrite spread_fresh.
  - rewrite own_entries_no_index; [done|].
    constructor; [reflexivity|].
    eapply Forall_impl; [exact Hall | by intros ? [? _]].
  - cbn [fmap list_fmap fst app]. constructor; [|done].
    intros Hin. apply list_elem_of_fmap in Hin as (p & Hp & Hin).
    rewrite Forall_forall in Hall. by destruct (Hall p Hin) as [_ []].
Qed.

(** *** The query string determines the parameters and their order *)

Lemma string_app_cons (x : ascii) (a b : string) :
  String x a +:+ b = String x (a +:+ b).
Proof. reflexivity. Qed.

Lemma string_app_assoc (a b c : string) : (a +:+ b) +:+ c = a +:+ (b +:+ c).
Proof.
  induction a as [|x a IH]; [done|]. by rewrite !string_app_cons, IH.
Qed.

Lemma decode_head_encode (c : ascii) (r : string) :
  decode_head (urlencode_byte c +:+ r) = Some (c, r).
Proof. destruct c as [[] [] [] [] [] [] [] []]; reflexivity. Qed.

Lemma is_tail_encode (c : ascii) (r : string) :
  is_tail (urlencode_byte c +:+ r) = false.
Proof. destruct c as [[] [] [] [] [] [] [] []]; reflexivity. Qed.

Lemma urlencode_cons (c : ascii) (s r : string) :
  urlencode (String c s) +:+ r = urlencode_byte c +:+ (urlencode s +:+ r).
Proof. cbn [urlencode]. apply string_app_assoc. Qed.

(** An encoded string followed by a tail determines both. *)
Lemma urlencode_inj_tail (s1 s2 t1 t2 : string) :
  is_tail t1 = true → is_tail t2 = true →
  urlencode s1 +:+ t1 = urlencode s2 +:+ t2 → s1 = s2 ∧ t1 = t2.
Proof.
  revert s2. induction s1 as [|c1 s1 IH]; intros [|c2 s2] Ht1 Ht2 Heq.
  - done.
  - rewrite urlencode_cons in Heq. change (urlencode "" +:+ t1) with t1 in Heq.
    rewrite Heq, is_tail_encode in Ht1. discriminate.
  - rewrite urlencode_cons in Heq. change (urlencode "" +:+ t2) with t2 in Heq.
    rewrite <- Heq, is_tail_encode in Ht2. discriminate.
  - rewrite !urlencode_cons in Heq.
    apply (f_equal decode_head) in Heq. rewrite !decode_head_encode in Heq.
    injection Heq as -> Heq.
    destruct (IH s2 Ht1 Ht2 Heq) as [-> ->]. done.
Qed.

Lemma encode_pair_inj_tail (p1 p2 : string * ParamValue) (t1 t2 : string) :
  is_tail t1 = true → is_tail t2 = true →
  encode_pair p1 +:+ t1 = encode_pair p2 +:+ t2 →
  stringified p1 = stringified p2 ∧ t1 = t2.
Proof.
  intros Ht1 Ht2 Heq. unfold encode_pair in Heq.
  rewrite !string_app_assoc in Heq.
  apply urlencode_inj_tail in Heq as [Hname Heq]; [|done..].
  injection Heq as Heq.
  apply urlencode_inj_tail in Heq as [Hvalue Heq]; [|done..].
  unfold stringified. by rewrite Hname, Hvalue.
Qed.

Lemma concat_cons (x : string) (l : list string) :
  String.concat "&" (x :: l) = x +:+ query_rest l.
Proof.
  destruct l as [|y l]; cbn [String.concat query_rest].
  - induction x as [|c x IH]; [done | by rewrite string_app_cons, <- IH].
  - done.
Qed.

Lemma query_rest_cons (x : string) (l : list string) :
  query_rest (x :: l) = String "&" (x +:+ query_rest l).
Proof. unfold query_rest at 1. by rewrite concat_cons. Qed.

Lemma is_tail_query_rest (l : list string) : is_tail (query_rest l) = true.
Proof. by destruct l. Qed.

Lemma query_rest_inj (l1 l2 : list (string * ParamValue)) :
  query_rest (encode_pair <$> l1) = query_rest (encode_pair <$> l2) →
  stringified <$> l1 = stringified <$> l2.
Proof.
  revert l2. induction l1 as [|p1 l1 IH]; intros [|p2 l2] Heq; try done.
  rewrite !fmap_cons, !query_rest_cons in Heq. injection Heq as Heq.
  apply encode_pair_inj_tail in Heq as [Hp Heq]; [|apply is_tail_query_rest..].
  cbn [fmap list_fmap]. rewrite Hp. f_equal. by apply IH.
Qed.

Lemma encode_pair_stringified (l1 l2 : list (string * ParamValue)) :
  stringified <$> l1 = stringified <$> l2 → encode_pair <$> l1 = encode_pair <$> l2.
Proof.
  intros Heq.
  assert (∀ l : list (string * ParamValue),
            encode_pair <$> l
            = (λ q : string * string, urlencode q.1 +:+ "=" +:+ urlencode q.2)
                <$> (stringified <$> l)) as Hvia.
  { intros l. by rewrite <- list_fmap_compose. }
  by rewrite (Hvia l1), (Hvia l2), Heq.
Qed.

(** For ordinary parameter maps the cache keys agree exactly when the
    maps hold the same names and stringified values in the same order. *)
Lemma cacheKey_ordinary_iff (key endpoint : string) (p1 p2 : JsObject) :
  ordinary p1 → ordinary p2 →
  APIClient.cacheKey key endpoint p1 = APIClient.cacheKey key endpoint p2
  ↔ stringified <$> p1 = stringified <$> p2.
Proof.
  intros H1 H2. unfold APIClient.cacheKey.
  rewrite !urlParams_ordinary by done. split.
  - intros Heq. do 3 apply String.app_inj in Heq.
    cbn [fmap list_fmap] in Heq.
    change (list_fmap _ _ encode_pair ?l) with (encode_pair <$> l) in Heq.
    rewrite !concat_cons in Heq. apply String.app_inj in Heq.
    by apply query_rest_inj.
  - intros Heq. cbn [fmap list_fmap].
    change (list_fmap _ _ encode_pair ?l) with (encode_pair <$> l).
    by rewrite (encode_pair_stringified p1 p2).
Qed.

(** C2 (amended). The cache key is built from the parameters in the
    enumeration order of the map, with no sorting. Two maps that enumerate
    the same pairs in the same order get the same key. For ordinary maps
    (distinct names, none an array index, none [api_key]) the keys agree
    exactly when the maps hold the same names and stringified values in
    the same order, so a reordering of distinct names changes the key. *)
Theorem get_cacheKey_same_order (w : World) (endpoint : string) (p1 p2 : JsObject) :
  (own_entries p1 = own_entries p2 →
   get_cacheKey w endpoint p1 = get_cacheKey w endpoint p2)
  ∧ (ordinary p1 → ordinary p2 →
     (get_cacheKey w endpoint p1 = get_cacheKey w endpoint p2
      ↔ stringified <$> p1 = stringified <$> p2)).
Proof.
  split.
  - intros Heq.
    unfold get_cacheKey, APIClient.cacheKey, APIClient.urlParams, spread.
    by rewrite Heq.
  - intros H1 H2. by apply cacheKey_ordinary_iff.
Qed.

Lemma get_cacheKey_same_order_witness :
  let w := session empty_db 0 offline in
  let p1 := [("query", PString "dune"); ("2", PNumber 5); ("1", PBoolean true)] in
  let p2 := [("1", PBoolean true); ("query", PString "dune"); ("2", PNumber 5)] in
  let q1 := [("query", PString "1"); ("page", PNumber 1)] in
  let q2 := [("query", PNumber 1); ("page", PString "1")] in
  get_cacheKey w "/search/movie" p1 = get_cacheKey w "/search/movie" p2
  ∧ get_cacheKey w "/search/movie" q1 = get_cacheKey w "/search/movie" q2.
Proof.
  intros w p1 p2 q1 q2. split.
  - apply (proj1 (get_cacheKey_same_order w "/search/movie" p1 p2)).
    vm_compute. reflexivity.
  - apply (proj2 (get_cacheKey_same_order w "/search/movie" q1 q2)).
    + split; [by apply (bool_decide_unpack _)|].
      repeat constructor; vm_compute; congruence.
    + split; [by apply (bool_decide_unpack _)|].
      repeat constructor; vm_compute; congruence.
    + reflexivity.
Defined.

(** C2, as stated, fails: two maps with the same two pairs in different
    orders get different cache keys, so that the second call misses the
    entry stored by the first and goes to the network. *)
Lemma get_cacheKey_order_sensitive :
  let w := session empty_db 1000 (serving 200 popular_page) in
  let p1 := [("query", PString "dune"); ("page", PNumber 1)] in
  let p2 := [("page", PNumber 1); ("query", PString "dune")] in
  p1 ≡ₚ p2
  ∧ get_cacheKey w "/search/movie" p1
    = "GET:/search/movie:api_key=demo-key&query=dune&page=1"
  ∧ get_cacheKey w "/search/movie" p2
    = "GET:/search/movie:api_key=demo-key&page=1&query=dune"
  ∧ get_cacheKey w "/search/movie" p1 ≠ get_cacheKey w "/search/movie" p2
  ∧ APIClient.attempts
      (trace (after (APIClient.get "/search/movie" p2)
                    (after (APIClient.get "/search/movie" p1) w))) = 2%nat.
Proof.
  intros w p1 p2. split_and!.
  - apply Permutation_swap.
  - vm_compute. reflexivity.
  - vm_compute. reflexivity.
  - vm_compute. discriminate.
  - vm_compute. reflexivity.
Qed.

(** * The retry pipeline, case by case *)

(** ** More on the retry pipeline *)

Lemma wait_returns (t : option Z) (w : World) :
  APIClient.wait t w = (Returned tt, after (APIClient.wait t) w).
Proof. reflexivity. Qed.

Lemma attempts_log_fetch (url : string) (w : World) :
  APIClient.attempts (trace (log (Fetch url) w)) = S (APIClient.attempts (trace w)).
Proof.
  cbn [trace log]. rewrite attempts_app.
  change (APIClient.attempts [Fetch url]) with 1%nat. lia.
Qed.

Lemma attempts_wait (t : option Z) (w : World) :
  APIClient.attempts (trace (after (APIClient.wait t) w)) = APIClient.attempts (trace w).
Proof.
  unfold after. cbn [APIClient.wait snd trace set_clock log]. rewrite attempts_app.
  change (APIClient.attempts [Sleep _]) with 0%nat. lia.
Qed.

(** Every activation makes exactly one fetch. *)
Lemma attempt_one_fetch (url : string) (retries : nat) (w : World) :
  APIClient.attempts (trace (after (APIClient.attempt url retries) w))
  = S (APIClient.attempts (trace w)).
Proof.
  pose proof (attempts_log_fetch url w) as Hlog.
  unfold after, APIClient.attempt, try_catch, mbind, Async_bind, bind.
  unfold APIClient.fetch.
  destruct (server w (APIClient.attempts (trace w)) url) as [r|c msg].
  - rewrite parseRateLimitHeaders_returns.
    destruct (parseRateLimitHeaders_frame r (log (Fetch url) w)) as (_ & Ht & _).
    set (w1 := after (APIClient.parseRateLimitHeaders r) (log (Fetch url) w)) in *.
    rewrite <- Ht in Hlog.
    unfold mret, Async_ret, ret.
    repeat case_match; simplify_eq/=; try done;
      repeat match goal with
             | H : APIClient.wait ?t ?w = _ |- _ =>
                 rewrite wait_returns in H; injection H as <- <-
             end; by rewrite ?attempts_wait.
  - unfold mret, Async_ret, ret, throw.
    repeat case_match; simplify_eq/=; try done;
      repeat match goal with
             | H : APIClient.wait ?t ?w = _ |- _ =>
                 rewrite wait_returns in H; injection H as <- <-
             end; by rewrite ?attempts_wait.
Qed.

(** [fetchWithRetry] makes at least one fetch and at most [retries + 1]. *)
Lemma fetchWithRetry_attempts (url : string) (retries : nat) (w : World) :
  let made := (APIClient.attempts (trace (after (APIClient.fetchWithRetry url retries) w))
               - APIClient.attempts (trace w))%nat in
  (1 ≤ made ≤ retries + 1)%nat.
Proof.
  cbv zeta. revert w. induction retries as [|k IH]; intros w.
  - pose proof (attempt_one_fetch url 0 w) as H1.
    unfold after in *. cbn [APIClient.fetchWithRetry].
    unfold mbind, Async_bind, bind, throw, mret, Async_ret, ret.
    destruct (APIClient.attempt url 0 w) as [[[r|]|t] w1]; cbn [snd] in *; lia.
  - pose proof (attempt_one_fetch url (S k) w) as H1.
    unfold after in *. cbn [APIClient.fetchWithRetry].
    unfold mbind, Async_bind, bind, throw, mret, Async_ret, ret.
    destruct (APIClient.attempt url (S k) w) as [[[r|]|t] w1]; cbn [snd] in *;
      try lia.
    specialize (IH w1). lia.
Qed.

Lemma request_trace {A} (s : StoreName) (f : DB → Outcome A * DB) (w : World) :
  trace (after (request s f) w) = trace w.
Proof.
  unfold after, request. destruct (fault w s) as [[??]|]; [done|].
  by destruct (f (db w)).
Qed.

Lemma trackEvent_trace (act : string) (v : JSON) (w : World) :
  trace (after (dbHelpers.trackEvent act v) w) = trace w.
Proof.
  unfold dbHelpers.trackEvent, after, mbind, Async_bind, bind, Date_now.
  apply (request_trace analytics_store).
Qed.

Lemma cacheAPIResponse_trace (k : string) (v : JSON) (m : Z) (w : World) :
  trace (after (dbHelpers.cacheAPIResponse k v m) w) = trace w.
Proof.
  unfold dbHelpers.cacheAPIResponse, after, mbind, Async_bind, bind, Date_now.
  apply (request_trace api_cache_store).
Qed.

Lemma get_catch_trace (endpoint : string) (t : Thrown) (w : World) :
  trace (after (get_catch endpoint t) w) = trace w.
Proof.
  pose proof (trackEvent_trace "api_error" (api_error_data endpoint t) w) as H.
  unfold after, get_catch, mbind, Async_bind, bind in *.
  destruct (dbHelpers.trackEvent _ _ w) as [[?|?] w1]; [|done].
  by destruct (APIClient.isNetworkError t).
Qed.

Lemma get_respond_trace (cacheKey endpoint : string) (r : Response) (w : World) :
  trace (after (get_respond cacheKey endpoint r) w) = trace w.
Proof.
  destruct (APIClient.response_ok r) eqn:Hok.
  - unfold after, get_respond. rewrite Hok. cbn [negb].
    unfold mbind, Async_bind, bind, APIClient.response_json.
    destruct (body r) as [d|]; [|done].
    unfold mret at 1, Async_ret, ret at 1.
    pose proof (cacheAPIResponse_trace cacheKey d 10 w) as H1. unfold after in H1.
    destruct (dbHelpers.cacheAPIResponse cacheKey d 10 w) as [[?|?] w1]; [|done].
    pose proof (trackEvent_trace "api_call"
                  (api_call_data endpoint (resp_status r)) w1) as H2.
    unfold after in H2.
    unfold mret, Async_ret, ret.
    destruct (dbHelpers.trackEvent _ _ w1) as [[?|?] w2]; cbn [snd] in *; congruence.
  - unfold after. by rewrite get_respond_not_ok.
Qed.

(** X5. No call to [get] makes more than four fetches, whatever the
    cache, the server and the store do. *)
Theorem get_attempts_bound (w : World) (endpoint : string) (params : JsObject) :
  (APIClient.attempts (trace w)
   ≤ APIClient.attempts (trace (after (APIClient.get endpoint params) w))
   ≤ APIClient.attempts (trace w) + 4)%nat.
Proof.
  unfold after. rewrite get_unfold.
  destruct (getCachedResponse_frame (get_cacheKey w endpoint params) w) as [c' Hw1].
  unfold after in Hw1.
  destruct (dbHelpers.getCachedResponse _ w) as [[cached|t] w1]; cbn [snd] in *.
  - assert (trace w1 = trace w) as Ht by (by rewrite Hw1).
    destruct (truthy cached); [cbn [snd]; rewrite Ht; lia|].
    rewrite get_network.
    pose proof (fetchWithRetry_attempts (get_url w endpoint params) 3 w1) as Hb.
    cbv zeta in Hb. unfold after in Hb. rewrite Ht in Hb.
    destruct (APIClient.fetchWithRetry _ 3 w1) as [[resp|t] w2]; cbn [snd] in *.
    + pose proof (get_respond_trace (get_cacheKey w endpoint params) endpoint resp w2)
        as Hr. unfold after in Hr.
      destruct (get_respond _ endpoint resp w2) as [[d|t] w3]; cbn [snd] in *.
      * rewrite Hr. lia.
      * pose proof (get_catch_trace endpoint t w3) as Hc. unfold after in Hc.
        rewrite Hc, Hr. lia.
    + pose proof (get_catch_trace endpoint t w2) as Hc. unfold after in Hc.
      rewrite Hc. lia.
  - rewrite Hw1. cbn [trace set_db]. lia.
Qed.

(** What one activation does with a response, and with a rejection. *)
Lemma attempt_responded (url : string) (retries : nat) (w : World) (r : Response) :
  server w (APIClient.attempts (trace w)) url = Responded r →
  let w1 := after (APIClient.parseRateLimitHeaders r) (log (Fetch url) w) in
  APIClient.attempt url retries w
  = if resp_status r =? 429 then
      if (0 <? retries)%nat then
        (Returned APIClient.Recur,
         after (APIClient.wait
                  match APIClient.present (headers r !! "retry-after") with
                  | Some s => (λ n, n * 1000) <$> parseInt s
                  | None => Some 1000
                  end) w1)
      else (Returned (APIClient.Return r), w1)
    else if (500 <=? resp_status r) && (0 <? retries)%nat then
      (Returned APIClient.Recur,
       after (APIClient.wait (Some (APIClient.backoff retries))) w1)
    else (Returned (APIClient.Return r), w1).
Proof.
  intros Hsrv w1. subst w1.
  unfold APIClient.attempt, try_catch.
  unfold mbind at 1, Async_bind, bind at 1.
  unfold APIClient.fetch at 1. rewrite Hsrv.
  unfold mbind at 1, bind at 1.
  rewrite parseRateLimitHeaders_returns.
  destruct (resp_status r =? 429) eqn:H429.
  - destruct (0 <? retries)%nat; [reflexivity|].
    apply Z.eqb_eq in H429. rewrite H429. reflexivity.
  - destruct ((500 <=? resp_status r) && (0 <? retries)%nat); reflexivity.
Qed.

Lemma attempt_rejected (url : string) (retries : nat) (w : World) c msg :
  server w (APIClient.attempts (trace w)) url = Rejected c msg →
  APIClient.attempt url retries w
  = if APIClient.isAbortError (ErrorObject c msg) then
      (Threw (ErrorObject PlainError "Request timeout"), log (Fetch url) w)
    else if (0 <? retries)%nat && APIClient.isNetworkError (ErrorObject c msg) then
      (Returned APIClient.Recur,
       after (APIClient.wait (Some (APIClient.backoff retries))) (log (Fetch url) w))
    else (Threw (ErrorObject c msg), log (Fetch url) w).
Proof.
  intros Hsrv.
  unfold APIClient.attempt, try_catch.
  unfold mbind at 1, Async_bind, bind at 1.
  unfold APIClient.fetch at 1. rewrite Hsrv.
  destruct (APIClient.isAbortError (ErrorObject c msg)); [reflexivity|].
  destruct ((0 <? retries)%nat && APIClient.isNetworkError (ErrorObject c msg));
    reflexivity.
Qed.

Lemma backoff_nonneg (retries : nat) : 0 ≤ APIClient.backoff retries.
Proof.
  unfold APIClient.backoff. apply Z.mul_nonneg_nonneg; [|lia].
  destruct (Z.le_gt_cases 0 (3 - Z.of_nat retries)).
  - by apply Z.pow_nonneg.
  - by rewrite Z.pow_neg_r.
Qed.

(** The frame and the log of "fetch, read the headers, wait". *)
Lemma fetched_then_waited (url : string) (r : Response) (t : option Z) (w : World) :
  let w' := after (APIClient.wait t)
              (after (APIClient.parseRateLimitHeaders r) (log (Fetch url) w)) in
  same_store w w'
  ∧ trace w' = trace w ++ [Fetch url; Sleep match t with
                                            | Some n => Z.max 0 n
                                            | None => 0
                                            end]
  ∧ clock w' = clock w + match t with Some n => Z.max 0 n | None => 0 end.
Proof.
  destruct (parseRateLimitHeaders_frame r (log (Fetch url) w))
    as ((?&?&?&?&?&?&?) & Ht & Hc).
  cbv zeta.
  set (w1 := after (APIClient.parseRateLimitHeaders r) (log (Fetch url) w)) in *.
  unfold after. cbn [APIClient.wait snd].
  split; [by split_and!|].
  cbn [trace clock set_clock log]. rewrite Ht, Hc. cbn [trace clock log].
  by rewrite <- app_assoc.
Qed.

Lemma fetched (url : string) (r : Response) (w : World) :
  let w' := after (APIClient.parseRateLimitHeaders r) (log (Fetch url) w) in
  same_store w w' ∧ trace w' = trace w ++ [Fetch url] ∧ clock w' = clock w.
Proof.
  destruct (parseRateLimitHeaders_frame r (log (Fetch url) w))
    as ((?&?&?&?&?&?&?) & Ht & Hc).
  cbv zeta. split; [by split_and!|]. by rewrite Ht, Hc.
Qed.

(** When the first [k] answers are server errors and the next one is
    neither a server error nor a 429, [fetchWithRetry] returns that answer
    after [k + 1] fetches and the backoff waits between them. *)
Lemma fetchWithRetry_recovers (url : string) (retries k : nat) (w : World) (r : Response) :
  (k ≤ retries)%nat →
  (∀ i, (i < k)%nat →
        ∃ ri, server w (APIClient.attempts (trace w) + i)%nat url = Responded ri
              ∧ 500 ≤ resp_status ri) →
  server w (APIClient.attempts (trace w) + k)%nat url = Responded r →
  resp_status r < 500 → resp_status r ≠ 429 →
  ∃ w', APIClient.fetchWithRetry url retries w = (Returned r, w')
        ∧ trace w' = trace w ++ recovery_schedule url retries k
        ∧ same_store w w'.
Proof.
  revert retries w. induction k as [|k IH]; intros retries w Hk Hbad Hr Hlt Hne.
  - rewrite Nat.add_0_r in Hr.
    destruct (fetched url r w) as (Hs & Ht & _).
    eexists. split; [|split; [|exact Hs]].
    + destruct retries; cbn [APIClient.fetchWithRetry];
        unfold mbind, Async_bind, bind;
        rewrite (attempt_responded _ _ _ _ Hr); cbv zeta;
        rewrite (proj2 (Z.eqb_neq _ _) Hne);
        rewrite (proj2 (Z.leb_gt _ _) Hlt); reflexivity.
    + rewrite Ht. by destruct retries.
  - destruct retries as [|retries]; [lia|].
    destruct (Hbad 0%nat) as (r0 & Hr0 & H500); [lia|].
    rewrite Nat.add_0_r in Hr0.
    destruct (fetched_then_waited url r0 (Some (APIClient.backoff (S retries))) w)
      as (Hs & Ht & _).
    set (w1 := after (APIClient.wait _) _) in *.
    assert (server w1 = server w) as Hsrv by apply Hs.
    assert (APIClient.attempts (trace w1) = S (APIClient.attempts (trace w))) as Ha.
    { rewrite Ht, attempts_app. change (APIClient.attempts [_; _]) with 1%nat. lia. }
    destruct (IH retries w1) as (w' & Hf & Ht' & Hs'); [lia| | |done..|].
    { intros i Hi. rewrite Hsrv, Ha.
      destruct (Hbad (S i)) as (ri & Hri & ?); [lia|].
      exists ri. split; [|done]. by rewrite <- Hri, Nat.add_succ_r. }
    { rewrite Hsrv, Ha. by rewrite <- Hr, Nat.add_succ_r. }
    exists w'. split; [|split].
    + cbn [APIClient.fetchWithRetry]. unfold mbind, Async_bind, bind.
      rewrite (attempt_responded _ _ _ _ Hr0). cbv zeta.
      assert ((resp_status r0 =? 429) = false) as -> by (apply Z.eqb_neq; lia).
      assert ((500 <=? resp_status r0) = true) as -> by (by apply Z.leb_le).
      cbn [andb Nat.ltb Nat.leb]. exact Hf.
    + rewrite Ht', Ht. rewrite Z.max_r by apply backoff_nonneg.
      cbn [recovery_schedule]. by rewrite <- app_assoc.
    + by eapply same_store_trans.
Qed.

(** ** [get] after the retry pipeline *)

Lemma cache_miss_frame (w w1 : World) (k : string) :
  cache_miss w k w1 →
  fault w1 = fault w ∧ trace w1 = trace w ∧ server w1 = server w
  ∧ analytics (db w1) = analytics (db w) ∧ apiKey w1 = apiKey w.
Proof.
  intros (v & Hc & _).
  destruct (getCachedResponse_frame k w) as [c' Hw1].
  unfold after in Hw1. rewrite Hc in Hw1. cbn [snd] in Hw1. by rewrite Hw1.
Qed.

(** The outcome of a [get] that misses the cache, by the outcome of the
    retry pipeline. *)
Lemma get_miss_returned (w w1 w2 : World) (endpoint : string) (params : JsObject)
    (r : Response) (d : JSON) :
  cache_miss w (get_cacheKey w endpoint params) w1 →
  APIClient.fetchWithRetry (get_url w endpoint params) 3 w1 = (Returned r, w2) →
  APIClient.response_ok r = true → body r = Some d →
  fault w api_cache_store = None → fault w analytics_store = None →
  APIClient.get endpoint params w
  = (Returned d,
     set_db (set_analytics
               (analytics (db w2)
                ++ [mkUsageEvent "api_call" (api_call_data endpoint (resp_status r))
                                 (clock w2)])
               (set_api_cache
                  (<[get_cacheKey w endpoint params :=
                       mkCacheEntry (get_cacheKey w endpoint params) d (clock w2) 600000]>
                     (api_cache (db w2))) (db w2))) w2).
Proof.
  intros Hmiss Hfetch Hok Hbody Hcf Haf.
  destruct (cache_miss_frame _ _ _ Hmiss) as (Hf1 & _).
  destruct Hmiss as (v & Hc & Hv).
  pose proof (fetchWithRetry_same_store (get_url w endpoint params) 3 w1) as Hs.
  unfold after in Hs. rewrite Hfetch in Hs. destruct Hs as (_ & Hf2 & _).
  cbn [snd] in Hf2.
  rewrite get_unfold, Hc, Hv, get_network, Hfetch.
  unfold get_respond. rewrite Hok. cbn [negb].
  unfold mbind, Async_bind, bind, APIClient.response_json. rewrite Hbody.
  unfold mret at 1, Async_ret, ret at 1.
  rewrite cacheAPIResponse_ok by (by rewrite Hf2, Hf1).
  rewrite trackEvent_ok by (by cbn; rewrite Hf2, Hf1).
  reflexivity.
Qed.

Lemma get_miss_error_response (w w1 w2 : World) (endpoint : string)
    (params : JsObject) (r : Response) :
  cache_miss w (get_cacheKey w endpoint params) w1 →
  APIClient.fetchWithRetry (get_url w endpoint params) 3 w1 = (Returned r, w2) →
  APIClient.response_ok r = false → plain_error_body (body r) →
  fault w analytics_store = None →
  APIClient.get endpoint params w
  = (Threw (APIErrorObject {| api_message := error_message r;
                              api_status := Some (resp_status r);
                              api_isNetworkError := false |}),
     set_db (set_analytics
               (analytics (db w2)
                ++ [mkUsageEvent "api_error"
                      (JObj [("endpoint", JStr endpoint); ("error", JStr "Unknown error")])
                      (clock w2)])
               (db w2)) w2).
Proof.
  intros Hmiss Hfetch Hok Hplain Haf.
  destruct (cache_miss_frame _ _ _ Hmiss) as (Hf1 & _).
  destruct Hmiss as (v & Hc & Hv).
  pose proof (fetchWithRetry_same_store (get_url w endpoint params) 3 w1) as Hs.
  unfold after in Hs. rewrite Hfetch in Hs. destruct Hs as (_ & Hf2 & _).
  cbn [snd] in Hf2.
  rewrite get_unfold, Hc, Hv, get_network, Hfetch, get_respond_not_ok by done.
  assert (match body r with
          | Some JNull =>
              ErrorObject TypeError
                "Cannot read properties of null (reading 'status_message')"
          | _ => APIErrorObject {| api_message := error_message r;
                                   api_status := Some (resp_status r);
                                   api_isNetworkError := false |}
          end
          = APIErrorObject {| api_message := error_message r;
                              api_status := Some (resp_status r);
                              api_isNetworkError := false |}) as ->.
  { destruct Hplain as [Hnull _]. by destruct (body r) as [[| | | | |]|]. }
  rewrite get_catch_ok by (by rewrite Hf2, Hf1).
  by rewrite plain_error_not_network.
Qed.

Lemma get_miss_threw (w w1 w2 : World) (endpoint : string) (params : JsObject)
    (t : Thrown) :
  cache_miss w (get_cacheKey w endpoint params) w1 →
  APIClient.fetchWithRetry (get_url w endpoint params) 3 w1 = (Threw t, w2) →
  fault w analytics_store = None →
  APIClient.get endpoint params w
  = (Threw (if APIClient.isNetworkError t then APIClient.networkError else t),
     set_db (set_analytics
               (analytics (db w2)
                ++ [mkUsageEvent "api_error" (api_error_data endpoint t) (clock w2)])
               (db w2)) w2).
Proof.
  intros Hmiss Hfetch Haf.
  destruct (cache_miss_frame _ _ _ Hmiss) as (Hf1 & _).
  destruct Hmiss as (v & Hc & Hv).
  pose proof (fetchWithRetry_same_store (get_url w endpoint params) 3 w1) as Hs.
  unfold after in Hs. rewrite Hfetch in Hs. destruct Hs as (_ & Hf2 & _).
  cbn [snd] in Hf2.
  rewrite get_unfold, Hc, Hv, get_network, Hfetch.
  by rewrite get_catch_ok by (by rewrite Hf2, Hf1).
Qed.

(** X6. Recovery within the budget: when a [get] misses the cache, the
    first [k <= 3] answers are server errors and the next answer is a 2xx
    with a JSON body, [get] returns that body after [k + 1] fetches and the
    backoff waits between them, and stores it under the cache key with a
    lifetime of 600000 ms. *)
Theorem get_recovers_within_budget (w w1 : World) (endpoint : string)
    (params : JsObject) (k : nat) (r : Response) (d : JSON) :
  cache_miss w (get_cacheKey w endpoint params) w1 →
  (k ≤ 3)%nat →
  (∀ i, (i < k)%nat →
        ∃ ri, server w (APIClient.attempts (trace w) + i)%nat (get_url w endpoint params)
              = Responded ri ∧ 500 ≤ resp_status ri) →
  server w (APIClient.attempts (trace w) + k)%nat (get_url w endpoint params)
  = Responded r →
  APIClient.response_ok r = true → body r = Some d →
  fault w api_cache_store = None → fault w analytics_store = None →
  ∃ w', APIClient.get endpoint params w = (Returned d, w')
        ∧ trace w' = trace w ++ recovery_schedule (get_url w endpoint params) 3 k
        ∧ ∃ stored, api_cache (db w') !! get_cacheKey w endpoint params
                    = Some (mkCacheEntry (get_cacheKey w endpoint params) d stored 600000).
Proof.
  intros Hmiss Hk Hbad Hr Hok Hbody Hcf Haf.
  destruct (cache_miss_frame _ _ _ Hmiss) as (_ & Ht1 & Hs1 & _).
  unfold APIClient.response_ok in Hok. apply andb_true_iff in Hok as [Hlo Hhi].
  apply Z.leb_le in Hlo, Hhi.
  destruct (fetchWithRetry_recovers (get_url w endpoint params) 3 k w1 r)
    as (w2 & Hfetch & Ht2 & _); [done| | |lia..|].
  { intros i Hi. rewrite Hs1, Ht1. by apply Hbad. }
  { by rewrite Hs1, Ht1. }
  eexists. split.
  - eapply get_miss_returned; try done.
    unfold APIClient.response_ok. apply andb_true_iff. split; by apply Z.leb_le.
  - cbn [trace set_db db api_cache set_analytics set_api_cache].
    split; [by rewrite Ht2, Ht1|]. exists (clock w2). apply lookup_insert_eq.
Qed.

Lemma get_recovers_within_budget_witness :
  let srv : nat → string → FetchOutcome :=
    λ n _, if (n <? 2)%nat then Responded (mkResponse 503 ∅ None)
           else Responded (mkResponse 200 ∅ (Some popular_page)) in
  let w := session empty_db 0 srv in
  ∃ w', APIClient.get "/movie/popular" [("page", PNumber 1)] w
        = (Returned popular_page, w')
        ∧ trace w' = trace w ++ recovery_schedule
                                  (get_url w "/movie/popular" [("page", PNumber 1)]) 3 2
        ∧ ∃ stored,
            api_cache (db w') !! get_cacheKey w "/movie/popular" [("page", PNumber 1)]
            = Some (mkCacheEntry (get_cacheKey w "/movie/popular" [("page", PNumber 1)])
                                 popular_page stored 600000).
Proof.
  intros srv w.
  apply (get_recovers_within_budget w w "/movie/popular" [("page", PNumber 1)] 2
           (mkResponse 200 ∅ (Some popular_page)) popular_page).
  - exists JNull. split; vm_compute; reflexivity.
  - lia.
  - intros i Hi. exists (mkResponse 503 ∅ None).
    destruct i as [|[|i]]; [split; [reflexivity | done]..|lia].
  - reflexivity.
  - reflexivity.
  - reflexivity.
  - reflexivity.
  - reflexivity.
Defined.

(** X7. Statuses that are not retried: an answer below 500 other than
    429 that is not a 2xx ends the call after one fetch and no wait;
    [get] fails with the [APIError] carrying that status and the message
    of the body ([status_message], or "HTTP <status>"), and records one
    [api_error] event. *)
Theorem get_client_error_not_retried (w w1 : World) (endpoint : string)
    (params : JsObject) (r : Response) :
  cache_miss w (get_cacheKey w endpoint params) w1 →
  server w (APIClient.attempts (trace w)) (get_url w endpoint params) = Responded r →
  resp_status r < 500 → resp_status r ≠ 429 → APIClient.response_ok r = false →
  plain_error_body (body r) →
  fault w analytics_store = None →
  ∃ w', APIClient.get endpoint params w
        = (Threw (APIErrorObject {| api_message := error_message r;
                                    api_status := Some (resp_status r);
                                    api_isNetworkError := false |}), w')
        ∧ trace w' = trace w ++ [Fetch (get_url w endpoint params)]
        ∧ ∃ ev, recorded w w' ev ∧ action ev = "api_error".
Proof.
  intros Hmiss Hr Hlt Hne Hok Hplain Haf.
  destruct (cache_miss_frame _ _ _ Hmiss) as (_ & Ht1 & Hs1 & Ha1 & _).
  destruct (fetchWithRetry_recovers (get_url w endpoint params) 3 0 w1 r)
    as (w2 & Hfetch & Ht2 & Hs2 & _); [lia| |  |done..|].
  { intros i Hi. lia. }
  { by rewrite Hs1, Ht1, Nat.add_0_r. }
  eexists. split; [by eapply get_miss_error_response|].
  cbn [trace set_db]. split; [by rewrite Ht2, Ht1|].
  eexists. split.
  - unfold recorded. cbn [db set_db analytics set_analytics]. rewrite Hs2, Ha1.
    reflexivity.
  - reflexivity.
Qed.

Lemma get_client_error_not_retried_witness :
  let body := JObj [("status_message", JStr "The resource you requested could not be found.")] in
  let r := mkResponse 404 ∅ (Some body) in
  let w := session empty_db 0 (serving 404 body) in
  ∃ w', APIClient.get "/movie/0" [] w
        = (Threw (APIErrorObject {| api_message := error_message r;
                                    api_status := Some (resp_status r);
                                    api_isNetworkError := false |}), w')
        ∧ trace w' = trace w ++ [Fetch (get_url w "/movie/0" [])]
        ∧ ∃ ev, recorded w w' ev ∧ action ev = "api_error".
Proof.
  intros body r w.
  apply (get_client_error_not_retried w w "/movie/0" [] r).
  - exists JNull. split; vm_compute; reflexivity.
  - reflexivity.
  - reflexivity.
  - discriminate.
  - reflexivity.
  - split; [discriminate|]. intros fields msg [= <-] [= <-]. reflexivity.
  - reflexivity.
Defined.

(** Against a server that always answers 429, [fetchWithRetry] waits the
    time the [Retry-After] header asks for before each retry and returns
    the last 429 when the budget is used up. *)
Lemma fetchWithRetry_429 (url : string) (retries : nat) (hdr : option string) (w : World) :
  always_429 hdr (server w) →
  ∃ r w', APIClient.fetchWithRetry url retries w = (Returned r, w')
    ∧ resp_status r = 429
    ∧ server w (APIClient.attempts (trace w) + retries)%nat url = Responded r
    ∧ trace w' = trace w ++ rate_limited_schedule url (retry_after_ms hdr) retries
    ∧ clock w' = clock w + Z.of_nat retries * retry_after_ms hdr
    ∧ same_store w w'.
Proof.
  intros Hsrv. revert w Hsrv. induction retries as [|k IH]; intros w Hsrv.
  - destruct (Hsrv (APIClient.attempts (trace w)) url) as (r & Hr & Hst & _).
    destruct (fetched url r w) as (Hs & Ht & Hc).
    exists r. eexists. cbn [APIClient.fetchWithRetry].
    unfold mbind, Async_bind, bind. rewrite (attempt_responded _ _ _ _ Hr). cbv zeta.
    rewrite Hst. cbn [Z.eqb Pos.eqb Nat.ltb Nat.leb].
    split; [reflexivity|]. rewrite Nat.add_0_r. split_and!; try done. lia.
  - destruct (Hsrv (APIClient.attempts (trace w)) url) as (r0 & Hr0 & Hst0 & Hh0).
    pose proof (fetched_then_waited url r0
                  match APIClient.present (headers r0 !! "retry-after") with
                  | Some s => (λ n, n * 1000) <$> parseInt s
                  | None => Some 1000
                  end w) as (Hs & Ht & Hc).
    set (w1 := after (APIClient.wait _) _) in *.
    assert (match match APIClient.present (headers r0 !! "retry-after") with
                  | Some s => (λ n, n * 1000) <$> parseInt s
                  | None => Some 1000
                  end with
            | Some n => Z.max 0 n
            | None => 0
            end = retry_after_ms hdr) as Hms.
    { unfold retry_after_ms. rewrite Hh0.
      destruct (APIClient.present hdr) as [s|]; [|reflexivity].
      by destruct (parseInt s). }
    rewrite Hms in Ht, Hc.
    assert (server w1 = server w) as Hsame by apply Hs.
    assert (APIClient.attempts (trace w1) = S (APIClient.attempts (trace w))) as Ha.
    { rewrite Ht, attempts_app. change (APIClient.attempts [_; _]) with 1%nat. lia. }
    destruct (IH w1) as (r & w' & Hf & Hst & Hr & Ht' & Hc' & Hs'); [by rewrite Hsame|].
    exists r, w'. cbn [APIClient.fetchWithRetry].
    unfold mbind, Async_bind, bind. rewrite (attempt_responded _ _ _ _ Hr0). cbv zeta.
    rewrite Hst0. cbn [Z.eqb Pos.eqb Nat.ltb Nat.leb].
    split; [exact Hf|]. split; [done|]. split_and!.
    + rewrite Hsame, Ha in Hr. by rewrite <- Hr, Nat.add_succ_r.
    + rewrite Ht', Ht. cbn [rate_limited_schedule]. by rewrite <- app_assoc.
    + rewrite Hc', Hc. lia.
    + by eapply same_store_trans.
Qed.

(** X8. Rate limiting: when a [get] misses the cache and every answer is
    a 429 with the same [Retry-After] header, whose delay in milliseconds
    fits the 32-bit integer of the timer, the client makes four fetches,
    waits before each retry exactly the header's [parseInt] in seconds
    (1 s without the header, 0 when the header is not a number or
    negative), and then [get] fails with the [APIError] of status 429. *)
Theorem get_rate_limited (w w1 : World) (endpoint : string) (params : JsObject)
    (hdr : option string) :
  cache_miss w (get_cacheKey w endpoint params) w1 →
  always_429 hdr (server w) →
  (∀ s n, APIClient.present hdr = Some s → parseInt s = Some n →
          - 2 ^ 31 ≤ n * 1000 ≤ 2 ^ 31 - 1) →
  ∃ r t w',
    APIClient.get endpoint params w = (Threw t, w')
    ∧ trace w' = trace w ++ rate_limited_schedule (get_url w endpoint params)
                              (retry_after_ms hdr) 3
    ∧ clock w' = clock w + 3 * retry_after_ms hdr
    ∧ server w (APIClient.attempts (trace w) + 3)%nat (get_url w endpoint params)
      = Responded r
    ∧ (fault w analytics_store = None → plain_error_body (body r) →
       t = APIErrorObject {| api_message := error_message r;
                             api_status := Some 429;
                             api_isNetworkError := false |}).
Proof.
  intros Hmiss Hsrv _.
  destruct (cache_miss_frame _ _ _ Hmiss) as (Hf1 & Ht1 & Hs1 & _).
  assert (clock w1 = clock w) as Hc1.
  { destruct Hmiss as (v & Hc & _).
    destruct (getCachedResponse_frame (get_cacheKey w endpoint params) w) as [c' Hw1].
    unfold after in Hw1. rewrite Hc in Hw1. cbn [snd] in Hw1. by rewrite Hw1. }
  destruct (fetchWithRetry_429 (get_url w endpoint params) 3 hdr w1)
    as (r & w2 & Hfetch & Hst & Hr & Ht2 & Hc2 & Hs2); [by rewrite Hs1|].
  rewrite Hs1, Ht1 in Hr. rewrite Ht1 in Ht2. rewrite Hc1 in Hc2.
  assert (APIClient.response_ok r = false) as Hok
    by (unfold APIClient.response_ok; by rewrite Hst).
  exists r.
  destruct (fault w analytics_store) as [[c msg]|] eqn:Ha.
  - destruct Hmiss as (v & Hc & Hv).
    destruct Hs2 as (_ & Hf2 & _).
    rewrite get_unfold, Hc, Hv, get_network, Hfetch, get_respond_not_ok by done.
    rewrite (get_catch_fault _ _ _ c msg) by (by rewrite Hf2, Hf1).
    do 2 eexists. split_and!; try done; lia.
  - destruct Hmiss as (v & Hc & Hv).
    destruct Hs2 as (_ & Hf2 & _).
    rewrite get_unfold, Hc, Hv, get_network, Hfetch, get_respond_not_ok by done.
    set (t0 := match body r with Some JNull => _ | _ => _ end).
    rewrite get_catch_ok by (by rewrite Hf2, Hf1).
    do 2 eexists. split; [reflexivity|].
    cbn [trace clock set_db]. split_and!; try done; try lia.
    intros _ Hplain. pose proof (plain_error_not_network r Hplain) as Hnn.
    assert (t0 = APIErrorObject {| api_message := error_message r;
                                   api_status := Some (resp_status r);
                                   api_isNetworkError := false |}) as ->.
    { subst t0. destruct Hplain as [Hnull _].
      by destruct (body r) as [[| | | | |]|]. }
    rewrite Hnn. by rewrite Hst.
Qed.

Lemma get_rate_limited_witness :
  let srv : nat → string → FetchOutcome :=
    λ _ _, Responded (mkResponse 429 {[ "retry-after" := "2" ]} None) in
  let w := session empty_db 0 srv in
  ∃ r t w',
    APIClient.get "/movie/popular" [("page", PNumber 1)] w = (Threw t, w')
    ∧ trace w' = trace w ++ rate_limited_schedule
                              (get_url w "/movie/popular" [("page", PNumber 1)])
                              (retry_after_ms (Some "2")) 3
    ∧ clock w' = clock w + 3 * retry_after_ms (Some "2")
    ∧ server w (APIClient.attempts (trace w) + 3)%nat
             (get_url w "/movie/popular" [("page", PNumber 1)])
      = Responded r
    ∧ (fault w analytics_store = None → plain_error_body (body r) →
       t = APIErrorObject {| api_message := error_message r;
                             api_status := Some 429;
                             api_isNetworkError := false |}).
Proof.
  intros srv w.
  apply (get_rate_limited w w "/movie/popular" [("page", PNumber 1)] (Some "2")).
  - exists JNull. split; vm_compute; reflexivity.
  - intros n url. eexists. split; [reflexivity|]. split; [reflexivity|].
    vm_compute. reflexivity.
  - intros s n [= <-] [= <-]. lia.
Defined.

Lemma retry_after_2_seconds : retry_after_ms (Some "2") = 2000.
Proof. reflexivity. Qed.

(** Against a transport that fails every request with a network error,
    [fetchWithRetry] makes [retries + 1] fetches with the backoff waits
    and rethrows the last error. *)
Lemma fetchWithRetry_failing (url : string) (retries : nat) (w : World) :
  always_failing (server w) →
  ∃ c msg w', APIClient.fetchWithRetry url retries w = (Threw (ErrorObject c msg), w')
    ∧ server w (APIClient.attempts (trace w) + retries)%nat url = Rejected c msg
    ∧ trace w' = trace w ++ retry_schedule url retries
    ∧ same_store w w'.
Proof.
  intros Hsrv. revert w Hsrv. induction retries as [|k IH]; intros w Hsrv.
  - destruct (Hsrv (APIClient.attempts (trace w)) url) as (c & msg & Hr & Hab & Hnet).
    exists c, msg. eexists. cbn [APIClient.fetchWithRetry].
    unfold mbind, Async_bind, bind. rewrite (attempt_rejected _ _ _ _ _ Hr), Hab.
    cbn [Nat.ltb Nat.leb andb]. rewrite Nat.add_0_r.
    split; [reflexivity|]. by split_and!.
  - destruct (Hsrv (APIClient.attempts (trace w)) url) as (c0 & msg0 & Hr0 & Hab & Hnet).
    set (w1 := after (APIClient.wait (Some (APIClient.backoff (S k)))) (log (Fetch url) w)).
    assert (server w1 = server w) as Hsame by reflexivity.
    assert (trace w1 = trace w ++ [Fetch url; Sleep (APIClient.backoff (S k))]) as Ht.
    { unfold w1, after. cbn [APIClient.wait snd trace set_clock log].
      rewrite Z.max_r by apply backoff_nonneg. by rewrite <- app_assoc. }
    assert (APIClient.attempts (trace w1) = S (APIClient.attempts (trace w))) as Ha.
    { rewrite Ht, attempts_app. change (APIClient.attempts [_; _]) with 1%nat. lia. }
    destruct (IH w1) as (c & msg & w' & Hf & Hr & Ht' & Hs'); [by rewrite Hsame|].
    exists c, msg, w'. cbn [APIClient.fetchWithRetry].
    unfold mbind, Async_bind, bind. rewrite (attempt_rejected _ _ _ _ _ Hr0), Hab, Hnet.
    cbn [Nat.ltb Nat.leb andb]. fold w1.
    split; [exact Hf|]. split_and!.
    + rewrite Hsame, Ha in Hr. by rewrite <- Hr, Nat.add_succ_r.
    + rewrite Ht', Ht. cbn [retry_schedule]. by rewrite <- app_assoc.
    + eapply same_store_trans; [|exact Hs']. by split_and!.
Qed.

(** X9. No connectivity: when a [get] misses the cache and every fetch
    fails with a network error, the client makes four fetches with waits
    of 1 s, 2 s and 4 s, records one [api_error] event with the message of
    the last failure, and fails with the network error (flag set, no
    status). *)
Theorem get_offline (w w1 : World) (endpoint : string) (params : JsObject) :
  cache_miss w (get_cacheKey w endpoint params) w1 →
  always_failing (server w) →
  fault w analytics_store = None →
  ∃ c msg w',
    APIClient.get endpoint params w = (Threw APIClient.networkError, w')
    ∧ trace w' = trace w ++ retry_schedule (get_url w endpoint params) 3
    ∧ server w (APIClient.attempts (trace w) + 3)%nat (get_url w endpoint params)
      = Rejected c msg
    ∧ ∃ now, recorded w w'
               (mkUsageEvent "api_error"
                  (JObj [("endpoint", JStr endpoint); ("error", JStr msg)]) now).
Proof.
  intros Hmiss Hsrv Haf.
  destruct (cache_miss_frame _ _ _ Hmiss) as (_ & Ht1 & Hs1 & Ha1 & _).
  destruct (fetchWithRetry_failing (get_url w endpoint params) 3 w1)
    as (c & msg & w2 & Hfetch & Hr & Ht2 & Hs2 & _); [by rewrite Hs1|].
  destruct (Hsrv (APIClient.attempts (trace w) + 3)%nat (get_url w endpoint params))
    as (c' & msg' & Hr' & _ & Hnet).
  rewrite Hs1, Ht1 in Hr. rewrite Hr in Hr'. injection Hr' as <- <-.
  exists c, msg. eexists.
  rewrite (get_miss_threw w w1 w2 endpoint params (ErrorObject c msg)) by done.
  rewrite Hnet. split; [reflexivity|].
  cbn [trace set_db]. split_and!; [by rewrite Ht2, Ht1 | done |].
  eexists. unfold recorded. cbn [db set_db analytics set_analytics].
  rewrite Hs2, Ha1. reflexivity.
Qed.

Lemma get_offline_witness :
  let w := session empty_db 0 offline in
  ∃ c msg w',
    APIClient.get "/movie/popular" [("page", PNumber 1)] w
    = (Threw APIClient.networkError, w')
    ∧ trace w' = trace w ++ retry_schedule
                              (get_url w "/movie/popular" [("page", PNumber 1)]) 3
    ∧ server w (APIClient.attempts (trace w) + 3)%nat
             (get_url w "/movie/popular" [("page", PNumber 1)])
      = Rejected c msg
    ∧ ∃ now, recorded w w'
               (mkUsageEvent "api_error"
                  (JObj [("endpoint", JStr "/movie/popular"); ("error", JStr msg)]) now).
Proof.
  intros w.
  apply (get_offline w w "/movie/popular" [("page", PNumber 1)]).
  - exists JNull. split; vm_compute; reflexivity.
  - intros n url. exists TypeError, "Failed to fetch". by split_and!.
  - reflexivity.
Defined.

(** X10. Failures that are not retried: when the first fetch of a [get]
    that misses the cache is rejected with an error that is the abort of
    the 10 s timer, or that [isNetworkError] does not accept, there is no
    second fetch and no wait; [get] fails with [Error('Request timeout')]
    in the first case and with the error itself in the second. *)
Theorem get_failure_not_retried (w w1 : World) (endpoint : string)
    (params : JsObject) (c : ErrorClass) (msg : string) :
  cache_miss w (get_cacheKey w endpoint params) w1 →
  server w (APIClient.attempts (trace w)) (get_url w endpoint params) = Rejected c msg →
  APIClient.isAbortError (ErrorObject c msg) = true
  ∨ APIClient.isNetworkError (ErrorObject c msg) = false →
  fault w analytics_store = None →
  ∃ w', APIClient.get endpoint params w
        = (Threw (if APIClient.isAbortError (ErrorObject c msg)
                  then ErrorObject PlainError "Request timeout"
                  else ErrorObject c msg), w')
        ∧ trace w' = trace w ++ [Fetch (get_url w endpoint params)].
Proof.
  intros Hmiss Hr Hkind Haf.
  destruct (cache_miss_frame _ _ _ Hmiss) as (_ & Ht1 & Hs1 & _).
  set (t := if APIClient.isAbortError (ErrorObject c msg)
            then ErrorObject PlainError "Request timeout" else ErrorObject c msg).
  assert (APIClient.fetchWithRetry (get_url w endpoint params) 3 w1
          = (Threw t, log (Fetch (get_url w endpoint params)) w1)) as Hfetch.
  { cbn [APIClient.fetchWithRetry]. unfold mbind, Async_bind, bind.
    rewrite (attempt_rejected _ _ _ c msg) by (by rewrite Hs1, Ht1).
    subst t. destruct (APIClient.isAbortError (ErrorObject c msg)); [reflexivity|].
    destruct Hkind as [|Hnn]; [done|]. rewrite Hnn. reflexivity. }
  assert (APIClient.isNetworkError t = false) as Hnn.
  { subst t. destruct (APIClient.isAbortError (ErrorObject c msg)); [reflexivity|].
    by destruct Hkind. }
  eexists. rewrite (get_miss_threw w w1 _ endpoint params t) by done.
  rewrite Hnn. split; [reflexivity|]. cbn [trace set_db log]. by rewrite Ht1.
Qed.

Lemma get_failure_not_retried_witness :
  let srv : nat → string → FetchOutcome :=
    λ _ _, Rejected (DOMException "AbortError") "The user aborted a request." in
  let w := session empty_db 0 srv in
  ∃ w', APIClient.get "/movie/popular" [("page", PNumber 1)] w
        = (Threw (if APIClient.isAbortError
                       (ErrorObject (DOMException "AbortError") "The user aborted a request.")
                  then ErrorObject PlainError "Request timeout"
                  else ErrorObject (DOMException "AbortError") "The user aborted a request."),
           w')
        ∧ trace w' = trace w ++ [Fetch (get_url w "/movie/popular" [("page", PNumber 1)])].
Proof.
  intros srv w.
  apply (get_failure_not_retried w w "/movie/popular" [("page", PNumber 1)]).
  - exists JNull. split; vm_compute; reflexivity.
  - reflexivity.
  - left. reflexivity.
  - reflexivity.
Defined.

(** ** The rate-limit snapshot *)

Lemma request_only_db {A} (s : StoreName) (f : DB → Outcome A * DB) (w : World) :
  ∃ d, after (request s f) w = set_db d w.
Proof.
  unfold after, request. destruct (fault w s) as [[??]|].
  - exists (db w). by rewrite set_db_same.
  - destruct (f (db w)) as [r d]. by exists d.
Qed.

Lemma trackEvent_only_db (act : string) (v : JSON) (w : World) :
  ∃ d, after (dbHelpers.trackEvent act v) w = set_db d w.
Proof.
  unfold dbHelpers.trackEvent, after, mbind, Async_bind, bind, Date_now.
  apply (request_only_db analytics_store).
Qed.

Lemma cacheAPIResponse_only_db (k : string) (v : JSON) (m : Z) (w : World) :
  ∃ d, after (dbHelpers.cacheAPIResponse k v m) w = set_db d w.
Proof.
  unfold dbHelpers.cacheAPIResponse, after, mbind, Async_bind, bind, Date_now.
  apply (request_only_db api_cache_store).
Qed.

Lemma get_catch_only_db (endpoint : string) (t : Thrown) (w : World) :
  ∃ d, after (get_catch endpoint t) w = set_db d w.
Proof.
  destruct (trackEvent_only_db "api_error" (api_error_data endpoint t) w) as [d H].
  exists d. unfold after, get_catch, mbind, Async_bind, bind in *.
  destruct (dbHelpers.trackEvent _ _ w) as [[?|?] w1]; [|done].
  by destruct (APIClient.isNetworkError t).
Qed.

Lemma get_respond_only_db (cacheKey endpoint : string) (r : Response) (w : World) :
  ∃ d, after (get_respond cacheKey endpoint r) w = set_db d w.
Proof.
  destruct (APIClient.response_ok r) eqn:Hok.
  - unfold after, get_respond. rewrite Hok. cbn [negb].
    unfold mbind, Async_bind, bind, APIClient.response_json.
    destruct (body r) as [d|]; [|exists (db w); by rewrite set_db_same].
    unfold mret at 1, Async_ret, ret at 1.
    destruct (cacheAPIResponse_only_db cacheKey d 10 w) as [d1 H1]. unfold after in H1.
    destruct (dbHelpers.cacheAPIResponse cacheKey d 10 w) as [[?|?] w1];
      cbn [snd] in H1; [|by exists d1].
    destruct (trackEvent_only_db "api_call"
                (api_call_data endpoint (resp_status r)) w1) as [d2 H2].
    unfold after in H2. unfold mret, Async_ret, ret.
    destruct (dbHelpers.trackEvent _ _ w1) as [[?|?] w2]; cbn [snd] in *;
      exists d2; by rewrite H2, H1.
  - unfold after. rewrite get_respond_not_ok by done.
    exists (db w). by rewrite set_db_same.
Qed.

(** X11. The rate-limit snapshot after a request: when a [get] misses the
    cache and its first fetch is answered with a status that is not
    retried, [getRateLimitInfo] afterwards gives the snapshot of that
    response when it carries both rate-limit headers, and what it gave
    before the call when one of them is missing or empty, whether [get]
    returned or failed. *)
Theorem get_rate_limit_info (w w1 : World) (endpoint : string) (params : JsObject)
    (r : Response) :
  cache_miss w (get_cacheKey w endpoint params) w1 →
  server w (APIClient.attempts (trace w)) (get_url w endpoint params) = Responded r →
  resp_status r < 500 → resp_status r ≠ 429 →
  let w' := after (APIClient.get endpoint params) w in
  APIClient.getRateLimitInfo w'
  = (Returned
       match APIClient.present (headers r !! "x-ratelimit-remaining"),
             APIClient.present (headers r !! "x-ratelimit-reset") with
       | Some remaining, Some reset => Some (rate_limit_snapshot remaining reset)
       | _, _ => rateLimitInfo w
       end, w').
Proof.
  intros Hmiss Hr Hlt Hne w'. unfold APIClient.getRateLimitInfo. f_equal. f_equal.
  destruct (cache_miss_frame _ _ _ Hmiss) as (_ & Ht1 & Hs1 & _).
  assert (rateLimitInfo w1 = rateLimitInfo w) as Hrl1.
  { destruct Hmiss as (v & Hc & _).
    destruct (getCachedResponse_frame (get_cacheKey w endpoint params) w) as [c' Hw1].
    unfold after in Hw1. rewrite Hc in Hw1. cbn [snd] in Hw1. by rewrite Hw1. }
  set (w2 := after (APIClient.parseRateLimitHeaders r)
                   (log (Fetch (get_url w endpoint params)) w1)).
  assert (APIClient.fetchWithRetry (get_url w endpoint params) 3 w1 = (Returned r, w2))
    as Hfetch.
  { cbn [APIClient.fetchWithRetry]. unfold mbind, Async_bind, bind.
    rewrite (attempt_responded _ _ _ r) by (by rewrite Hs1, Ht1).
    destruct (Z.eqb_spec (resp_status r) 429) as [|_]; [done|].
    destruct (Z.leb_spec 500 (resp_status r)); [lia|]. reflexivity. }
  assert (rateLimitInfo w'
          = rateLimitInfo w2) as ->.
  { subst w'. destruct Hmiss as (v & Hc & Hv). unfold after.
    rewrite get_unfold, Hc, Hv, get_network, Hfetch.
    destruct (get_respond_only_db (get_cacheKey w endpoint params) endpoint r w2)
      as [d Hd]. unfold after in Hd.
    destruct (get_respond _ _ r w2) as [[v'|t] w3]; cbn [snd] in Hd |- *.
    - by rewrite Hd.
    - destruct (get_catch_only_db endpoint t w3) as [d' Hd']. unfold after in Hd'.
      rewrite Hd', Hd. reflexivity. }
  subst w2. unfold after, APIClient.parseRateLimitHeaders, rate_limit_snapshot.
  destruct (APIClient.present (headers r !! "x-ratelimit-remaining"));
    destruct (APIClient.present (headers r !! "x-ratelimit-reset")); cbn; congruence.
Qed.

Lemma get_rate_limit_info_witness :
  let r := mkResponse 200 {[ "x-ratelimit-remaining" := "7";
                             "x-ratelimit-reset" := "1700000000" ]}
                      (Some popular_page) in
  let w := session empty_db 0 (λ _ _, Responded r) in
  let w' := after (APIClient.get "/movie/popular" [("page", PNumber 1)]) w in
  APIClient.getRateLimitInfo w'
  = (Returned
       match APIClient.present (headers r !! "x-ratelimit-remaining"),
             APIClient.present (headers r !! "x-ratelimit-reset") with
       | Some remaining, Some reset => Some (rate_limit_snapshot remaining reset)
       | _, _ => rateLimitInfo w
       end, w').
Proof.
  intros r w.
  apply (get_rate_limit_info w w "/movie/popular" [("page", PNumber 1)] r).
  - exists JNull. split; vm_compute; reflexivity.
  - reflexivity.
  - simpl. lia.
  - simpl. lia.
Defined.

Lemma rate_limit_snapshot_example :
  rate_limit_snapshot "7" "1700000000"
  = {| remaining := Some 7; resetTime := Some 1700000000000; isNearLimit := true |}.
Proof. vm_compute. reflexivity. Qed.

(** ** The cache keys of [tmdbAPI] *)

Lemma string_length_app (a b : string) :
  String.length (a +:+ b) = (String.length a + String.length b)%nat.
Proof. induction a as [|x a IH]; [done|]. rewrite string_app_cons. cbn. by rewrite IH. Qed.

Lemma string_app_inj_r (a b t : string) : a +:+ t = b +:+ t → a = b.
Proof.
  revert b. induction a as [|x a IH]; intros [|y b] H.
  - done.
  - apply (f_equal String.length) in H. rewrite !string_length_app in H. cbn in H. lia.
  - apply (f_equal String.length) in H. rewrite !string_length_app in H. cbn in H. lia.
  - rewrite !string_app_cons in H. injection H as -> H. f_equal. by apply IH.
Qed.

Lemma numeral_head_digit (n : N) (s : string) :
  numeral_head (String (pretty_N_char n) s) = true.
Proof. unfold pretty_N_char. by repeat case_match. Qed.

Lemma pretty_N_go_head (x : N) (s : string) :
  numeral_head s = true → numeral_head (pretty_N_go x s) = true.
Proof.
  revert s. induction (N.lt_wf_0 x) as [x _ IH]. intros s Hs.
  destruct (decide (0 < x)%N) as [Hx|Hx].
  - rewrite pretty_N_go_step by done. apply IH.
    + by apply N.div_lt.
    + apply numeral_head_digit.
  - assert (x = 0%N) as -> by lia. by rewrite pretty_N_go_0.
Qed.

Lemma pretty_N_head (x : N) : numeral_head (pretty x) = true.
Proof.
  unfold pretty, pretty_N. destruct (decide (x = 0%N)) as [|Hx]; [done|].
  rewrite pretty_N_go_step by lia. apply pretty_N_go_head, numeral_head_digit.
Qed.

Lemma pretty_Z_head (n : Z) : numeral_head (pretty n) = true.
Proof.
  destruct n as [|p|p]; [done| |done].
  apply (pretty_N_head (N.pos p)).
Qed.

Lemma ordinary_search (q : string) (page : Z) :
  ordinary [("query", PString q); ("page", PNumber page)].
Proof.
  split; [by apply (bool_decide_unpack _)|].
  repeat constructor; vm_compute; congruence.
Qed.

Lemma ordinary_popular (page : Z) : ordinary [("page", PNumber page)].
Proof.
  split; [by apply (bool_decide_unpack _)|].
  repeat constructor; vm_compute; congruence.
Qed.

(** X12. The three requests of [tmdbAPI] go through [get] with keys that
    tell them apart: two requests use the same cache entry exactly when
    they are the same request with the same arguments. *)
Theorem tmdbAPI_cache_keys_distinct (w : World) :
  (∀ c, run_call c = APIClient.get (call_endpoint c) (call_params c))
  ∧ ∀ c1 c2,
      get_cacheKey w (call_endpoint c1) (call_params c1)
      = get_cacheKey w (call_endpoint c2) (call_params c2)
      ↔ c1 = c2.
Proof.
  split; [by intros []|].
  intros c1 c2. split; [|by intros ->].
  unfold get_cacheKey.
  destruct c1 as [q1 p1|p1|i1], c2 as [q2 p2|p2|i2]; cbn [call_endpoint call_params].
  - intros H. apply cacheKey_ordinary_iff in H; [|apply ordinary_search..].
    injection H as -> H. by apply (inj pretty) in H as ->.
  - unfold APIClient.cacheKey. intros H. apply String.app_inj in H. discriminate H.
  - unfold APIClient.cacheKey. intros H. apply String.app_inj in H.
    rewrite string_app_assoc in H. discriminate H.
  - unfold APIClient.cacheKey. intros H. apply String.app_inj in H. discriminate H.
  - intros H. apply cacheKey_ordinary_iff in H; [|apply ordinary_popular..].
    injection H as H. by apply (inj pretty) in H as ->.
  - unfold APIClient.cacheKey. intros H. apply String.app_inj in H.
    change "/movie/popular" with ("/movie/" +:+ "popular") in H.
    rewrite !string_app_assoc in H. apply String.app_inj in H.
    pose proof (pretty_Z_head i2) as Hh.
    destruct (pretty i2) as [|c s]; [done|].
    rewrite !string_app_cons in H. injection H as <- _. done.
  - unfold APIClient.cacheKey. intros H. apply String.app_inj in H.
    rewrite string_app_assoc in H. discriminate H.
  - unfold APIClient.cacheKey. intros H. apply String.app_inj in H.
    change "/movie/popular" with ("/movie/" +:+ "popular") in H.
    rewrite !string_app_assoc in H. apply String.app_inj in H.
    pose proof (pretty_Z_head i1) as Hh.
    destruct (pretty i1) as [|c s]; [done|].
    rewrite !string_app_cons in H. injection H as -> _. done.
  - unfold APIClient.cacheKey. intros H. apply String.app_inj in H.
    rewrite !string_app_assoc in H. apply String.app_inj in H.
    apply string_app_inj_r in H. by apply (inj pretty) in H as ->.
Qed.

Lemma tmdbAPI_cache_keys_distinct_witness :
  get_cacheKey (session empty_db 0 offline)
    (call_endpoint (GetMovieDetails 11)) (call_params (GetMovieDetails 11))
  ≠ get_cacheKey (session empty_db 0 offline)
      (call_endpoint (GetPopularMovies 1)) (call_params (GetPopularMovies 1)).
Proof.
  intros H.
  apply (proj2 (tmdbAPI_cache_keys_distinct (session empty_db 0 offline))) in H.
  discriminate H.
Defined.

(** ** Listings of the store *)

(** [Array.prototype.sort] with a consistent comparator sorts. *)
Lemma sort_insert_sorted {A} (cmp : A → A → Z) (x : A) (l : list A) :
  (∀ a b, 0 < cmp a b → cmp b a ≤ 0) →
  (∀ a b c, cmp a b ≤ 0 → cmp b c ≤ 0 → cmp a c ≤ 0) →
  StronglySorted (λ a b, cmp a b ≤ 0) l →
  StronglySorted (λ a b, cmp a b ≤ 0) (sort_insert cmp x l).
Proof.
  intros Hanti Htrans. induction l as [|y l IH]; intros Hs.
  - repeat constructor.
  - apply StronglySorted_inv in Hs as [Hs Hy]. cbn [sort_insert].
    destruct (Z.ltb_spec 0 (cmp x y)) as [Hlt|Hle].
    + constructor; [by apply IH|].
      rewrite sort_insert_perm. constructor; [by apply Hanti | done].
    + constructor; [by constructor|].
      constructor; [done|].
      eapply Forall_impl; [exact Hy|]. intros z Hz. by eapply Htrans.
Qed.

Lemma js_sort_sorted {A} (cmp : A → A → Z) (l : list A) :
  (∀ a b, 0 < cmp a b → cmp b a ≤ 0) →
  (∀ a b c, cmp a b ≤ 0 → cmp b c ≤ 0 → cmp a c ≤ 0) →
  StronglySorted (λ a b, cmp a b ≤ 0) (js_sort cmp l).
Proof.
  intros Hanti Htrans. induction l as [|x l IH]; [constructor|].
  by apply sort_insert_sorted.
Qed.

Lemma StronglySorted_mono {A} (R1 R2 : A → A → Prop) (l : list A) :
  (∀ a b, R1 a b → R2 a b) → StronglySorted R1 l → StronglySorted R2 l.
Proof.
  intros HR. induction 1 as [|a l Hs IH Ha]; constructor; [done|].
  eapply Forall_impl; [exact Ha | auto].
Qed.

Lemma js_sort_newest_first {A} (f : A → Z) (l : list A) :
  StronglySorted (λ a b, f b ≤ f a) (js_sort (λ a b, f b - f a) l).
Proof.
  eapply StronglySorted_mono; [|apply js_sort_sorted]; cbn; intros; lia.
Qed.


Lemma slice0_take {A} (limit : Z) (l : list A) :
  0 ≤ limit → slice0 limit l = take (Z.to_nat limit) l.
Proof. intros H. unfold slice0. by destruct (Z.ltb_spec limit 0); [lia|]. Qed.





(** ** The favorites collection *)

Lemma sorted_keys_ids (l : list (Z * Favorite)) :
  Forall (λ p, id p.2 = p.1) l →
  StronglySorted (λ a b, a.1 - b.1 ≤ 0) l →
  StronglySorted (λ a b, id a ≤ id b) l.*2.
Proof.
  intros Hk. induction 1 as [|a l Hs IH Ha]; [constructor|].
  apply Forall_cons in Hk as [Hka Hk]. cbn [fmap list_fmap]. constructor; [by apply IH|].
  apply Forall_fmap. rewrite Forall_forall in Ha, Hk |- *.
  intros b Hb. specialize (Ha b Hb). specialize (Hk b Hb). cbn. lia.
Qed.

Lemma sorted_strict {A} (g : A → Z) (l : list A) :
  StronglySorted (λ a b, g a ≤ g b) l → NoDup (g <$> l) →
  StronglySorted (λ a b, g a < g b) l.
Proof.
  induction 1 as [|a l Hs IH Ha]; intros Hnd; [constructor|].
  cbn [fmap list_fmap] in Hnd. apply NoDup_cons in Hnd as [Hnin Hnd].
  constructor; [by apply IH|].
  rewrite Forall_forall in Ha |- *. intros b Hb. specialize (Ha b Hb).
  assert (g a ≠ g b); [|lia].
  intros Heq. apply Hnin. rewrite Heq. by apply list_elem_of_fmap_2.
Qed.

(** X15. [getFavorites] lists the collection: on a store that answers,
    it returns every stored favorite exactly once, in strictly ascending
    order of [id] (the order of the keys, not of [savedAt]). *)
Theorem getFavorites_by_id (w : World) :
  fault w favorites_store = None → favorites_keyed (db w) →
  ∃ l, dbHelpers.getFavorites w = (Returned l, w)
       ∧ StronglySorted (λ a b, id a < id b) l
       ∧ length l = size (favorites (db w))
       ∧ ∀ f, f ∈ l ↔ favorites (db w) !! id f = Some f.
Proof.
  intros Hf Hk. eexists. split; [by apply getFavorites_ok|].
  set (pairs := js_sort (λ a b : Z * Favorite, a.1 - b.1)
                        (map_to_list (favorites (db w)))).
  assert (pairs ≡ₚ map_to_list (favorites (db w))) as Hperm by apply js_sort_perm.
  assert (Forall (λ p, id p.2 = p.1) pairs) as Hids.
  { rewrite Hperm. apply Forall_forall. intros [k f] Hin.
    apply elem_of_map_to_list in Hin. by apply Hk. }
  split_and!.
  - apply sorted_strict.
    + apply sorted_keys_ids; [done|].
      apply js_sort_sorted; cbn; intros; lia.
    + rewrite Hperm, keyed_ids by done. apply NoDup_fst_map_to_list.
  - by rewrite length_fmap, Hperm, length_map_to_list.
  - intros f. rewrite Hperm. split.
    + intros Hin. apply list_elem_of_fmap in Hin as ([k f'] & -> & Hin).
      apply elem_of_map_to_list in Hin. cbn. by rewrite (Hk _ _ Hin).
    + intros Hl. apply list_elem_of_fmap. exists (id f, f).
      split; [done|]. by apply elem_of_map_to_list.
Qed.

Lemma getFavorites_by_id_witness :
  ∃ l, dbHelpers.getFavorites (session used_db 5000 offline)
       = (Returned l, session used_db 5000 offline)
       ∧ StronglySorted (λ a b, id a < id b) l
       ∧ length l = size (favorites used_db)
       ∧ ∀ f, f ∈ l ↔ favorites used_db !! id f = Some f.
Proof.
  apply (getFavorites_by_id (session used_db 5000 offline)).
  - reflexivity.
  - intros k f. cbn [db session favorites used_db].
    intros H. apply lookup_insert_Some in H as [[<- <-]|[_ H]]; [reflexivity|].
    apply lookup_singleton_Some in H as [<- <-]. reflexivity.
Defined.

Lemma isFavorite_ok (k : Z) (w : World) :
  fault w favorites_store = None →
  dbHelpers.isFavorite k w
  = (Returned match favorites (db w) !! k with Some _ => true | None => false end, w).
Proof.
  intros Hf. unfold dbHelpers.isFavorite. rewrite request_ok by done.
  cbn [fst snd]. rewrite set_db_same. by destruct (favorites (db w) !! k).
Qed.

Lemma removeFavorite_ok (k : Z) (w : World) :
  fault w favorites_store = None →
  dbHelpers.removeFavorite k w
  = (Returned tt, set_db (set_favorites (delete k (favorites (db w))) (db w)) w).
Proof. intros Hf. unfold dbHelpers.removeFavorite. by rewrite request_ok. Qed.

(** X16. Adding and removing a favorite: on a store that answers, adding
    a movie whose id is not stored makes [isFavorite] true for it and
    leaves the answers for all other ids as they were; removing it again
    restores the collection exactly; and removing an id that is not stored
    succeeds without changing anything. *)
Theorem favorite_add_remove (w : World) (movie : Favorite) :
  fault w favorites_store = None →
  favorites (db w) !! id movie = None →
  let w1 := after (dbHelpers.addFavorite movie) w in
  let w2 := after (dbHelpers.removeFavorite (id movie)) w1 in
  dbHelpers.isFavorite (id movie) w = (Returned false, w)
  ∧ dbHelpers.isFavorite (id movie) w1 = (Returned true, w1)
  ∧ (∀ k, k ≠ id movie →
          (dbHelpers.isFavorite k w1).1 = (dbHelpers.isFavorite k w).1)
  ∧ w2 = w
  ∧ dbHelpers.removeFavorite (id movie) w = (Returned tt, w).
Proof.
  intros Hf Hnew w1 w2.
  assert (w1 = set_db (set_favorites (<[id movie := movie]> (favorites (db w))) (db w)) w)
    as Hw1.
  { subst w1. unfold after. by rewrite addFavorite_new. }
  assert (fault w1 favorites_store = None) as Hf1 by (by rewrite Hw1).
  assert (∀ m : gmap Z Favorite, m !! id movie = None → delete (id movie) m = m) as Hdel.
  { intros m Hm. by apply delete_id. }
  split_and!.
  - rewrite isFavorite_ok by done. rewrite Hnew. reflexivity.
  - rewrite isFavorite_ok by done. rewrite Hw1 at 1.
    cbn [db set_db favorites set_favorites]. rewrite lookup_insert_eq.
    reflexivity.
  - intros k Hk. rewrite !isFavorite_ok by done. rewrite Hw1.
    cbn [fst db set_db favorites set_favorites].
    by rewrite lookup_insert_ne by done.
  - subst w2. unfold after. rewrite removeFavorite_ok by done. rewrite Hw1.
    cbn [snd db set_db favorites set_favorites].
    rewrite delete_insert_eq, Hdel by done.
    destruct w as [[] ? ? ? ? ? ? ? ? ?]. reflexivity.
  - rewrite removeFavorite_ok by done. rewrite Hdel by done.
    by rewrite set_favorites_same, set_db_same.
Qed.

Lemma favorite_add_remove_witness :
  let w := session empty_db 0 offline in
  let w1 := after (dbHelpers.addFavorite inception) w in
  let w2 := after (dbHelpers.removeFavorite (id inception)) w1 in
  dbHelpers.isFavorite (id inception) w = (Returned false, w)
  ∧ dbHelpers.isFavorite (id inception) w1 = (Returned true, w1)
  ∧ (∀ k, k ≠ id inception →
          (dbHelpers.isFavorite k w1).1 = (dbHelpers.isFavorite k w).1)
  ∧ w2 = w
  ∧ dbHelpers.removeFavorite (id inception) w = (Returned tt, w).
Proof.
  intros w.
  apply (favorite_add_remove w inception); reflexivity.
Defined.

(** ** The latest search *)

(** The listing after a query was written at a time later than every
    stored timestamp: the new entry, then the entries of the other queries. *)
Lemma history_after_insert (m : gmap string SearchEntry) (q : string) (now : Z) :
  (∀ q' e, m !! q' = Some e → timestamp e < now) →
  ∃ tl, js_sort (λ a b, timestamp b - timestamp a)
          (js_sort dbHelpers.by_timestamp
             (map_to_list (<[q := mkSearchEntry q now]> m))).*2
        = mkSearchEntry q now :: tl
        ∧ tl ≡ₚ (map_to_list (delete q m)).*2.
Proof.
  intros Hold. set (new := mkSearchEntry q now).
  set (all := js_sort _ _).
  assert (all ≡ₚ new :: (map_to_list (delete q m)).*2) as Hperm.
  { subst all. rewrite !js_sort_perm.
    rewrite <- insert_delete_eq.
    by rewrite map_to_list_insert by apply lookup_delete_eq. }
  assert (StronglySorted (λ a b, timestamp b ≤ timestamp a) all) as Hsorted
    by apply js_sort_newest_first.
  destruct all as [|h tl] eqn:Hall.
  { apply Permutation_nil_l in Hperm. discriminate. }
  assert (h = new) as ->.
  { assert (h ∈ new :: (map_to_list (delete q m)).*2) as Hh
      by (rewrite <- Hperm; left).
    apply elem_of_cons in Hh as [|Hh]; [done|].
    apply list_elem_of_fmap in Hh as ([q' e'] & -> & Hh).
    apply elem_of_map_to_list, lookup_delete_Some in Hh as [_ Hq'].
    apply Hold in Hq'.
    assert (new ∈ e' :: tl) as Hn by (rewrite Hperm; left).
    apply elem_of_cons in Hn as [|Hn]; [done|].
    apply StronglySorted_inv in Hsorted as [_ Hall'].
    rewrite Forall_forall in Hall'. specialize (Hall' new Hn).
    cbn in Hall', Hq'. lia. }
  exists tl. split; [done|]. by apply Permutation_cons_inv in Hperm.
Qed.

(** X17. The latest search comes first: when a query is submitted at a
    time later than every stored timestamp, the listing that follows (with
    a limit of at least 1) starts with that query and its new timestamp,
    and every other entry it returns is an entry that was stored before
    under another query. *)
Theorem latest_search_first (w : World) (q : string) (limit : Z) :
  fault w search_history_store = None → 1 ≤ limit →
  (∀ q' e, search_history (db w) !! q' = Some e → timestamp e < clock w) →
  ∃ rest w',
    (dbHelpers.addToSearchHistory q;; dbHelpers.getSearchHistory limit) w
    = (Returned (mkSearchEntry q (clock w) :: rest), w')
    ∧ search_history (db w')
      = <[q := mkSearchEntry q (clock w)]> (search_history (db w))
    ∧ ∀ e, e ∈ rest → ∃ q', q' ≠ q ∧ search_history (db w) !! q' = Some e.
Proof.
  intros Hf Hl Hold.
  destruct (history_after_insert (search_history (db w)) q (clock w) Hold)
    as (tl & Hall & Hperm).
  destruct (Z.to_nat limit) as [|n] eqn:Hn; [lia|].
  exists (take n tl). eexists. split.
  { unfold mbind, Async_bind, bind. rewrite addToSearchHistory_ok by done.
    rewrite getSearchHistory_ok by done.
    cbn [db set_db search_history set_search_history].
    rewrite Hall, slice0_take, Hn by lia. reflexivity. }
  split; [reflexivity|].
  intros e He. apply subseteq_take in He. rewrite Hperm in He.
  apply list_elem_of_fmap in He as ([q' e'] & -> & He).
  apply elem_of_map_to_list, lookup_delete_Some in He as [? ?]. by exists q'.
Qed.

Lemma latest_search_first_witness :
  let w := session used_db 5000 offline in
  ∃ rest w',
    (dbHelpers.addToSearchHistory "arrival";; dbHelpers.getSearchHistory 5) w
    = (Returned (mkSearchEntry "arrival" (clock w) :: rest), w')
    ∧ search_history (db w')
      = <["arrival" := mkSearchEntry "arrival" (clock w)]> (search_history (db w))
    ∧ ∀ e, e ∈ rest → ∃ q', q' ≠ "arrival" ∧ search_history (db w) !! q' = Some e.
Proof.
  intros w.
  apply (latest_search_first w "arrival" 5).
  - reflexivity.
  - lia.
  - intros q' e H.
    change (({[ "dune" := mkSearchEntry "dune" 1200 ]} : gmap string SearchEntry) !! q'
            = Some e) in H.
    apply lookup_singleton_Some in H as [_ <-]. cbn. lia.
Defined.

(** ** The favorites hook *)

Lemma addFavorite_fault (movie : Favorite) (w : World) c msg :
  fault w favorites_store = Some (c, msg) →
  dbHelpers.addFavorite movie w = (Threw (ErrorObject c msg), w).
Proof. intros Hf. unfold dbHelpers.addFavorite. by rewrite (request_fault _ _ _ c msg). Qed.

Lemma removeFavorite_fault (k : Z) (w : World) c msg :
  fault w favorites_store = Some (c, msg) →
  dbHelpers.removeFavorite k w = (Threw (ErrorObject c msg), w).
Proof. intros Hf. unfold dbHelpers.removeFavorite. by rewrite (request_fault _ _ _ c msg). Qed.

(** What the hook's [addFavorite] does, case by case. *)
Lemma hook_add_rejected (movie : TMDBMovie) (prev : list Favorite) (w : World) t :
  dbHelpers.addFavorite (favorite_of movie (clock w)) w = (Threw t, w) →
  useFavorites.addFavorite movie prev w
  = (Returned prev, show_toast (error_toast "Failed to add movie to favorites") w).
Proof.
  intros H. unfold useFavorites.addFavorite, try_catch.
  unfold mbind at 1, Async_bind, bind at 1, Date_now.
  unfold mbind at 1, bind at 1.
  change (dbHelpers.addFavorite _ w) with (dbHelpers.addFavorite (favorite_of movie (clock w)) w).
  rewrite H. reflexivity.
Qed.

Lemma hook_add_stored (movie : TMDBMovie) (prev : list Favorite) (w : World) :
  fault w favorites_store = None →
  favorites (db w) !! movie_id movie = None →
  let fav := favorite_of movie (clock w) in
  let w1 := set_db (set_favorites (<[movie_id movie := fav]> (favorites (db w))) (db w)) w in
  useFavorites.addFavorite movie prev w
  = (Returned (prev ++ [fav]),
     match fault w analytics_store with
     | None =>
         show_toast {| toast_title := "Added to Favorites";
                       toast_description :=
                         movie_title movie +:+ " has been added to your favorites";
                       destructive := false |}
           (set_db (set_analytics
                      (analytics (db w1)
                       ++ [mkUsageEvent "favorite_added"
                             (JObj [("movieId", JNum (movie_id movie));
                                    ("title", JStr (movie_title movie))]) (clock w)])
                      (db w1)) w1)
     | Some _ => show_toast (error_toast "Failed to add movie to favorites") w1
     end).
Proof.
  intros Hf Hnew fav w1. unfold useFavorites.addFavorite, try_catch.
  unfold mbind at 1, Async_bind, bind at 1, Date_now.
  unfold mbind at 1, bind at 1.
  change (dbHelpers.addFavorite _ w) with (dbHelpers.addFavorite fav w).
  rewrite addFavorite_new by done. fold w1.
  unfold mbind at 1, bind at 1.
  destruct (fault w analytics_store) as [[c msg]|] eqn:Ha.
  - rewrite (trackEvent_fault _ _ _ c msg) by done. reflexivity.
  - rewrite trackEvent_ok by done. reflexivity.
Qed.

Lemma hook_remove_rejected (k : Z) (favs prev : list Favorite) (w : World) c msg :
  fault w favorites_store = Some (c, msg) →
  useFavorites.removeFavorite k favs prev w
  = (Returned prev, show_toast (error_toast "Failed to remove movie from favorites") w).
Proof.
  intros Hf. unfold useFavorites.removeFavorite, try_catch.
  unfold mbind at 1, Async_bind, bind at 1.
  rewrite (removeFavorite_fault _ _ c msg) by done. reflexivity.
Qed.

Lemma hook_remove_deleted (k : Z) (favs prev : list Favorite) (w : World) :
  fault w favorites_store = None →
  let movieTitle := title <$> List.find (λ f, id f =? k) favs in
  let w1 := set_db (set_favorites (delete k (favorites (db w))) (db w)) w in
  useFavorites.removeFavorite k favs prev w
  = (Returned (filter (λ fav, id fav ≠ k) prev),
     match fault w analytics_store with
     | None =>
         show_toast {| toast_title := "Removed from Favorites";
                       toast_description :=
                         useFavorites.title_text movieTitle
                         +:+ " has been removed from your favorites";
                       destructive := false |}
           (set_db (set_analytics
                      (analytics (db w1)
                       ++ [mkUsageEvent "favorite_removed"
                             (JObj (("movieId", JNum k)
                                    :: match movieTitle with
                                       | Some t => [("title", JStr t)]
                                       | None => []
                                       end)) (clock w)])
                      (db w1)) w1)
     | Some _ => show_toast (error_toast "Failed to remove movie from favorites") w1
     end).
Proof.
  intros Hf movieTitle w1. unfold useFavorites.removeFavorite, try_catch.
  unfold mbind at 1, Async_bind, bind at 1.
  rewrite removeFavorite_ok by done. fold w1.
  unfold mbind at 1, bind at 1.
  destruct (fault w analytics_store) as [[c msg]|] eqn:Ha.
  - rewrite (trackEvent_fault _ _ _ c msg) by done. reflexivity.
  - rewrite trackEvent_ok by done. reflexivity.
Qed.

Lemma hook_load (prev : list Favorite) (w : World) :
  useFavorites.loadFavorites prev w
  = match fault w favorites_store with
    | None =>
        (Returned (js_sort (λ a b, a.1 - b.1) (map_to_list (favorites (db w)))).*2, w)
    | Some _ =>
        (Returned prev, show_toast (error_toast "Failed to load favorites from storage") w)
    end.
Proof.
  unfold useFavorites.loadFavorites, try_catch, mbind, Async_bind, bind.
  destruct (fault w favorites_store) as [[c msg]|] eqn:Hf.
  - unfold dbHelpers.getFavorites. rewrite (request_fault _ _ _ c msg) by done.
    reflexivity.
  - rewrite getFavorites_ok by done. reflexivity.
Qed.

Lemma filter_all {A} (P : A → Prop) `{∀ x, Decision (P x)} (l : list A) :
  Forall P l → filter P l = l.
Proof.
  induction 1 as [|x l Hx Hl IH]; [done|].
  by rewrite filter_cons_True, IH by done.
Qed.

(** Deleting a key removes the favorites with that id from the listing. *)
Lemma values_delete (m : gmap Z Favorite) (k : Z) :
  (∀ j f, m !! j = Some f → id f = j) →
  filter (λ f, id f ≠ k) (map_to_list m).*2 ≡ₚ (map_to_list (delete k m)).*2.
Proof.
  intros Hk.
  assert (Forall (λ f, id f ≠ k) (map_to_list (delete k m)).*2) as Hrest.
  { apply Forall_forall. intros f Hf.
    apply list_elem_of_fmap in Hf as ([j f'] & -> & Hf).
    apply elem_of_map_to_list, lookup_delete_Some in Hf as [Hne Hf].
    cbn. rewrite (Hk _ _ Hf). congruence. }
  destruct (m !! k) as [x|] eqn:Hl.
  - rewrite <- (map_to_list_delete m k x) by done.
    cbn [fmap list_fmap snd]. rewrite filter_cons_False by (rewrite (Hk _ _ Hl); auto).
    by rewrite filter_all.
  - rewrite delete_id in Hrest |- * by done. by rewrite filter_all.
Qed.

Lemma in_sync_not_stored (state : list Favorite) (d : DB) (k : Z) :
  favorites_keyed d → in_sync state d → favorites d !! k = None →
  Forall (λ f, id f ≠ k) state.
Proof.
  intros Hk Hs Hl. apply Forall_forall. intros f Hf. rewrite Hs in Hf.
  apply list_elem_of_fmap in Hf as ([j f'] & -> & Hf).
  apply elem_of_map_to_list in Hf. cbn. rewrite (Hk _ _ Hf). congruence.
Qed.

(** One action keeps the list and the collection in step, whatever the
    stores do. *)
Lemma run_action_in_sync (a : HookAction) (state : list Favorite) (w : World) :
  favorites_keyed (db w) → in_sync state (db w) →
  ∃ state' w', run_action a state w = (Returned state', w')
               ∧ favorites_keyed (db w') ∧ in_sync state' (db w').
Proof.
  intros Hk Hs.
  assert (∀ k prev, in_sync prev (db w) → favorites_keyed (db w) →
            ∃ state' w', useFavorites.removeFavorite k state prev w = (Returned state', w')
                         ∧ favorites_keyed (db w') ∧ in_sync state' (db w')) as Hremove.
  { intros k prev Hs' _. destruct (fault w favorites_store) as [[c msg]|] eqn:Hf.
    - rewrite (hook_remove_rejected _ _ _ _ c msg) by done. by do 2 eexists.
    - rewrite hook_remove_deleted by done. do 2 eexists. split; [reflexivity|].
      assert (favorites_keyed
                (set_favorites (delete k (favorites (db w))) (db w))
              ∧ in_sync (filter (λ fav, id fav ≠ k) prev)
                        (set_favorites (delete k (favorites (db w))) (db w)))
        as [? ?].
      { split.
        - intros j f Hl. cbn [favorites set_favorites] in Hl.
          apply lookup_delete_Some in Hl as [_ Hl]. by apply Hk.
        - unfold in_sync. cbn [favorites set_favorites].
          rewrite <- values_delete by done. by apply filter_Permutation. }
      by destruct (fault w analytics_store). }
  assert (∀ movie prev, in_sync prev (db w) →
            ∃ state' w', useFavorites.addFavorite movie prev w = (Returned state', w')
                         ∧ favorites_keyed (db w') ∧ in_sync state' (db w')) as Hadd.
  { intros movie prev Hs'. destruct (fault w favorites_store) as [[c msg]|] eqn:Hf.
    { rewrite (hook_add_rejected _ _ _ (ErrorObject c msg))
        by (by apply addFavorite_fault).
      by do 2 eexists. }
    destruct (favorites (db w) !! movie_id movie) as [old|] eqn:Hl.
    { rewrite (hook_add_rejected _ _ _ dbHelpers.ConstraintError)
        by (by apply (addFavorite_existing _ old)).
      by do 2 eexists. }
    rewrite hook_add_stored by done. do 2 eexists. split; [reflexivity|].
    set (fav := favorite_of movie (clock w)).
    assert (favorites_keyed
              (set_favorites (<[movie_id movie := fav]> (favorites (db w))) (db w))
            ∧ in_sync (prev ++ [fav])
                      (set_favorites (<[movie_id movie := fav]> (favorites (db w))) (db w)))
      as [? ?].
    { split.
      - intros j f Hj. cbn [favorites set_favorites] in Hj.
        apply lookup_insert_Some in Hj as [[<- <-]|[_ Hj]]; [done|].
        by apply Hk.
      - unfold in_sync. cbn [favorites set_favorites].
        rewrite map_to_list_insert by done. cbn [fmap list_fmap snd].
        rewrite <- Hs'. by rewrite Permutation_app_comm. }
    by destruct (fault w analytics_store). }
  destruct a as [|movie|k|movie]; cbn [run_action].
  - rewrite hook_load. destruct (fault w favorites_store) as [[c msg]|].
    + by do 2 eexists.
    + do 2 eexists. split; [reflexivity|]. split; [done|].
      unfold in_sync. by rewrite js_sort_perm.
  - by apply Hadd.
  - by apply Hremove.
  - unfold useFavorites.toggleFavorite.
    destruct (useFavorites.isFavorite (movie_id movie) state); [by apply Hremove|by apply Hadd].
Qed.

(** X18. The list of the hook mirrors the collection: when the hook's
    state holds exactly the stored favorites, it still does after any
    sequence of [loadFavorites], [addFavorite], [removeFavorite] and
    [toggleFavorite], each issued on the state the previous one left,
    whatever requests the stores reject; and none of these calls throws. *)
Theorem hook_in_sync (actions : list HookAction) (state : list Favorite) (w : World) :
  favorites_keyed (db w) → in_sync state (db w) →
  ∃ state' w', run_actions actions state w = (Returned state', w')
               ∧ favorites_keyed (db w') ∧ in_sync state' (db w').
Proof.
  revert state w. induction actions as [|a actions IH]; intros state w Hk Hs.
  - by exists state, w.
  - destruct (run_action_in_sync a state w Hk Hs) as (s1 & w1 & Hrun & Hk1 & Hs1).
    destruct (IH s1 w1 Hk1 Hs1) as (s2 & w2 & Hrest & ? & ?).
    exists s2, w2. split; [|done].
    cbn [run_actions]. unfold mbind, Async_bind, bind. by rewrite Hrun.
Qed.

Lemma hook_in_sync_witness :
  let dune := mkTMDBMovie 438631 "Dune" "Paul Atreides leads a rebellion." None
                          "2021-09-15" 8 in
  let w := session_with analytics_full used_db 5000 offline in
  ∃ state' w',
    run_actions [Toggle dune; Remove 27205; Add dune; Load] [arrival; inception] w
    = (Returned state', w')
    ∧ favorites_keyed (db w') ∧ in_sync state' (db w').
Proof.
  intros dune w.
  apply (hook_in_sync [Toggle dune; Remove 27205; Add dune; Load] [arrival; inception] w).
  - exact used_db_keyed.
  - unfold in_sync. vm_compute. apply Permutation_swap.
Defined.

Lemma isFavorite_not_stored (state : list Favorite) (k : Z) :
  Forall (λ f, id f ≠ k) state → useFavorites.isFavorite k state = false.
Proof.
  unfold useFavorites.isFavorite. induction 1 as [|f l Hf Hl IH]; [done|].
  cbn [existsb]. rewrite IH. by destruct (Z.eqb_spec (id f) k).
Qed.

Lemma find_not_stored (state : list Favorite) (k : Z) (rest : list Favorite) :
  Forall (λ f, id f ≠ k) state →
  List.find (λ f, id f =? k) (state ++ rest) = List.find (λ f, id f =? k) rest.
Proof.
  induction 1 as [|f l Hf Hl IH]; [done|].
  cbn [app List.find]. by destruct (Z.eqb_spec (id f) k).
Qed.

(** X19. Toggling twice: with stores that answer and a list that mirrors
    the collection, toggling a movie that is not a favorite adds it, and
    toggling it again restores both the list and the collection; the two
    calls record a [favorite_added] and a [favorite_removed] event and show
    the two matching toasts. *)
Theorem toggleFavorite_twice (w : World) (movie : TMDBMovie) (state : list Favorite) :
  fault w favorites_store = None → fault w analytics_store = None →
  favorites_keyed (db w) → in_sync state (db w) →
  favorites (db w) !! movie_id movie = None →
  ∃ w1 w2,
    useFavorites.toggleFavorite movie state state w
    = (Returned (state ++ [favorite_of movie (clock w)]), w1)
    ∧ favorites (db w1) !! movie_id movie = Some (favorite_of movie (clock w))
    ∧ useFavorites.toggleFavorite movie (state ++ [favorite_of movie (clock w)])
        (state ++ [favorite_of movie (clock w)]) w1
      = (Returned state, w2)
    ∧ favorites (db w2) = favorites (db w)
    ∧ action <$> analytics (db w2)
      = (action <$> analytics (db w)) ++ ["favorite_added"; "favorite_removed"]
    ∧ toast_description <$> toasts w2
      = (toast_description <$> toasts w)
        ++ [movie_title movie +:+ " has been added to your favorites";
            movie_title movie +:+ " has been removed from your favorites"].
Proof.
  intros Hf Ha Hk Hs Hnew.
  pose proof (in_sync_not_stored state (db w) _ Hk Hs Hnew) as Hids.
  set (fav := favorite_of movie (clock w)).
  do 2 eexists. split.
  { unfold useFavorites.toggleFavorite. rewrite isFavorite_not_stored by done.
    rewrite hook_add_stored by done. rewrite Ha. reflexivity. }
  split; [by cbn; rewrite lookup_insert_eq|].
  split.
  { unfold useFavorites.toggleFavorite.
    assert (useFavorites.isFavorite (movie_id movie) (state ++ [fav]) = true) as ->.
    { unfold useFavorites.isFavorite. rewrite existsb_app. cbn [existsb fav favorite_of id].
      rewrite Z.eqb_refl. by rewrite orb_true_r. }
    rewrite hook_remove_deleted by done.
    cbn [fault show_toast set_db]. rewrite Ha.
    rewrite filter_app, filter_all by done.
    rewrite filter_cons_False by (cbn; auto). rewrite filter_nil, app_nil_r.
    reflexivity. }
  cbn [db set_db show_toast favorites set_favorites set_analytics analytics toasts].
  split_and!.
  - rewrite delete_insert_eq. by apply delete_id.
  - by rewrite !fmap_app, <- app_assoc.
  - rewrite !fmap_app, <- app_assoc. cbn [fmap list_fmap toast_description app].
    rewrite find_not_stored by done. cbn [List.find fav favorite_of id].
    rewrite Z.eqb_refl. reflexivity.
Qed.

Lemma toggleFavorite_twice_witness :
  let dune := mkTMDBMovie 438631 "Dune" "Paul Atreides leads a rebellion." None
                          "2021-09-15" 8 in
  let w := session used_db 5000 offline in
  let state := [arrival; inception] in
  ∃ w1 w2,
    useFavorites.toggleFavorite dune state state w
    = (Returned (state ++ [favorite_of dune (clock w)]), w1)
    ∧ favorites (db w1) !! movie_id dune = Some (favorite_of dune (clock w))
    ∧ useFavorites.toggleFavorite dune (state ++ [favorite_of dune (clock w)])
        (state ++ [favorite_of dune (clock w)]) w1
      = (Returned state, w2)
    ∧ favorites (db w2) = favorites (db w)
    ∧ action <$> analytics (db w2)
      = (action <$> analytics (db w)) ++ ["favorite_added"; "favorite_removed"]
    ∧ toast_description <$> toasts w2
      = (toast_description <$> toasts w)
        ++ [movie_title dune +:+ " has been added to your favorites";
            movie_title dune +:+ " has been removed from your favorites"].
Proof.
  intros dune w state.
  apply (toggleFavorite_twice w dune state).
  - reflexivity.
  - reflexivity.
  - exact used_db_keyed.
  - unfold in_sync. vm_compute. apply Permutation_swap.
  - vm_compute. reflexivity.
Defined.

(** ** Clearing the favorites page *)

Lemma Promise_all_removeFavorite_fault (ks : list Z) (w : World) c msg :
  fault w favorites_store = Some (c, msg) → ks ≠ [] →
  Promise_all (dbHelpers.removeFavorite <$> ks) w = (Threw (ErrorObject c msg), w).
Proof.
  intros Hf Hne.
  assert (∀ l, ∃ r, Promise_all (dbHelpers.removeFavorite <$> l) w = (r, w)) as Hsame.
  { induction l as [|k l [r IH]]; [by eexists|].
    cbn [fmap list_fmap Promise_all].
    rewrite (removeFavorite_fault _ _ c msg) by done.
    change (list_fmap Z (Async ()) dbHelpers.removeFavorite l)
      with (dbHelpers.removeFavorite <$> l).
    rewrite IH. by eexists. }
  destruct ks as [|k ks]; [done|].
  cbn [fmap list_fmap Promise_all].
  rewrite (removeFavorite_fault _ _ c msg) by done.
  change (list_fmap Z (Async ()) dbHelpers.removeFavorite ks)
    with (dbHelpers.removeFavorite <$> ks).
  destruct (Hsame ks) as [r ->]. reflexivity.
Qed.

(** X20. [handleClearAll] of the favorites page, for a list that is not
    empty. With stores that answer and a list that mirrors the collection,
    it empties the collection and the list, records one
    [favorites_cleared] event with the number of movies removed and shows
    that number in the toast. When the favorites store rejects requests,
    it changes nothing and shows the error toast. *)
Theorem handleClearAll_spec (w : World) (state : list Favorite) :
  state ≠ [] →
  (fault w favorites_store = None → fault w analytics_store = None →
   favorites_keyed (db w) → in_sync state (db w) →
   Favorites.handleClearAll state w
   = (Returned [],
      show_toast {| toast_title := "Favorites Cleared";
                    toast_description :=
                      "Removed " +:+ pretty (length state)
                      +:+ " movies from your favorites";
                    destructive := false |}
        (set_db (set_analytics
                   (analytics (db w)
                    ++ [mkUsageEvent "favorites_cleared"
                          (JObj [("count", JNum (Z.of_nat (length state)))]) (clock w)])
                   (set_favorites ∅ (db w))) w)))
  ∧ (∀ c msg, fault w favorites_store = Some (c, msg) →
       Favorites.handleClearAll state w
       = (Returned state,
          show_toast (error_toast "Failed to clear favorites. Please try again.") w)).
Proof.
  intros Hne.
  assert ((length state =? 0)%nat = false) as Hlen.
  { destruct state; [done|reflexivity]. }
  assert (id <$> state ≠ []) as Hne' by (by destruct state).
  split.
  - intros Hf Ha Hk Hs. unfold Favorites.handleClearAll. rewrite Hlen.
    unfold try_catch at 1.
    unfold mbind at 1, Async_bind, bind at 1.
    rewrite (list_fmap_compose id dbHelpers.removeFavorite).
    rewrite Promise_all_removeFavorite by done.
    assert (foldl (λ m k, delete k m) (favorites (db w)) (id <$> state) = ∅) as ->.
    { apply map_eq. intros k. rewrite lookup_foldl_delete, lookup_empty.
      destruct (decide (k ∈ id <$> state)) as [|Hnin]; [done|].
      destruct (favorites (db w) !! k) as [f|] eqn:Hl; [|done].
      destruct Hnin. rewrite Hs, keyed_ids by done.
      apply list_elem_of_fmap. exists (k, f). split; [done|].
      by apply elem_of_map_to_list. }
    unfold mbind at 1, bind at 1. rewrite hook_load.
    cbn [fault set_db db favorites set_favorites]. rewrite Hf.
    rewrite map_to_list_empty. cbn [js_sort foldr fmap list_fmap].
    unfold try_catch, mbind, Async_bind, bind.
    rewrite trackEvent_ok by done. reflexivity.
  - intros c msg Hf. unfold Favorites.handleClearAll. rewrite Hlen.
    unfold try_catch at 1.
    unfold mbind at 1, Async_bind, bind at 1.
    rewrite (list_fmap_compose id dbHelpers.removeFavorite).
    rewrite (Promise_all_removeFavorite_fault _ _ c msg) by done.
    reflexivity.
Qed.

Lemma handleClearAll_spec_witness :
  let w := session used_db 5000 offline in
  Favorites.handleClearAll [arrival; inception] w
  = (Returned [],
     show_toast {| toast_title := "Favorites Cleared";
                   toast_description := "Removed 2 movies from your favorites";
                   destructive := false |}
       (set_db (set_analytics
                  (analytics (db w)
                   ++ [mkUsageEvent "favorites_cleared" (JObj [("count", JNum 2)]) 5000])
                  (set_favorites ∅ (db w))) w)).
Proof.
  intros w.
  apply (proj1 (handleClearAll_spec w [arrival; inception] ltac:(discriminate))).
  - reflexivity.
  - reflexivity.
  - exact used_db_keyed.
  - unfold in_sync. vm_compute. apply Permutation_swap.
Defined.

(** ** Preferences *)

Lemma json_own_entries_no_index (o : list (string * JSON)) :
  Forall (λ p, array_index p.1 = None) o → json_own_entries o = o.
Proof.
  intros Hall. unfold json_own_entries.
  assert (omap (λ p : string * JSON, (λ n, (n, p)) <$> array_index p.1) o = []) as ->.
  { induction Hall as [|p l Hp Hl IH]; [done|]. cbn [omap list_omap].
    rewrite Hp. cbn. exact IH. }
  cbn [js_sort foldr fmap list_fmap app]. by apply filter_all.
Qed.

Lemma settings_names_no_index (o : list (string * JSON)) :
  Forall (λ p, p.1 ∈ PreferencesContext.defaultPreferences.*1) o →
  Forall (λ p, array_index p.1 = None) o.
Proof.
  intros H. eapply Forall_impl; [exact H|]. intros [k v] Hk. cbn in Hk |- *.
  repeat (apply elem_of_cons in Hk as [->|Hk]; [vm_compute; reflexivity|]).
  by apply elem_of_nil in Hk.
Qed.

Lemma settings_object_inv (o : list (string * JSON)) :
  settings_object o →
  ∃ a b c d, o = [("theme", a); ("pageSize", b); ("language", c); ("offlineMode", d)].
Proof.
  unfold settings_object. cbn.
  destruct o as [|[k1 a] [|[k2 b] [|[k3 c] [|[k4 d] [|? ?]]]]]; try discriminate.
  cbn. intros [= -> -> -> ->]. by exists a, b, c, d.
Qed.

Lemma json_define_names (k : string) (v : JSON) (o : list (string * JSON)) :
  k ∈ o.*1 → (json_define_property k v o).*1 = o.*1.
Proof.
  induction o as [|[k' v'] o IH]; intros Hin; [by apply elem_of_nil in Hin|].
  cbn [json_define_property]. destruct (String.eqb_spec k k') as [->|Hne]; [done|].
  cbn [fmap list_fmap fst] in Hin |- *. f_equal. apply IH.
  apply elem_of_cons in Hin as [|]; [done|done].
Qed.

Lemma assoc_json_define (k k' : string) (v : JSON) (o : list (string * JSON)) :
  assoc k (json_define_property k' v o)
  = if String.eqb k k' then Some v else assoc k o.
Proof.
  induction o as [|[j u] o IH]; cbn [json_define_property assoc]; [done|].
  destruct (String.eqb_spec k' j) as [->|Hne]; cbn [assoc].
  - by destruct (String.eqb k j).
  - rewrite IH. destruct (String.eqb_spec k j) as [->|]; [|done].
    destruct (String.eqb_spec j k'); congruence.
Qed.

Lemma assoc_None {A} (k : string) (l : list (string * A)) :
  k ∉ l.*1 → assoc k l = None.
Proof.
  induction l as [|[j u] l IH]; [done|]. cbn [fmap list_fmap fst assoc].
  intros Hnin. apply not_elem_of_cons in Hnin as [Hne Hnin].
  destruct (String.eqb_spec k j); [done|]. by apply IH.
Qed.

(** Writing an update over an object: the names stay, and each name
    holds the updated value if there is one. *)
Lemma foldl_define (updates o : list (string * JSON)) :
  NoDup updates.*1 → Forall (λ p, p.1 ∈ o.*1) updates →
  let o' := foldl (λ acc p, json_define_property p.1 p.2 acc) o updates in
  o'.*1 = o.*1
  ∧ ∀ k, assoc k o' = match assoc k updates with
                      | Some v => Some v
                      | None => assoc k o
                      end.
Proof.
  revert o. induction updates as [|[k' v] us IH]; intros o Hnd Hall; [done|].
  cbn [fmap list_fmap fst] in Hnd. apply NoDup_cons in Hnd as [Hnin Hnd].
  apply Forall_cons in Hall as [Hk Hall]. cbn [fst] in Hk.
  cbn [foldl fst snd].
  assert ((json_define_property k' v o).*1 = o.*1) as Hnames
    by (by apply json_define_names).
  destruct (IH (json_define_property k' v o) Hnd) as [Hn Hv].
  { eapply Forall_impl; [exact Hall|]. intros p Hp. cbn. by rewrite Hnames. }
  cbv zeta in Hn, Hv |- *. split; [by rewrite Hn|].
  intros k. rewrite Hv. cbn [assoc]. rewrite assoc_json_define.
  destruct (String.eqb_spec k k') as [->|Hne]; [|done].
  by rewrite assoc_None.
Qed.

Lemma merged_settings (current updates : list (string * JSON)) :
  settings_object current → settings_update updates →
  settings_object (merged current updates)
  ∧ ∀ k, assoc k (merged current updates)
         = match assoc k updates with
           | Some v => Some v
           | None => assoc k current
           end.
Proof.
  intros Hp [Hnd Hall]. unfold merged.
  assert (json_spread [] (JObj current) = current) as ->.
  { destruct (settings_object_inv _ Hp) as (a & b & c & d & ->). reflexivity. }
  unfold json_spread, spread_entries.
  rewrite (json_own_entries_no_index updates) by (by apply settings_names_no_index).
  pose proof (foldl_define updates current Hnd) as H. cbv zeta in H.
  destruct H as [Hn Hv].
  { unfold settings_object in Hp. by rewrite Hp. }
  split; [|exact Hv]. unfold settings_object. by rewrite Hn.
Qed.

Lemma load_settings (stored prev : list (string * JSON)) (w : World) :
  fault w preferences_store = None →
  preferences (db w) !! "user-preferences" = Some (JObj stored) →
  settings_object stored →
  PreferencesContext.loadPreferences prev w = (Returned stored, w).
Proof.
  intros Hf Hl Hs. unfold PreferencesContext.loadPreferences, try_catch.
  unfold mbind, Async_bind, bind, dbHelpers.getPreference.
  rewrite request_ok by done. cbn [fst snd]. rewrite Hl, set_db_same.
  cbn [truthy]. destruct (settings_object_inv _ Hs) as (a & b & c & d & ->).
  reflexivity.
Qed.

(** X21. Saving settings and reading them back: with stores that answer,
    [updatePreferences] on a state with the four settings and an update of
    some of them returns the state with the updated values in place,
    stores it under [user-preferences], and records one
    [preferences_updated] event; a later [loadPreferences], from any
    state, gives exactly that state. *)
Theorem preferences_update_then_load (w : World)
    (updates current : list (string * JSON)) :
  fault w preferences_store = None → fault w analytics_store = None →
  settings_object current → settings_update updates →
  ∃ w1,
    PreferencesContext.updatePreferences updates current w
    = (Returned (merged current updates), w1)
    ∧ settings_object (merged current updates)
    ∧ (∀ k, assoc k (merged current updates)
            = match assoc k updates with
              | Some v => Some v
              | None => assoc k current
              end)
    ∧ (∃ ev, recorded w w1 ev ∧ action ev = "preferences_updated")
    ∧ ∀ prev, PreferencesContext.loadPreferences prev w1
              = (Returned (merged current updates), w1).
Proof.
  intros Hf Ha Hp Hu.
  destruct (merged_settings current updates Hp Hu) as [Hm Hv].
  eexists. split.
  { unfold PreferencesContext.updatePreferences, try_catch.
    unfold mbind, Async_bind, bind, dbHelpers.setPreference.
    rewrite request_ok by done. cbn [fst snd].
    rewrite trackEvent_ok by done. reflexivity. }
  split; [done|]. split; [done|]. split.
  { eexists. split; [unfold recorded; reflexivity | reflexivity]. }
  intros prev. apply load_settings; [done| |done].
  cbn [db set_db preferences set_preferences set_analytics].
  apply lookup_insert_eq.
Qed.

Lemma preferences_update_then_load_witness :
  let w := session used_db 5000 offline in
  let updates := [("pageSize", JNum 40); ("theme", JStr "light")] in
  ∃ w1,
    PreferencesContext.updatePreferences updates PreferencesContext.defaultPreferences w
    = (Returned (merged PreferencesContext.defaultPreferences updates), w1)
    ∧ settings_object (merged PreferencesContext.defaultPreferences updates)
    ∧ (∀ k, assoc k (merged PreferencesContext.defaultPreferences updates)
            = match assoc k updates with
              | Some v => Some v
              | None => assoc k PreferencesContext.defaultPreferences
              end)
    ∧ (∃ ev, recorded w w1 ev ∧ action ev = "preferences_updated")
    ∧ ∀ prev, PreferencesContext.loadPreferences prev w1
              = (Returned (merged PreferencesContext.defaultPreferences updates), w1).
Proof.
  intros w updates.
  apply (preferences_update_then_load w updates PreferencesContext.defaultPreferences).
  - reflexivity.
  - reflexivity.
  - reflexivity.
  - split; [by apply (bool_decide_unpack _)|].
    repeat constructor; by apply (bool_decide_unpack _).
Defined.

(** X22. Settings that are put back: when saving fails, [updatePreferences]
    returns the old state and stores nothing. When saving succeeds and
    only the tracking fails, it returns the old state as well, although the
    new settings are stored: the next [loadPreferences] brings them back. *)
Theorem preferences_reverted (w : World) (updates current : list (string * JSON)) :
  settings_object current → settings_update updates →
  (∀ c msg, fault w preferences_store = Some (c, msg) →
     PreferencesContext.updatePreferences updates current w
     = (Returned current, w))
  ∧ (∀ c msg, fault w preferences_store = None →
       fault w analytics_store = Some (c, msg) →
       ∃ w1,
         PreferencesContext.updatePreferences updates current w
         = (Returned current, w1)
         ∧ preferences (db w1) !! "user-preferences"
           = Some (JObj (merged current updates))
         ∧ analytics (db w1) = analytics (db w)
         ∧ ∀ prev, PreferencesContext.loadPreferences prev w1
                   = (Returned (merged current updates), w1)).
Proof.
  intros Hp Hu. split.
  - intros c msg Hf. unfold PreferencesContext.updatePreferences, try_catch.
    unfold mbind, Async_bind, bind, dbHelpers.setPreference.
    by rewrite (request_fault _ _ _ c msg).
  - intros c msg Hf Ha.
    destruct (merged_settings current updates Hp Hu) as [Hm Hv].
    eexists. split.
    { unfold PreferencesContext.updatePreferences, try_catch.
      unfold mbind, Async_bind, bind, dbHelpers.setPreference.
      rewrite request_ok by done. cbn [fst snd].
      rewrite (trackEvent_fault _ _ _ c msg) by done. reflexivity. }
    cbn [db set_db preferences set_preferences analytics].
    split; [apply lookup_insert_eq|]. split; [done|].
    intros prev. apply load_settings; [done| |done].
    apply lookup_insert_eq.
Qed.

Lemma preferences_reverted_witness :
  let w := session_with analytics_full used_db 5000 offline in
  let updates := [("theme", JStr "light")] in
  ∃ w1,
    PreferencesContext.updatePreferences updates PreferencesContext.defaultPreferences w
    = (Returned PreferencesContext.defaultPreferences, w1)
    ∧ preferences (db w1) !! "user-preferences"
      = Some (JObj (merged PreferencesContext.defaultPreferences updates))
    ∧ analytics (db w1) = analytics (db w)
    ∧ ∀ prev, PreferencesContext.loadPreferences prev w1
              = (Returned (merged PreferencesContext.defaultPreferences updates), w1).
Proof.
  intros w updates.
  assert (settings_update updates) as Hu.
  { split; [by apply (bool_decide_unpack _)|].
    repeat constructor; by apply (bool_decide_unpack _). }
  apply (proj2 (preferences_reverted w updates PreferencesContext.defaultPreferences
                  eq_refl Hu)
               (DOMException "QuotaExceededError") "The quota has been exceeded.");
    reflexivity.
Defined.

(** ** The search bar *)


Lemma handleSearch_unfold (q : string) (prev : SearchBarState) (w : World) :
  String.eqb (trim q) "" = false →
  SearchBar.handleSearch q prev w
  = match (dbHelpers.addToSearchHistory (trim q);; dbHelpers.getSearchHistory 5) w with
    | (Returned history, w1) =>
        match dbHelpers.trackEvent "movie_search" (JObj [("query", JStr (trim q))]) w1 with
        | (Returned _, w2) =>
            (Returned (Some (trim q),
                       {| searchHistory := query <$> history; showSuggestions := false |}),
             w2)
        | (Threw _, w2) =>
            (Returned (None, {| searchHistory := query <$> history;
                                showSuggestions := showSuggestions prev |}), w2)
        end
    | (Threw _, w1) =>
        match dbHelpers.addToSearchHistory (trim q) w with
        | (Returned _, _) =>
            match dbHelpers.trackEvent "movie_search"
                    (JObj [("query", JStr (trim q))]) w1 with
            | (Returned _, w2) =>
                (Returned (Some (trim q),
                           {| searchHistory := searchHistory prev;
                              showSuggestions := false |}), w2)
            | (Threw _, w2) => (Returned (None, prev), w2)
            end
        | (Threw _, _) => (Returned (None, prev), w1)
        end
    end.
Proof.
  intros Hq. unfold SearchBar.handleSearch. rewrite Hq.
  unfold SearchBar.loadSearchHistory, try_catch, mbind, Async_bind, bind.
  destruct (dbHelpers.addToSearchHistory (trim q) w) as [[?|?] w1]; [|done].
  destruct (dbHelpers.getSearchHistory 5 w1) as [[history|?] w2].
  - unfold mret, Async_ret, ret.
    by destruct (dbHelpers.trackEvent _ _ w2) as [[?|?] w3].
  - unfold mret, Async_ret, ret.
    destruct (dbHelpers.trackEvent _ _ w2) as [[?|?] w3]; [|by destruct prev].
    reflexivity.
Qed.

(** X23. A search from the search bar: with stores that answer, a query
    that is not blank, submitted later than every stored search, is saved
    trimmed with the current time, becomes the first of at most five
    suggestions, is recorded as a [movie_search] event, and is handed
    trimmed to [onSearch]; the suggestions are closed. *)
Theorem handleSearch_spec (w : World) (q : string) (prev : SearchBarState) :
  fault w search_history_store = None → fault w analytics_store = None →
  trim q ≠ "" →
  (∀ q' e, search_history (db w) !! q' = Some e → timestamp e < clock w) →
  ∃ rest w',
    SearchBar.handleSearch q prev w
    = (Returned (Some (trim q),
                 {| searchHistory := trim q :: rest; showSuggestions := false |}), w')
    ∧ (length rest ≤ 4)%nat
    ∧ search_history (db w')
      = <[trim q := mkSearchEntry (trim q) (clock w)]> (search_history (db w))
    ∧ recorded w w'
        (mkUsageEvent "movie_search" (JObj [("query", JStr (trim q))]) (clock w)).
Proof.
  intros Hf Ha Hq Hold.
  destruct (history_after_insert (search_history (db w)) (trim q) (clock w) Hold)
    as (tl & Hall & _).
  exists (query <$> take 4 tl). eexists.
  rewrite handleSearch_unfold by (by apply String.eqb_neq).
  unfold mbind at 1, Async_bind, bind at 1.
  rewrite addToSearchHistory_ok by done. rewrite getSearchHistory_ok by done.
  cbn [db set_db search_history set_search_history].
  rewrite Hall, slice0_take by lia.
  rewrite trackEvent_ok by done.
  split; [reflexivity|]. split.
  { rewrite length_fmap, length_take. lia. }
  split; [reflexivity|].
  unfold recorded. reflexivity.
Qed.

Lemma handleSearch_spec_witness :
  let w := session used_db 5000 offline in
  let prev := mkSearchBarState [] true in
  ∃ rest w',
    SearchBar.handleSearch "  arrival " prev w
    = (Returned (Some (trim "  arrival "),
                 {| searchHistory := trim "  arrival " :: rest;
                    showSuggestions := false |}), w')
    ∧ (length rest ≤ 4)%nat
    ∧ search_history (db w')
      = <[trim "  arrival " := mkSearchEntry (trim "  arrival ") (clock w)]>
          (search_history (db w))
    ∧ recorded w w'
        (mkUsageEvent "movie_search" (JObj [("query", JStr (trim "  arrival "))])
           (clock w)).
Proof.
  intros w prev.
  apply (handleSearch_spec w "  arrival " prev).
  - reflexivity.
  - reflexivity.
  - vm_compute. discriminate.
  - intros q' e H.
    change (({[ "dune" := mkSearchEntry "dune" 1200 ]} : gmap string SearchEntry) !! q'
            = Some e) in H.
    apply lookup_singleton_Some in H as [_ <-]. cbn. lia.
Defined.

Lemma trim_arrival : trim "  arrival " = "arrival".
Proof. vm_compute. reflexivity. Qed.



(** ** The movie detail modal *)

(** X25. What the modal shows: [loadMovieDetails] never throws and always
    ends with [isLoading] false. When the request misses the cache and its
    first fetch is answered with a 2xx response and a JSON body (stores
    answering), the body becomes the details and there is no error. When
    every fetch fails with a network error, the previous details stay, the
    destructive toast is shown, and the error text is the fixed
    "Failed to load movie details", not the message of the network error
    that [get] threw. *)
Theorem loadMovieDetails_spec (w w1 : World) (movieId : Z) (prev : ModalState) :
  cache_miss w (get_cacheKey w (call_endpoint (GetMovieDetails movieId)) []) w1 →
  fault w analytics_store = None →
  (∃ st w', MovieDetailModal.loadMovieDetails movieId prev w = (Returned st, w')
            ∧ modal_isLoading st = false)
  ∧ (∀ r d, server w (APIClient.attempts (trace w))
                   (get_url w (call_endpoint (GetMovieDetails movieId)) [])
            = Responded r →
       APIClient.response_ok r = true → body r = Some d →
       fault w api_cache_store = None →
       ∃ w', MovieDetailModal.loadMovieDetails movieId prev w
             = (Returned {| movieDetails := Some d; modal_isLoading := false;
                            modal_error := None |}, w')
             ∧ toasts w' = toasts w)
  ∧ (always_failing (server w) →
       ∃ w', MovieDetailModal.loadMovieDetails movieId prev w
             = (Returned {| movieDetails := movieDetails prev; modal_isLoading := false;
                            modal_error := Some "Failed to load movie details" |}, w')
             ∧ toasts w'
               = toasts w
                 ++ [error_toast "Failed to load movie details. Please try again."]
             ∧ APIClient.attempts (trace w') = (APIClient.attempts (trace w) + 4)%nat).
Proof.
  intros Hmiss Haf.
  destruct (cache_miss_frame _ _ _ Hmiss) as (_ & Ht1 & Hs1 & _).
  assert (toasts w1 = toasts w) as Hto1.
  { destruct Hmiss as (v & Hc & _).
    destruct (getCachedResponse_frame
                (get_cacheKey w (call_endpoint (GetMovieDetails movieId)) []) w)
      as [c' Hw1].
    unfold after in Hw1. rewrite Hc in Hw1. cbn [snd] in Hw1. by rewrite Hw1. }
  split_and!.
  - unfold MovieDetailModal.loadMovieDetails, try_catch, mbind, Async_bind, bind.
    destruct (tmdbAPI.getMovieDetails movieId w) as [[d|t] w']; by do 2 eexists.
  - intros r d Hr Hok Hbody Hcf.
    pose proof Hok as Hok'. unfold APIClient.response_ok in Hok'.
    apply andb_true_iff in Hok' as [Hlo Hhi]. apply Z.leb_le in Hlo, Hhi.
    destruct (fetchWithRetry_recovers
                (get_url w (call_endpoint (GetMovieDetails movieId)) []) 3 0 w1 r)
      as (w2 & Hfetch & _ & Hs2); [lia| | |lia..|].
    { intros i Hi. lia. }
    { by rewrite Hs1, Ht1, Nat.add_0_r. }
    eexists. unfold MovieDetailModal.loadMovieDetails, try_catch, mbind, Async_bind, bind.
    unfold tmdbAPI.getMovieDetails.
    change ("/movie/" +:+ pretty movieId) with (call_endpoint (GetMovieDetails movieId)).
    rewrite (get_miss_returned w w1 w2 _ [] r d) by done.
    split; [reflexivity|].
    cbn [toasts set_db]. destruct Hs2 as (_ & _ & _ & _ & _ & _ & ->). done.
  - intros Hsrv.
    destruct (fetchWithRetry_failing
                (get_url w (call_endpoint (GetMovieDetails movieId)) []) 3 w1)
      as (c & msg & w2 & Hfetch & Hr & Ht2 & Hs2); [by rewrite Hs1|].
    destruct (Hsrv (APIClient.attempts (trace w) + 3)%nat
                   (get_url w (call_endpoint (GetMovieDetails movieId)) []))
      as (c' & msg' & Hr' & _ & Hnet).
    rewrite Hs1, Ht1 in Hr. rewrite Hr in Hr'. injection Hr' as <- <-.
    eexists. unfold MovieDetailModal.loadMovieDetails, try_catch, mbind, Async_bind, bind.
    unfold tmdbAPI.getMovieDetails.
    change ("/movie/" +:+ pretty movieId) with (call_endpoint (GetMovieDetails movieId)).
    rewrite (get_miss_threw w w1 w2 _ [] (ErrorObject c msg)) by done.
    rewrite Hnet. split; [reflexivity|].
    cbn [toasts trace show_toast set_db].
    destruct Hs2 as (_ & _ & _ & _ & _ & _ & ->). rewrite Hto1.
    split; [reflexivity|].
    rewrite Ht2, Ht1, attempts_app, retry_schedule_attempts. lia.
Qed.

Lemma loadMovieDetails_spec_witness :
  let w := session empty_db 0 offline in
  let prev := mkModalState (Some popular_page) false None in
  ∃ w', MovieDetailModal.loadMovieDetails 27205 prev w
        = (Returned {| movieDetails := movieDetails prev; modal_isLoading := false;
                       modal_error := Some "Failed to load movie details" |}, w')
        ∧ toasts w'
          = toasts w ++ [error_toast "Failed to load movie details. Please try again."]
        ∧ APIClient.attempts (trace w') = (APIClient.attempts (trace w) + 4)%nat.
Proof.
  intros w prev.
  apply (proj2 (proj2 (loadMovieDetails_spec w w 27205 prev
                         ltac:(exists JNull; split; vm_compute; reflexivity)
                         eq_refl))).
  intros n url. exists TypeError, "Failed to fetch". by split_and!.
Defined.

(** ** The credential in the cache key *)

(** X26. The API key is part of the cache key: after [setApiKey], a
    request with ordinary parameters uses the cache key it used before
    exactly when the new key is the old one, so responses cached under one
    credential are not served under another; [setApiKey] itself changes
    nothing in the store. *)
Theorem setApiKey_cache_key (w : World) (key endpoint : string) (params : JsObject) :
  ordinary params →
  let w' := after (APIClient.setApiKey key) w in
  (get_cacheKey w' endpoint params = get_cacheKey w endpoint params ↔ key = apiKey w)
  ∧ db w' = db w ∧ trace w' = trace w.
Proof.
  intros Hp w'. split; [|done]. split; [|by intros ->].
  unfold get_cacheKey, APIClient.cacheKey. cbn [w' after APIClient.setApiKey snd apiKey].
  rewrite !urlParams_ordinary by done. intros Heq.
  do 3 apply String.app_inj in Heq.
  cbn [fmap list_fmap] in Heq.
  change (list_fmap _ _ encode_pair ?l) with (encode_pair <$> l) in Heq.
  rewrite !concat_cons in Heq.
  apply encode_pair_inj_tail in Heq as [Hk _]; [|apply is_tail_query_rest..].
  by injection Hk.
Qed.

Lemma setApiKey_cache_key_witness :
  let w := session empty_db 0 offline in
  let w' := after (APIClient.setApiKey "other-key") w in
  (get_cacheKey w' "/movie/popular" [("page", PNumber 1)]
   = get_cacheKey w "/movie/popular" [("page", PNumber 1)] ↔ "other-key" = apiKey w)
  ∧ db w' = db w ∧ trace w' = trace w.
Proof.
  intros w.
  apply (setApiKey_cache_key w "other-key" "/movie/popular" [("page", PNumber 1)]).
  split; [by apply (bool_decide_unpack _)|].
  repeat constructor; vm_compute; congruence.
Defined.

(** ** A failing analytics store *)

(** X27. Fail once, then succeed: when the analytics store rejects
    writes, a [get] that misses the cache and is answered 2xx with a truthy
    payload fails with the error of the analytics write, after it has
    cached the payload; the same call made again within ten minutes
    returns the payload from the cache, with no fetch and no write. *)
Theorem get_fails_then_serves_cache (w w1 : World) (endpoint : string)
    (params : JsObject) (r : Response) (d : JSON) (c : ErrorClass) (msg : string) :
  cache_miss w (get_cacheKey w endpoint params) w1 →
  server w (APIClient.attempts (trace w)) (get_url w endpoint params) = Responded r →
  APIClient.response_ok r = true → body r = Some d → truthy d = true →
  fault w api_cache_store = None → fault w analytics_store = Some (c, msg) →
  ∃ w', APIClient.get endpoint params w = (Threw (ErrorObject c msg), w')
        ∧ trace w' = trace w ++ [Fetch (get_url w endpoint params)]
        ∧ ∀ now, now - clock w' ≤ 600000 →
                 APIClient.get endpoint params (set_clock now w')
                 = (Returned d, set_clock now w').
Proof.
  intros Hmiss Hr Hok Hbody Htruthy Hcf Haf.
  destruct (cache_miss_frame _ _ _ Hmiss) as (Hf1 & Ht1 & Hs1 & _ & Hk1).
  pose proof Hok as Hok'. unfold APIClient.response_ok in Hok'.
  apply andb_true_iff in Hok' as [Hlo Hhi]. apply Z.leb_le in Hlo, Hhi.
  destruct (fetchWithRetry_recovers (get_url w endpoint params) 3 0 w1 r)
    as (w2 & Hfetch & Ht2 & Hs2); [lia| | |lia..|].
  { intros i Hi. lia. }
  { by rewrite Hs1, Ht1, Nat.add_0_r. }
  destruct Hs2 as (_ & Hf2 & _ & _ & Hk2 & _).
  set (key := get_cacheKey w endpoint params).
  set (w3 := set_db (set_api_cache
                       (<[key := mkCacheEntry key d (clock w2) (10 * 60 * 1000)]>
                          (api_cache (db w2))) (db w2)) w2).
  assert (APIClient.get endpoint params w = (Threw (ErrorObject c msg), w3)) as Hget.
  { destruct Hmiss as (v & Hc & Hv).
    rewrite get_unfold, Hc, Hv, get_network, Hfetch.
    unfold get_respond. rewrite Hok. cbn [negb].
    unfold mbind, Async_bind, bind, APIClient.response_json. rewrite Hbody.
    unfold mret at 1, Async_ret, ret at 1.
    rewrite cacheAPIResponse_ok by (by rewrite Hf2, Hf1). fold key w3.
    rewrite (trackEvent_fault _ _ _ c msg) by (by cbn; rewrite Hf2, Hf1).
    by rewrite (get_catch_fault _ _ _ c msg) by (by cbn; rewrite Hf2, Hf1). }
  exists w3. split; [done|]. split; [by cbn; rewrite Ht2, Ht1|].
  intros now Hnow. rewrite get_unfold.
  assert (get_cacheKey (set_clock now w3) endpoint params = key) as ->.
  { unfold key, get_cacheKey. cbn [apiKey set_clock set_db w3]. by rewrite Hk2, Hk1. }
  rewrite (getCachedResponse_live _ _ (mkCacheEntry key d (clock w2) (10 * 60 * 1000))).
  - cbn [data]. by rewrite Htruthy.
  - cbn. by rewrite Hf2, Hf1.
  - cbn [db set_clock set_db api_cache set_api_cache w3]. apply lookup_insert_eq.
  - cbn [clock set_clock set_db cache_timestamp ttl w3] in *. lia.
Qed.

Lemma get_fails_then_serves_cache_witness :
  let w := session_with analytics_full empty_db 1000 (serving 200 popular_page) in
  ∃ w', APIClient.get "/movie/popular" [("page", PNumber 1)] w
        = (Threw (ErrorObject (DOMException "QuotaExceededError")
                              "The quota has been exceeded."), w')
        ∧ trace w' = trace w ++ [Fetch (get_url w "/movie/popular" [("page", PNumber 1)])]
        ∧ ∀ now, now - clock w' ≤ 600000 →
                 APIClient.get "/movie/popular" [("page", PNumber 1)] (set_clock now w')
                 = (Returned popular_page, set_clock now w').
Proof.
  intros w.
  apply (get_fails_then_serves_cache w w "/movie/popular" [("page", PNumber 1)]
           (mkResponse 200 ∅ (Some popular_page)) popular_page).
  - exists JNull. split; vm_compute; reflexivity.
  - reflexivity.
  - reflexivity.
  - reflexivity.
  - reflexivity.
  - reflexivity.
  - reflexivity.
Defined.

(** ** Usage events *)



(** The events at three inputs: a 200 records its status; a 404 whose body
    carries a [status_message] fails with that message and records
    "Unknown error"; a transport failure records the message of the
    [TypeError]. *)
Lemma usage_events_at_three_inputs :
  let not_found := JObj [("status_message", JStr "The resource could not be found.")] in
  let recorded_by srv :=
    (λ ev, (action ev, event_data ev))
      <$> analytics (db (after (APIClient.get "/movie/0" [])
                               (session empty_db 1000 srv))) in
  recorded_by (serving 200 popular_page)
  = [("api_call", JObj [("endpoint", JStr "/movie/0"); ("status", JNum 200);
                        ("cached", JBool false)])]
  ∧ recorded_by (serving 404 not_found)
    = [("api_error", JObj [("endpoint", JStr "/movie/0");
                           ("error", JStr "Unknown error")])]
  ∧ (APIClient.get "/movie/0" [] (session empty_db 1000 (serving 404 not_found))).1
    = Threw (APIErrorObject
               {| api_message := JStr "The resource could not be found.";
                  api_status := Some 404;
                  api_isNetworkError := false |})
  ∧ recorded_by offline
    = [("api_error", JObj [("endpoint", JStr "/movie/0");
                           ("error", JStr "Failed to fetch")])].
Proof. intros not_found recorded_by. split_and!; vm_compute; reflexivity. Qed.
